(** * OVE Bank API: inter-bank settlement core

    A shallow embedding of the settlement subsystem of the OVE Bank API:

    - [src/models/account.model.js]      the ledger ([hasSufficientFunds],
                                         [credit], [debit]);
    - [src/models/transaction.model.js]  the transaction record and its
                                         status transitions;
    - [src/routes/transaction.routes.js] [signTransaction],
                                         [verifySignature] and the three
                                         settlement handlers
                                         ([/internal], [/external],
                                         [/incoming]);

    and of what stands around it:

    - [src/routes/transaction.routes.js] the two handlers that read
                                         transactions;
    - [src/routes/account.routes.js]     the opening of an account and
                                         the handlers that read accounts
                                         by owner and by number;
    - [src/middleware/auth.middleware.js],
      [src/utils/tokenBlacklist.js],
      [src/routes/auth.routes.js]        [authenticate], [isAdmin], the
                                         blacklist and the logout.

    Conventions of the embedding.

    - A JavaScript [Number] is an exact rational ([Qc]); the rounding of
      IEEE doubles is not modelled, and no statement rests on an
      identity that rounding breaks (such as [b - a + a = b]).
    - The [amount] of a request body is the JSON number or the JSON string
      that the client sent ([Amount]): no route converts it.  The text of
      a Number and the Number of a text ([String(n)], [Number(s)]), by
      which a string acts on a balance, are fields of [Env].
    - A Mongoose document is a record held in the local variables of the
      running handler; [save()] copies it to the collection.  In-place
      mutation of a document survives an exception, so the local
      documents are part of the state threaded by the monad [M].
    - An [async] function is a computation in [M]: state passing over the
      local documents and the [World], with exceptions ([Throw]).  A
      rejected promise is a [Throw]; state changes made before it stay.
    - Collaborators outside the process (key files, the central bank, the
      key directory, the clock and the UUID generator) are fields of
      [Env]; the failure of a database write is scheduled by [faults]. *)

From Stdlib Require Import QArith Qcanon Ascii.
From stdpp Require Import base numbers strings list gmap.

Local Open Scope string_scope.
Local Open Scope Qc_scope.

(** ** Data model *)

(** [enum: ['EUR', 'USD', 'GBP']] of both schemas. *)
Inductive Currency := EUR | USD | GBP.

#[global] Instance Currency_eq_dec : EqDecision Currency.
Proof. solve_decision. Defined.

Definition currency_code (c : Currency) : string :=
  match c with EUR => "EUR" | USD => "USD" | GBP => "GBP" end.

Definition currency_enum : list string := ["EUR"; "USD"; "GBP"].

(** [enum: ['PENDING', 'IN_PROGRESS', 'COMPLETED', 'FAILED']]. *)
Inductive Status := PENDING | IN_PROGRESS | COMPLETED | FAILED.

#[global] Instance Status_eq_dec : EqDecision Status.
Proof. solve_decision. Defined.

(** The value of [amount] in a request body.  JSON carries a number or a
    string, and the routes leave the value as it came: the validators of
    [/internal] and [/external] test its text ([isFloat]) without a
    sanitizer ([toFloat]), and [/incoming] has no validator.  The other
    JSON values (booleans, [null], arrays, objects) are left out. *)
Inductive Amount :=
| JNumber (n : Qc)
| JString (s : string).

(** [accountSchema]: the in-memory document.  [accountType], [description]
    and the timestamps play no part in settlement and are left out. *)
Module Account.
Record t := mk {
    accountNumber : string;
    user : string;
    currency : Currency;
    balance : Qc;
    isActive : bool;
  }.

Definition set_balance (b : Qc) (a : t) : t :=
    mk (accountNumber a) (user a) (currency a) b (isActive a).

Definition set_isActive (f : bool) (a : t) : t :=
    mk (accountNumber a) (user a) (currency a) (balance a) f.

  (** The [accounts] collection is keyed by [accountNumber] ([unique],
      [immutable]); a stored row holds the other paths. *)
Record row := mkRow {
    row_user : string;
    row_currency : Currency;
    row_balance : Qc;
    row_isActive : bool;
  }.

Definition set_row_balance (b : Qc) (r : row) : row :=
    mkRow (row_user r) (row_currency r) b (row_isActive r).

Definition set_row_isActive (f : bool) (r : row) : row :=
    mkRow (row_user r) (row_currency r) (row_balance r) f.

Definition load (k : string) (r : row) : t :=
    mk k (row_user r) (row_currency r) (row_balance r) (row_isActive r).
End Account.
Abbreviation Account := Account.t.

(** The canonical payload that is signed and sent to the central bank;
    [amount] is the value of the request body. *)
Module Payload.
Record t := mk {
    transactionId : string;
    fromBank : string;
    fromAccount : string;
    toBank : string;
    toAccount : string;
    amount : Amount;
    currency : string;
    description : string;
    timestamp : string;
  }.

Definition set_amount (x : Amount) (p : t) : t :=
    mk (transactionId p) (fromBank p) (fromAccount p) (toBank p)
       (toAccount p) x (currency p) (description p) (timestamp p).
End Payload.
Abbreviation Payload := Payload.t.

(** *** The [jsonwebtoken] library, symbolically

    Key material is one half of an RSA pair named by [kid], or text that
    is no key.  A token is a payload signed by the private half of [kid],
    or text that is no token. *)
Inductive Pem :=
| RsaPrivate (kid : string)
| RsaPublic (kid : string)
| InvalidPem (raw : string).

Inductive Jws :=
| Signed (claims : Payload) (kid : string)
| Malformed (raw : string).

(** [jwt.sign(payload, privateKey, { algorithm: 'RS256' })]; [None] is a
    thrown error. *)
Definition jwt_sign (payload : Payload) (privateKey : Pem) : option Jws :=
  match privateKey with
  | RsaPrivate kid => Some (Signed payload kid)
  | _ => None
  end.

(** [jwt.verify(token, publicKey, { algorithms: ['RS256'] })] returns the
    decoded claims; [None] is a thrown error.  Node derives the public
    half when it is handed a private key. *)
Definition jwt_verify (token : Jws) (publicKey : Pem) : option Payload :=
  match token, publicKey with
  | Signed claims kid, RsaPublic kid' =>
      if bool_decide (kid = kid') then Some claims else None
  | Signed claims kid, RsaPrivate kid' =>
      if bool_decide (kid = kid') then Some claims else None
  | _, _ => None
  end.

(** [transactionSchema]: the in-memory document ([null] is [None]).
    [amount] is the path after Mongoose's cast to [Number]: [None] when
    the value given did not cast, which fails the validation of every
    [save()].  [isNew] is Mongoose's flag of a document that was not
    inserted yet; the timestamps are left out. *)
Module Transaction.
Record t := mk {
    transactionId : string;
    fromAccount : string;
    toAccount : string;
    fromBank : string;
    toBank : string;
    amount : option Qc;
    currency : string;
    description : string;
    status : Status;
    errorCode : option string;
    errorMessage : option string;
    isInternal : bool;
    signature : option Jws;
    initiatedBy : string;
    isNew : bool;
  }.

Definition set_status (s : Status) (c m : option string) (x : t) : t :=
    mk (transactionId x) (fromAccount x) (toAccount x) (fromBank x)
       (toBank x) (amount x) (currency x) (description x) s c m
       (isInternal x) (signature x) (initiatedBy x) (isNew x).

Definition set_signature (sg : Jws) (x : t) : t :=
    mk (transactionId x) (fromAccount x) (toAccount x) (fromBank x)
       (toBank x) (amount x) (currency x) (description x) (status x)
       (errorCode x) (errorMessage x) (isInternal x) (Some sg)
       (initiatedBy x) (isNew x).

Definition set_isNew (f : bool) (x : t) : t :=
    mk (transactionId x) (fromAccount x) (toAccount x) (fromBank x)
       (toBank x) (amount x) (currency x) (description x) (status x)
       (errorCode x) (errorMessage x) (isInternal x) (signature x)
       (initiatedBy x) f.
End Transaction.
Abbreviation Transaction := Transaction.t.

(** ** The world *)

(** Thrown values. *)
Inductive Error :=
| Error_ (message : string)          (* new Error(message) *)
| TypeError                          (* property read on undefined *)
| FetchError                         (* fetch() rejected, or response.json()
                                        of node-fetch on a non-JSON body *)
| JsonWebTokenError                  (* jwt.sign / jwt.verify threw *)
| ValidationError (path : string)    (* Mongoose schema validation *)
| DuplicateKeyError                  (* E11000 on a unique index *)
| DocumentNotFoundError              (* update matched no document *)
| CastError                          (* a value that is no ObjectId *)
| MongoNetworkError.                 (* the write did not reach the store *)

Inductive Res (A : Type) :=
| Ok (a : A)
| Throw (e : Error).
Arguments Ok {A} a.
Arguments Throw {A} e.

(** Effects that leave the process, in the order they happen. *)
Inductive Event :=
| EvSaveAccount (accountNumber : string) (balance : Qc)
| EvSaveTransaction (transactionId : string) (status : Status)
| EvReadPrivateKey
| EvKeyLookup (bank : string)
| EvDispatch (transactionId : string).

Record World := mkWorld {
  accounts : gmap string Account.row;
  transactions : gmap string Transaction;
  (** outcome of the coming database writes: [true] fails the write;
      past the end of the list every write succeeds *)
  faults : list bool;
  log : list Event;
}.

Definition set_accounts (m : gmap string Account.row) (w : World) : World :=
  mkWorld m (transactions w) (faults w) (log w).
Definition set_transactions (m : gmap string Transaction) (w : World) : World :=
  mkWorld (accounts w) m (faults w) (log w).
Definition set_faults (fs : list bool) (w : World) : World :=
  mkWorld (accounts w) (transactions w) fs (log w).
Definition emit (e : Event) (w : World) : World :=
  mkWorld (accounts w) (transactions w) (faults w) (log w ++ [e]).

(** ** The monad of handlers and methods

    [L] is the type of the local documents in scope. *)
Definition M (L A : Type) : Type := L * World → (L * World) * Res A.

Section Monad.
Context {L : Type}.

Definition ret {A} (a : A) : M L A := λ s, (s, Ok a).

Definition bind {A B} (m : M L A) (k : A → M L B) : M L B := λ s,
    match m s with
    | (s', Ok a) => k a s'
    | (s', Throw e) => (s', Throw e)
    end.

Definition throw {A} (e : Error) : M L A := λ s, (s, Throw e).

  (** [try { m } catch (error) { h error }] *)
Definition try_catch {A} (m : M L A) (h : Error → M L A) : M L A := λ s,
    match m s with
    | (s', Ok a) => (s', Ok a)
    | (s', Throw e) => h e s'
    end.

Definition locals : M L L := λ s, (s, Ok (fst s)).
Definition assign (f : L → L) : M L unit := λ s, ((f (fst s), snd s), Ok ()).
Definition world : M L World := λ s, (s, Ok (snd s)).
Definition effect (f : World → World) : M L unit := λ s,
    ((fst s, f (snd s)), Ok ()).

  (** A database write: the head of [faults] decides whether it lands. *)
Definition db_write (write : World → Res World) : M L unit := λ s,
    let '(l, w) := s in
    match faults w with
    | true :: fs => ((l, set_faults fs w), Throw MongoNetworkError)
    | false :: fs =>
        match write (set_faults fs w) with
        | Ok w' => ((l, w'), Ok ())
        | Throw e => ((l, set_faults fs w), Throw e)
        end
    | [] =>
        match write w with
        | Ok w' => ((l, w'), Ok ())
        | Throw e => ((l, w), Throw e)
        end
    end.
End Monad.

#[global] Instance M_ret {L} : MRet (M L) := @ret L.
#[global] Instance M_bind {L} : MBind (M L) := λ A B k m, bind m k.

(** Run a method of one local document [D] inside a frame [L]. *)
Definition on {L D A} (get : L → D) (set : D → L → L) (m : M D A) : M L A :=
  λ s,
    match m (get (fst s), snd s) with
    | ((d, w), r) => ((set d (fst s), w), r)
    end.

(** Run [m] with fresh local documents [l0]; they go out of scope after. *)
Definition scope {L L' A} (l0 : L') (m : M L' A) : M L A := λ s,
  match m (l0, snd s) with
  | ((_, w), r) => ((fst s, w), r)
  end.

(** ** The ledger: [account.model.js] *)

(** [Account.findOne({ accountNumber })] *)
Definition Account_findOne {L} (accountNumber : string) : M L (option Account) :=
  w ← world; mret (Account.load accountNumber <$> accounts w !! accountNumber).

(** [this.save()] of an account loaded from the collection.  The schema
    validators run first ([min: [0, 'Balance cannot be negative']]); the
    update then sets the modified path, [balance]. *)
Definition Account_save : M Account unit :=
  this ← locals;
  if bool_decide (Account.balance this < 0) then throw (ValidationError "balance")
  else
    db_write (λ w,
      match accounts w !! Account.accountNumber this with
      | None => Throw DocumentNotFoundError
      | Some _ =>
          Ok (emit (EvSaveAccount (Account.accountNumber this) (Account.balance this))
                (set_accounts
                   (alter (Account.set_row_balance (Account.balance this))
                      (Account.accountNumber this) (accounts w)) w))
      end).

Definition hasSufficientFunds (this : Account) (amount : Qc) : bool :=
  bool_decide (amount ≤ Account.balance this).

Definition credit (amount : Qc) : M Account unit :=
  if bool_decide (amount ≤ 0) then throw (Error_ "Credit amount must be positive")
  else
    assign (λ this, Account.set_balance (Account.balance this + amount) this);;
    Account_save.

Definition debit (amount : Qc) : M Account unit :=
  if bool_decide (amount ≤ 0) then throw (Error_ "Debit amount must be positive")
  else
    this ← locals;
    if negb (hasSufficientFunds this amount) then throw (Error_ "Insufficient funds")
    else
      assign (λ this, Account.set_balance (Account.balance this - amount) this);;
      Account_save.

(** ** The transaction record: [transaction.model.js] *)

Definition min_amount : Qc := Qc_of_Z 1 / Qc_of_Z 100.
Definition max_amount : Qc := Qc_of_Z 1000000.

(** [min]/[max] on [amount]; a value that did not cast fails with the
    [CastError] that the constructor recorded. *)
Definition amount_in_range (amount : option Qc) : bool :=
  match amount with
  | Some amount => bool_decide (min_amount ≤ amount) && bool_decide (amount ≤ max_amount)
  | None => false
  end.

(** The schema validators run by [save()]: [required] (a string path must
    be non-empty), the cast and [min]/[max] on [amount], [enum] on
    [currency].  The result is the first failing path.  [initiatedBy] is
    always given by the handlers, [status] always lies in its [enum]. *)
Definition Transaction_validate (this : Transaction) : option string :=
  if bool_decide (Transaction.transactionId this = "") then Some "transactionId"
  else if bool_decide (Transaction.fromAccount this = "") then Some "fromAccount"
  else if bool_decide (Transaction.toAccount this = "") then Some "toAccount"
  else if bool_decide (Transaction.fromBank this = "") then Some "fromBank"
  else if bool_decide (Transaction.toBank this = "") then Some "toBank"
  else if negb (amount_in_range (Transaction.amount this)) then Some "amount"
  else if bool_decide (Transaction.currency this ∈ currency_enum) then None
  else Some "currency".

(** [Transaction.findOne({ transactionId })] *)
Definition Transaction_findOne {L} (transactionId : string) : M L (option Transaction) :=
  w ← world; mret (transactions w !! transactionId).

(** [this.save()]: validate, then insert a new document (the unique index
    on [transactionId] refuses a duplicate) or update a stored one. *)
Definition Transaction_save : M Transaction unit :=
  this ← locals;
  match Transaction_validate this with
  | Some path => throw (ValidationError path)
  | None =>
      let id := Transaction.transactionId this in
      let stored := Transaction.set_isNew false this in
      db_write (λ w,
        match Transaction.isNew this, transactions w !! id with
        | true, Some _ => Throw DuplicateKeyError
        | false, None => Throw DocumentNotFoundError
        | _, _ =>
            Ok (emit (EvSaveTransaction id (Transaction.status this))
                  (set_transactions (<[id := stored]> (transactions w)) w))
        end);;
      assign (Transaction.set_isNew false)
  end.

Definition updateStatus (status : Status) (errorCode errorMessage : option string)
  : M Transaction unit :=
  assign (Transaction.set_status status errorCode errorMessage);;
  Transaction_save.

Definition markCompleted : M Transaction unit := updateStatus COMPLETED None None.

Definition markFailed (errorCode errorMessage : option string) : M Transaction unit :=
  updateStatus FAILED errorCode errorMessage.

Definition markInProgress : M Transaction unit := updateStatus IN_PROGRESS None None.

(** ** The environment of the process *)

(** Answer of [GET {CENTRAL_BANK_URL}/api/v1/banks/{bank}/publicKey]. *)
Inductive KeyLookup :=
| LookupUnreachable                  (* fetch() rejected *)
| LookupNotOk (status : nat)         (* !response.ok *)
| LookupNotJson                      (* response.json() rejected *)
| LookupNoKey                        (* a body without publicKey *)
| LookupKey (publicKey : Pem).

(** Body of a non-success answer of the central bank. *)
Inductive RejectionBody :=
| RejectNotJson                              (* response.json() rejected *)
| RejectNoError                              (* errorData.error is undefined *)
| RejectError (code message : option string). (* errorData.error.{code,message} *)

(** Answer of [POST {CENTRAL_BANK_URL}/api/v1/transactions]. *)
Inductive RelayResponse :=
| RelayUnreachable                                   (* fetch() rejected *)
| RelayRejected (status : nat) (body : RejectionBody) (* !response.ok *)
| RelayAccepted (body : option string).              (* response.ok; [None]: not JSON *)

Record Env := mkEnv {
  BANK_PREFIX : string;
  CENTRAL_BANK_URL : option string;
  (** contents of the files at [PRIVATE_KEY_PATH] and [PUBLIC_KEY_PATH];
      [None] when [fs.existsSync] is false *)
  private_key_file : option Pem;
  public_key_file : option Pem;
  key_directory : string → KeyLookup;
  central_bank : Payload → Jws → RelayResponse;
  (** the identifier [uuidv4()] draws and the reading of the clock *)
  uuidv4 : string;
  now : string;
  (** the conversions of the JavaScript engine: [Number(s)] of a string,
      [None] when it is [NaN], and [String(n)] of a Number *)
  Number_of_string : string → option Qc;
  String_of_Number : Qc → string;
}.

(** ** The values of a request in the ledger and in a record

    [ToNumber] is the conversion that [<=], [>=] and [-=] apply to their
    operands. *)
Definition ToNumber (env : Env) (amount : Amount) : option Qc :=
  match amount with
  | JNumber n => Some n
  | JString s => Number_of_string env s
  end.

(** Mongoose's cast of a string to a [Number] path: the empty string is
    [null], another text is [Number(text)], and [NaN] is a [CastError].
    [None] stands for both failures: the path is [required]. *)
Definition castNumber (env : Env) (text : string) : option Qc :=
  if bool_decide (text = "") then None else Number_of_string env text.

(** The cast of the value given for [amount] to [new Transaction]. *)
Definition cast_amount (env : Env) (amount : Amount) : option Qc :=
  match amount with
  | JNumber n => Some n
  | JString s => castNumber env s
  end.

(** The regular expression of [isFloat] in validator.js: an optional
    sign, digits or none, optionally a point followed by digits or none,
    optionally an exponent made of [e] or [E], an optional sign and at
    least one digit. *)
Definition is_digit (c : ascii) : bool :=
  bool_decide (c ∈ String.list_ascii_of_string "0123456789").

Definition is_sign (c : ascii) : bool :=
  bool_decide (c = "+"%char) || bool_decide (c = "-"%char).

Fixpoint skip_digits (s : string) : string :=
  match s with
  | String c rest => if is_digit c then skip_digits rest else s
  | EmptyString => s
  end.

Definition skip_sign (s : string) : string :=
  match s with
  | String c rest => if is_sign c then rest else s
  | EmptyString => s
  end.

Definition skip_fraction (s : string) : string :=
  match s with
  | String c rest => if bool_decide (c = "."%char) then skip_digits rest else s
  | EmptyString => s
  end.

Definition float_syntax (s : string) : bool :=
  match skip_fraction (skip_digits (skip_sign s)) with
  | EmptyString => true
  | String c rest =>
      (bool_decide (c = "e"%char) || bool_decide (c = "E"%char))
      && negb (bool_decide (skip_sign rest = ""))
      && bool_decide (skip_digits (skip_sign rest) = "")
  end.

(** [body('amount').isFloat({ min, max })]: express-validator tests the
    text of the value.  The text of a JSON number has the syntax of a
    float and reads as that number.  A string must have the syntax, must
    not be one of the four texts that the validator refuses, and
    [parseFloat], which on such a text is [Number], must lie in the
    range; [NaN] lies in no range. *)
Definition isFloat (env : Env) (min max : Qc) (amount : Amount) : bool :=
  match amount with
  | JNumber n => bool_decide (min ≤ n) && bool_decide (n ≤ max)
  | JString s =>
      float_syntax s
      && negb (bool_decide (s ∈ [""; "."; "-"; "+"]))
      && match Number_of_string env s with
         | Some n => bool_decide (min ≤ n) && bool_decide (n ≤ max)
         | None => false
         end
  end.

(** The methods of an account as the handlers call them, on the value of
    the request.  With a JSON number they are the methods above.  With a
    string, [amount <= 0], [this.balance >= amount] and
    [this.balance -= amount] convert the string to its Number, and a
    comparison with [NaN] is false; [this.balance += amount] appends the
    string to the text of the balance, and the assignment to the path
    casts the result back to a Number: a text that does not cast leaves
    the path as it was and fails [save()]. *)
Definition hasSufficientFunds_value (env : Env) (this : Account) (amount : Amount) : bool :=
  match ToNumber env amount with
  | Some n => hasSufficientFunds this n
  | None => false
  end.

Definition debit_value (env : Env) (amount : Amount) : M Account unit :=
  match ToNumber env amount with
  | Some n => debit n
  | None => throw (Error_ "Insufficient funds")
  end.

Definition credit_value (env : Env) (amount : Amount) : M Account unit :=
  match amount with
  | JNumber n => credit n
  | JString s =>
      if match Number_of_string env s with
         | Some n => bool_decide (n ≤ 0)
         | None => false
         end
      then throw (Error_ "Credit amount must be positive")
      else
        this ← locals;
        match castNumber env (String_of_Number env (Account.balance this) +:+ s) with
        | Some balance => assign (Account.set_balance balance);; Account_save
        | None => throw (ValidationError "balance")
        end
  end.

(** ** Signing and verification: [transaction.routes.js] *)

Definition signTransaction {L} (env : Env) (payload : Payload) : M L Jws :=
  try_catch
    (match private_key_file env with
     | None => throw (Error_ "Private key not found")
     | Some privateKey =>
         effect (emit EvReadPrivateKey);;
         match jwt_sign payload privateKey with
         | Some token => mret token
         | None => throw JsonWebTokenError
         end
     end)
    (λ error, throw error).

(** The decoded claims that [jwt.verify] returns are dropped, and
    [payload] is not read. *)
Definition verifySignature {L} (env : Env) (payload : Payload) (signature : Jws)
    (fromBank : string) : M L bool :=
  try_catch
    (if bool_decide (fromBank = BANK_PREFIX env) then
       match public_key_file env with
       | None => throw (Error_ "Public key not found")
       | Some publicKey =>
           match jwt_verify signature publicKey with
           | Some _ => mret true
           | None => throw JsonWebTokenError
           end
       end
     else
       match CENTRAL_BANK_URL env with
       | None => throw TypeError
       | Some _ =>
           effect (emit (EvKeyLookup fromBank));;
           match key_directory env fromBank with
           | LookupUnreachable => throw FetchError
           | LookupNotOk _ =>
               throw (Error_ ("Failed to fetch public key for bank " +:+ fromBank))
           | LookupNotJson => throw FetchError
           | LookupNoKey => throw JsonWebTokenError
           | LookupKey publicKey =>
               match jwt_verify signature publicKey with
               | Some _ => mret true
               | None => throw JsonWebTokenError
               end
           end
       end)
    (λ _, mret false).

(** ** HTTP responses *)

Inductive Response :=
(** [res.status(status).json({ error: { code, message, transactionId } })] *)
| RError (status : nat) (code : string) (transactionId : option string)
(** the central bank's error passed on *)
| RRelayError (status : nat) (code message : option string) (transactionId : string)
(** 201 of [/internal] *)
| RInternalCompleted (transaction : Transaction)
(** 201 of [/external] *)
| RExternalInitiated (transaction : Transaction) (centralBankResponse : string)
(** 200 of [/incoming], the transaction was stored before *)
| RAlreadyProcessed (transactionId : string) (status : Status)
(** 200 of [/incoming], [status: 'COMPLETED'] *)
| RProcessed (transactionId : string)
(** [next(error)]: the error middleware of [index.js] answers *)
| RNext (error : Error).

(** ** The settlement handlers: [transaction.routes.js] *)

(** [new Transaction({ ... })] with the cast of [amount] and the schema
    defaults. *)
Definition new_Transaction (env : Env)
    (transactionId fromAccount toAccount fromBank toBank : string)
    (amount : Amount) (currency description : string) (isInternal : bool)
    (signature : option Jws) (initiatedBy : string) : Transaction :=
  Transaction.mk transactionId fromAccount toAccount fromBank toBank
    (cast_amount env amount) currency description PENDING None None isInternal
    signature initiatedBy true.

(** What the client of a handler sees: the response and the world left
    behind. *)
Definition respond (handler : M unit Response) (w : World) : World * Response :=
  match handler ((), w) with
  | ((_, w'), Ok r) => (w', r)
  | ((_, w'), Throw e) => (w', RNext e)
  end.

(** *** [POST /internal] *)
Module Internal.

(** [req.body]; [description] already defaulted and trimmed.  The
    validators test [amount] and leave it as it came. *)
Record Request := mkRequest {
  fromAccount : string;
  toAccount : string;
  amount : Amount;
  description : string;
}.

(** [notEmpty()] on both account numbers,
    [isFloat({ min: 0.01, max: 1000000 })] on the amount. *)
Definition valid (env : Env) (body : Request) : bool :=
  bool_decide (fromAccount body ≠ "") && bool_decide (toAccount body ≠ "")
  && isFloat env min_amount max_amount (amount body).

Record Locals := mkLocals {
  senderAccount : Account;
  recipientAccount : Account;
  transaction : Transaction;
}.

Definition set_senderAccount (a : Account) (l : Locals) : Locals :=
  mkLocals a (recipientAccount l) (transaction l).
Definition set_recipientAccount (a : Account) (l : Locals) : Locals :=
  mkLocals (senderAccount l) a (transaction l).
Definition set_transaction (t : Transaction) (l : Locals) : Locals :=
  mkLocals (senderAccount l) (recipientAccount l) t.

Definition handler (env : Env) (user : string) (body : Request) : M unit Response :=
  try_catch
    (if negb (valid env body) then mret (RError 400 "VALIDATION_ERROR" None)
     else
       sender ← Account_findOne (fromAccount body);
       match sender with
       | None => mret (RError 404 "ACCOUNT_NOT_FOUND" None)
       | Some sender =>
       if bool_decide (Account.user sender ≠ user)
       then mret (RError 403 "FORBIDDEN" None)
       else
       recipient ← Account_findOne (toAccount body);
       match recipient with
       | None => mret (RError 404 "ACCOUNT_NOT_FOUND" None)
       | Some recipient =>
       if bool_decide (Account.currency sender ≠ Account.currency recipient)
       then mret (RError 400 "CURRENCY_MISMATCH" None)
       else if negb (hasSufficientFunds_value env sender (amount body))
       then mret (RError 400 "INSUFFICIENT_FUNDS" None)
       else
         scope
           (mkLocals sender recipient
              (new_Transaction env (uuidv4 env)
                 (Account.accountNumber sender) (Account.accountNumber recipient)
                 (BANK_PREFIX env) (BANK_PREFIX env) (amount body)
                 (currency_code (Account.currency sender)) (description body)
                 true None user))
           (on senderAccount set_senderAccount (debit_value env (amount body));;
            on recipientAccount set_recipientAccount (credit_value env (amount body));;
            on transaction set_transaction markCompleted;;
            l ← locals;
            mret (RInternalCompleted (transaction l)))
       end
       end)
    (λ error, mret (RNext error)).

Definition post (env : Env) (user : string) (body : Request) : World → World * Response :=
  respond (handler env user body).

End Internal.

(** *** [POST /external] *)
Module External.

Record Request := mkRequest {
  fromAccount : string;
  toAccount : string;
  toBank : string;
  amount : Amount;
  currency : string;
  description : string;
}.

(** [notEmpty()] on the account numbers and the bank,
    [isFloat({ min: 0.01, max: 1000000 })] on the amount,
    [isIn(['EUR', 'USD', 'GBP'])] on the currency. *)
Definition valid (env : Env) (body : Request) : bool :=
  bool_decide (fromAccount body ≠ "") && bool_decide (toAccount body ≠ "")
  && bool_decide (toBank body ≠ "")
  && isFloat env min_amount max_amount (amount body)
  && bool_decide (currency body ∈ currency_enum).

Record Locals := mkLocals {
  senderAccount : Account;
  transaction : Transaction;
}.

Definition set_senderAccount (a : Account) (l : Locals) : Locals :=
  mkLocals a (transaction l).
Definition set_transaction (t : Transaction) (l : Locals) : Locals :=
  mkLocals (senderAccount l) t.

(** The inner [try { ... } catch (error) { ... }] around the call of the
    central bank. *)
Definition dispatch (env : Env) (amount : Amount) (transactionPayload : Payload)
    (signature : Jws) : M Locals Response :=
  try_catch
    (match CENTRAL_BANK_URL env with
     | None => throw TypeError
     | Some _ =>
         effect (emit (EvDispatch (Payload.transactionId transactionPayload)));;
         match central_bank env transactionPayload signature with
         | RelayUnreachable => throw FetchError
         | RelayRejected status RejectNotJson => throw FetchError
         | RelayRejected status RejectNoError =>
             on senderAccount set_senderAccount (credit_value env amount);;
             throw TypeError
         | RelayRejected status (RejectError code message) =>
             on senderAccount set_senderAccount (credit_value env amount);;
             on transaction set_transaction (markFailed code message);;
             l ← locals;
             mret (RRelayError status code message
                     (Transaction.transactionId (transaction l)))
         | RelayAccepted None => throw FetchError
         | RelayAccepted (Some responseData) =>
             l ← locals;
             mret (RExternalInitiated (transaction l) responseData)
         end
     end)
    (λ error,
       on senderAccount set_senderAccount (credit_value env amount);;
       on transaction set_transaction
         (markFailed (Some "CENTRAL_BANK_ERROR")
            (Some "Failed to communicate with central bank"));;
       throw error).

Definition handler (env : Env) (user : string) (body : Request) : M unit Response :=
  try_catch
    (if negb (valid env body) then mret (RError 400 "VALIDATION_ERROR" None)
     else if bool_decide (toBank body = BANK_PREFIX env)
     then mret (RError 400 "INVALID_DESTINATION" None)
     else
       sender ← Account_findOne (fromAccount body);
       match sender with
       | None => mret (RError 404 "ACCOUNT_NOT_FOUND" None)
       | Some sender =>
       if bool_decide (Account.user sender ≠ user)
       then mret (RError 403 "FORBIDDEN" None)
       else if bool_decide (currency_code (Account.currency sender) ≠ currency body)
       then mret (RError 400 "CURRENCY_MISMATCH" None)
       else if negb (hasSufficientFunds_value env sender (amount body))
       then mret (RError 400 "INSUFFICIENT_FUNDS" None)
       else
         scope
           (mkLocals sender
              (new_Transaction env (uuidv4 env)
                 (Account.accountNumber sender) (toAccount body)
                 (BANK_PREFIX env) (toBank body) (amount body)
                 (currency body) (description body) false None user))
           (on transaction set_transaction Transaction_save;;
            l ← locals;
            let transactionPayload :=
              Payload.mk (Transaction.transactionId (transaction l))
                (BANK_PREFIX env) (Account.accountNumber (senderAccount l))
                (toBank body) (toAccount body) (amount body) (currency body)
                (description body) (now env) in
            signature ← signTransaction env transactionPayload;
            assign (λ l, set_transaction
                           (Transaction.set_signature signature (transaction l)) l);;
            on transaction set_transaction markInProgress;;
            on senderAccount set_senderAccount (debit_value env (amount body));;
            dispatch env (amount body) transactionPayload signature)
       end)
    (λ error, mret (RNext error)).

Definition post (env : Env) (user : string) (body : Request) : World → World * Response :=
  respond (handler env user body).

End External.

(** *** [POST /incoming] *)
Module Incoming.

(** [req.body]; [description] already defaulted to the empty string.
    The route has no validator: [amount] is the value that was sent. *)
Record Request := mkRequest {
  transactionId : string;
  fromBank : string;
  fromAccount : string;
  toBank : string;
  toAccount : string;
  amount : Amount;
  currency : string;
  description : string;
  timestamp : string;
  signature : Jws;
}.

Record Locals := mkLocals {
  recipientAccount : Account;
  transaction : Transaction;
}.

Definition set_recipientAccount (a : Account) (l : Locals) : Locals :=
  mkLocals a (transaction l).
Definition set_transaction (t : Transaction) (l : Locals) : Locals :=
  mkLocals (recipientAccount l) t.

Definition payloadToVerify (body : Request) : Payload :=
  Payload.mk (transactionId body) (fromBank body) (fromAccount body) (toBank body)
    (toAccount body) (amount body) (currency body) (description body)
    (timestamp body).

Definition handler (env : Env) (body : Request) : M unit Response :=
  try_catch
    (if bool_decide (toBank body ≠ BANK_PREFIX env)
     then mret (RError 400 "INVALID_DESTINATION" (Some (transactionId body)))
     else
       existingTransaction ← Transaction_findOne (transactionId body);
       match existingTransaction with
       | Some existingTransaction =>
           mret (RAlreadyProcessed (transactionId body)
                   (Transaction.status existingTransaction))
       | None =>
       isSignatureValid ←
         verifySignature env (payloadToVerify body) (signature body) (fromBank body);
       if negb isSignatureValid
       then mret (RError 400 "INVALID_SIGNATURE" (Some (transactionId body)))
       else
       recipient ← Account_findOne (toAccount body);
       match recipient with
       | None => mret (RError 404 "ACCOUNT_NOT_FOUND" (Some (transactionId body)))
       | Some recipient =>
       if bool_decide (currency_code (Account.currency recipient) ≠ currency body)
       then mret (RError 400 "CURRENCY_MISMATCH" (Some (transactionId body)))
       else
         scope
           (mkLocals recipient
              (new_Transaction env (transactionId body) (fromAccount body)
                 (toAccount body) (fromBank body) (toBank body) (amount body)
                 (currency body) (description body) false (Some (signature body))
                 (Account.user recipient)))
           (on recipientAccount set_recipientAccount (credit_value env (amount body));;
            on transaction set_transaction markCompleted;;
            mret (RProcessed (transactionId body)))
       end
       end)
    (λ error,
       mret (RError 500 "TRANSACTION_PROCESSING_ERROR" (Some (transactionId body)))).

Definition post (env : Env) (body : Request) : World → World * Response :=
  respond (handler env body).

End Incoming.

(** ** Decidable equality of the model's data *)

#[global] Instance Amount_eq_dec : EqDecision Amount.
Proof. solve_decision. Defined.
#[global] Instance Account_eq_dec : EqDecision Account.
Proof. solve_decision. Defined.
#[global] Instance Account_row_eq_dec : EqDecision Account.row.
Proof. solve_decision. Defined.
#[global] Instance Payload_eq_dec : EqDecision Payload.
Proof. solve_decision. Defined.
#[global] Instance Pem_eq_dec : EqDecision Pem.
Proof. solve_decision. Defined.
#[global] Instance Jws_eq_dec : EqDecision Jws.
Proof. solve_decision. Defined.
#[global] Instance Transaction_eq_dec : EqDecision Transaction.
Proof. solve_decision. Defined.
#[global] Instance Error_eq_dec : EqDecision Error.
Proof. solve_decision. Defined.
#[global] Instance Event_eq_dec : EqDecision Event.
Proof. solve_decision. Defined.
#[global] Instance Response_eq_dec : EqDecision Response.
Proof. solve_decision. Defined.
#[global] Instance Res_eq_dec {A} `{EqDecision A} : EqDecision (Res A).
Proof. solve_decision. Defined.

(** ** Vocabulary of the statements *)

(** The persisted balance of an account and the persisted status of a
    transaction. *)
Definition balance_of (accountNumber : string) (w : World) : option Qc :=
  Account.row_balance <$> accounts w !! accountNumber.

Definition status_of (transactionId : string) (w : World) : option Status :=
  Transaction.status <$> transactions w !! transactionId.

(** Every persisted balance is non-negative. *)
Definition nonneg_store (w : World) : Prop :=
  ∀ k r, accounts w !! k = Some r → 0 ≤ Account.row_balance r.

(** The two mutating operations of the ledger, and a caller that loads an
    account and runs one of them on it. *)
Inductive LedgerOp := Debit | Credit.

Definition ledger (op : LedgerOp) : Qc → M Account unit :=
  match op with Debit => debit | Credit => credit end.

Definition ledger_call (w : World) (c : string * LedgerOp * Qc) : World :=
  match accounts w !! c.1.1 with
  | None => w
  | Some r => (ledger c.1.2 c.2 (Account.load c.1.1 r, w)).1.2
  end.

Definition ledger_calls (cs : list (string * LedgerOp * Qc)) (w : World) : World :=
  foldl ledger_call w cs.

(** The world with the [isActive] flag of every account set by [g]. *)
Definition with_flags (g : string → bool) (w : World) : World :=
  set_accounts
    (map_imap (λ k r, Some (Account.set_row_isActive (g k) r)) (accounts w)) w.

(** Two account documents that differ at most in [isActive]; two results
    related on their values; and a pair of computations that, started on
    related documents in a world and in the same world with other flags,
    end on related documents, in worlds that differ by the same flags,
    with related results. *)
Definition flag_eq (a1 a2 : Account) : Prop :=
  Account.set_isActive true a1 = Account.set_isActive true a2.

Definition Res_rel {A} (RA : A → A → Prop) (r1 r2 : Res A) : Prop :=
  match r1, r2 with
  | Ok a1, Ok a2 => RA a1 a2
  | Throw e1, Throw e2 => e1 = e2
  | _, _ => False
  end.

Definition oblivious {L A} (g : string → bool) (RL : L → L → Prop) (RA : A → A → Prop)
    (m1 m2 : M L A) : Prop :=
  ∀ l1 l2 w, RL l1 l2 →
    RL (m1 (l1, w)).1.1 (m2 (l2, with_flags g w)).1.1
    ∧ (m2 (l2, with_flags g w)).1.2 = with_flags g (m1 (l1, w)).1.2
    ∧ Res_rel RA (m1 (l1, w)).2 (m2 (l2, with_flags g w)).2.

Definition Internal_flag_eq (l1 l2 : Internal.Locals) : Prop :=
  flag_eq (Internal.senderAccount l1) (Internal.senderAccount l2)
  ∧ flag_eq (Internal.recipientAccount l1) (Internal.recipientAccount l2)
  ∧ Internal.transaction l1 = Internal.transaction l2.

Definition External_flag_eq (l1 l2 : External.Locals) : Prop :=
  flag_eq (External.senderAccount l1) (External.senderAccount l2)
  ∧ External.transaction l1 = External.transaction l2.

Definition Incoming_flag_eq (l1 l2 : Incoming.Locals) : Prop :=
  flag_eq (Incoming.recipientAccount l1) (Incoming.recipientAccount l2)
  ∧ Incoming.transaction l1 = Incoming.transaction l2.

(** An internal transfer request that passes every check of
    [POST /internal] in world [w], where [s] and [r] are the stored rows of
    the sender and of the recipient, the recipient's balance is not
    negative and the identifier that [uuidv4()] draws is fresh. *)
Record Internal_accepted (env : Env) (user : string) (body : Internal.Request)
    (w : World) (s r : Account.row) : Prop := {
  ia_valid : Internal.valid env body = true;
  ia_sender : accounts w !! Internal.fromAccount body = Some s;
  ia_owner : Account.row_user s = user;
  ia_recipient : accounts w !! Internal.toAccount body = Some r;
  ia_currency : Account.row_currency s = Account.row_currency r;
  ia_funds :
    hasSufficientFunds_value env (Account.load (Internal.fromAccount body) s)
      (Internal.amount body) = true;
  ia_nonneg : 0 ≤ Account.row_balance r;
  ia_fresh : transactions w !! uuidv4 env = None;
  ia_uuid : uuidv4 env ≠ "";
  ia_bank : BANK_PREFIX env ≠ "";
}.

(** The record that [POST /internal] persists for such a request. *)
Definition Internal_completed (env : Env) (user : string) (body : Internal.Request)
    (s : Account.row) : Transaction :=
  Transaction.set_isNew false
    (Transaction.set_status COMPLETED None None
       (new_Transaction env (uuidv4 env) (Internal.fromAccount body)
          (Internal.toAccount body) (BANK_PREFIX env) (BANK_PREFIX env)
          (Internal.amount body) (currency_code (Account.row_currency s))
          (Internal.description body) true None user)).

(** The key that [verifySignature] checks the token against, when it
    finds one. *)
Definition resolved_key (env : Env) (fromBank : string) : option Pem :=
  if bool_decide (fromBank = BANK_PREFIX env) then public_key_file env
  else match CENTRAL_BANK_URL env, key_directory env fromBank with
       | Some _, LookupKey publicKey => Some publicKey
       | _, _ => None
       end.

(** An external transfer request that passes every check of
    [POST /external] in world [w], where [s] is the stored row of the
    sender, the identifier that [uuidv4()] draws is fresh, the private key
    file holds the private half of [kid] and the URL of the central bank
    is configured. *)
Record External_accepted (env : Env) (user : string) (body : External.Request)
    (w : World) (s : Account.row) (kid : string) : Prop := {
  ea_valid : External.valid env body = true;
  ea_destination : External.toBank body ≠ BANK_PREFIX env;
  ea_sender : accounts w !! External.fromAccount body = Some s;
  ea_owner : Account.row_user s = user;
  ea_currency : currency_code (Account.row_currency s) = External.currency body;
  ea_funds :
    hasSufficientFunds_value env (Account.load (External.fromAccount body) s)
      (External.amount body) = true;
  ea_fresh : transactions w !! uuidv4 env = None;
  ea_uuid : uuidv4 env ≠ "";
  ea_bank : BANK_PREFIX env ≠ "";
  ea_key : private_key_file env = Some (RsaPrivate kid);
  ea_url : is_Some (CENTRAL_BANK_URL env);
}.

(** The payload that [POST /external] signs and dispatches, and the
    record it holds once the signature is attached. *)
Definition External_payload (env : Env) (body : External.Request) : Payload :=
  Payload.mk (uuidv4 env) (BANK_PREFIX env) (External.fromAccount body)
    (External.toBank body) (External.toAccount body) (External.amount body)
    (External.currency body) (External.description body) (now env).

Definition External_record (env : Env) (user : string) (body : External.Request)
    (kid : string) (status : Status) (errorCode errorMessage : option string)
  : Transaction :=
  Transaction.set_isNew false
    (Transaction.set_status status errorCode errorMessage
       (Transaction.set_signature (Signed (External_payload env body) kid)
          (new_Transaction env (uuidv4 env) (External.fromAccount body)
             (External.toAccount body) (BANK_PREFIX env) (External.toBank body)
             (External.amount body) (External.currency body)
             (External.description body) false None user))).

(** The outcome of [POST /external] on an accepted request whose amount
    is the JSON number [amount], when every database write lands, in
    closed form: the world left behind and the response, by the answer of
    the central bank. *)
Definition External_outcome (env : Env) (user : string) (body : External.Request)
    (amount : Qc) (s : Account.row) (kid : string) (w : World) : World * Response :=
  let id := uuidv4 env in
  let from := External.fromAccount body in
  let debited := Account.row_balance s - amount in
  let record := External_record env user body kid in
  let world balance status errorCode errorMessage events :=
    mkWorld (alter (Account.set_row_balance balance) from (accounts w))
      (<[id := record status errorCode errorMessage]> (transactions w)) []
      (log w ++
       [EvSaveTransaction id PENDING; EvReadPrivateKey;
        EvSaveTransaction id IN_PROGRESS; EvSaveAccount from debited;
        EvDispatch id] ++ events) in
  let compensated errorCode errorMessage :=
    world (debited + amount) FAILED errorCode errorMessage
      [EvSaveAccount from (debited + amount); EvSaveTransaction id FAILED] in
  let unreachable :=
    compensated (Some "CENTRAL_BANK_ERROR")
      (Some "Failed to communicate with central bank") in
  match central_bank env (External_payload env body)
          (Signed (External_payload env body) kid) with
  | RelayAccepted (Some responseData) =>
      (world debited IN_PROGRESS None None [],
       RExternalInitiated (record IN_PROGRESS None None) responseData)
  | RelayAccepted None => (unreachable, RNext FetchError)
  | RelayUnreachable => (unreachable, RNext FetchError)
  | RelayRejected status RejectNotJson => (unreachable, RNext FetchError)
  | RelayRejected status (RejectError code message) =>
      (compensated code message, RRelayError status code message id)
  | RelayRejected status RejectNoError =>
      (world (debited + amount + amount) FAILED (Some "CENTRAL_BANK_ERROR")
         (Some "Failed to communicate with central bank")
         [EvSaveAccount from (debited + amount);
          EvSaveAccount from (debited + amount + amount);
          EvSaveTransaction id FAILED],
       RNext TypeError)
  end.

(** The record that [POST /incoming] persists for an accepted request
    whose destination account belongs to [user]. *)
Definition Incoming_completed (env : Env) (body : Incoming.Request) (user : string)
  : Transaction :=
  Transaction.set_isNew false
    (Transaction.set_status COMPLETED None None
       (new_Transaction env (Incoming.transactionId body) (Incoming.fromAccount body)
          (Incoming.toAccount body) (Incoming.fromBank body) (Incoming.toBank body)
          (Incoming.amount body) (Incoming.currency body)
          (Incoming.description body) false (Some (Incoming.signature body)) user)).

(** ** A sample deployment, for the examples

    Bank OVE holds one key pair; the key directory knows bank ABC; the
    central bank answers [relay] to every dispatch.  Alice holds 100 EUR,
    Bob holds nothing. *)
(** The conversions of the sample deployment: [Number(s)] on the decimal
    literals (a sign or none, digits, a fraction or none, an exponent or
    none; the empty string reads as 0) and [String(n)] on the Numbers
    that have at most 20 decimals, which is what JavaScript gives on the
    texts and the Numbers of the examples. *)
Fixpoint read_digits (s : string) (acc : Z) (count : nat) : Z * nat * string :=
  match s with
  | String c rest =>
      if is_digit c
      then read_digits rest (10 * acc + (Z.of_nat (nat_of_ascii c) - 48))%Z (S count)
      else (acc, count, s)
  | EmptyString => (acc, count, s)
  end.

Definition starts_with_minus (s : string) : bool :=
  match s with
  | String c _ => bool_decide (c = "-"%char)
  | EmptyString => false
  end.

Definition read_exponent (s : string) : option Z :=
  match s with
  | EmptyString => Some 0%Z
  | String c rest =>
      if bool_decide (c = "e"%char) || bool_decide (c = "E"%char)
      then
        match read_digits (skip_sign rest) 0 0 with
        | (e, O, _) => None
        | (e, S _, EmptyString) => Some (if starts_with_minus rest then - e else e)%Z
        | (e, S _, String _ _) => None
        end
      else None
  end.

Definition power_of_ten (e : Z) : Qc :=
  if (0 <=? e)%Z then Qc_of_Z (10 ^ e) else 1 / Qc_of_Z (10 ^ (- e)).

Definition sample_Number_of_string (s : string) : option Qc :=
  if bool_decide (s = "") then Some 0
  else
    match read_digits (skip_sign s) 0 0 with
    | (int, n1, s1) =>
        match
          match s1 with
          | String c rest =>
              if bool_decide (c = "."%char) then read_digits rest int 0
              else (int, O, s1)
          | EmptyString => (int, O, s1)
          end
        with
        | (mantissa, n2, s2) =>
            if bool_decide (n1 + n2 = 0)%nat then None
            else
              (λ e, (if starts_with_minus s then - Qc_of_Z mantissa
                     else Qc_of_Z mantissa)
                    * power_of_ten (e - Z.of_nat n2))
              <$> read_exponent s2
        end
    end.

Definition digit_char (d : Z) : ascii := ascii_of_nat (48 + Z.to_nat d).

Fixpoint write_digits (fuel : nat) (n : Z) (acc : string) : string :=
  match fuel with
  | O => acc
  | S fuel =>
      if (n / 10 =? 0)%Z then String (digit_char (n mod 10)) acc
      else write_digits fuel (n / 10) (String (digit_char (n mod 10)) acc)
  end.

Fixpoint write_fraction (fuel : nat) (remainder denominator : Z) : string :=
  match fuel with
  | O => ""
  | S fuel =>
      if (remainder =? 0)%Z then ""
      else String (digit_char (10 * remainder / denominator))
             (write_fraction fuel ((10 * remainder) mod denominator) denominator)
  end.

Definition sample_String_of_Number (n : Qc) : string :=
  let numerator := Z.abs (Qnum n) in
  let denominator := Z.pos (Qden n) in
  (if (Qnum n <? 0)%Z then "-" else "")
  +:+ write_digits (S (Z.to_nat (Z.log2 (numerator / denominator))))
        (numerator / denominator) ""
  +:+ (if (numerator mod denominator =? 0)%Z then ""
       else "." +:+ write_fraction 20 (numerator mod denominator) denominator).

Definition sample_env (relay : RelayResponse) : Env :=
  mkEnv "OVE" (Some "https://central.example")
    (Some (RsaPrivate "OVE")) (Some (RsaPublic "OVE"))
    (λ bank, if bool_decide (bank = "ABC") then LookupKey (RsaPublic "ABC")
             else LookupNotOk 404)
    (λ _ _, relay) "3f2b9c1e" "2025-01-01T00:00:00.000Z"
    sample_Number_of_string sample_String_of_Number.

Definition sample_world (faults : list bool) : World :=
  mkWorld
    (<["OVE-10000001" := Account.mkRow "alice" EUR (Qc_of_Z 100) true]>
       (<["OVE-10000002" := Account.mkRow "bob" EUR 0 true]> ∅))
    ∅ faults [].

(** The same bank when Alice and Bob hold 100 EUR each. *)
Definition sample_world_savers : World :=
  mkWorld
    (<["OVE-10000001" := Account.mkRow "alice" EUR (Qc_of_Z 100) true]>
       (<["OVE-10000002" := Account.mkRow "bob" EUR (Qc_of_Z 100) true]> ∅))
    ∅ [] [].

(** A payload of bank OVE: 50 EUR from Alice to an account at bank ABC. *)
Definition sample_payload : Payload :=
  Payload.mk "3f2b9c1e" "OVE" "OVE-10000001" "ABC" "ABC-20000001"
    (JNumber (Qc_of_Z 50)) "EUR" "rent" "2025-01-01T00:00:00.000Z".

(** Alice sends 50 EUR to Bob. *)
Definition sample_internal : Internal.Request :=
  Internal.mkRequest "OVE-10000001" "OVE-10000002" (JNumber (Qc_of_Z 50)) "rent".

(** Alice sends 50 EUR to an account at bank ABC. *)
Definition sample_external : External.Request :=
  External.mkRequest "OVE-10000001" "ABC-20000001" "ABC" (JNumber (Qc_of_Z 50)) "EUR"
    "rent".

(** Bank ABC sends [amount] EUR to Alice, signed with its own key. *)
Definition sample_incoming_payload (amount : Qc) : Payload :=
  Payload.mk "a81d44c0" "ABC" "ABC-20000001" "OVE" "OVE-10000001" (JNumber amount)
    "EUR" "invoice" "2025-01-02T00:00:00.000Z".

Definition sample_incoming (amount : Qc) : Incoming.Request :=
  Incoming.mkRequest "a81d44c0" "ABC" "ABC-20000001" "OVE" "OVE-10000001"
    (JNumber amount) "EUR" "invoice" "2025-01-02T00:00:00.000Z"
    (Signed (sample_incoming_payload amount) "ABC").

(** The world after Alice's external transfer was dispatched. *)
Definition sample_world_dispatched : World :=
  (External.post (sample_env (RelayAccepted (Some "accepted"))) "alice"
     sample_external (sample_world [])).1.

(** ** Vocabulary of the invariants

    A property [R] of the world is kept by a computation when the
    computation, started in a world with [R], ends in a world with [R],
    whether it returns or throws. *)
Definition keeps {L A} (R : World → Prop) (m : M L A) : Prop :=
  ∀ l w, R w → R (m (l, w)).1.2.

(** The changes that the two models make to the world: a scheduled fault
    is consumed, an event is logged, a stored balance is replaced by a
    balance that passed the validator, a record that passed the validators
    is written under its identifier.  A property is stable when each of
    them keeps it. *)
Record stable (R : World → Prop) : Prop := {
  stable_faults : ∀ w fs, R w → R (set_faults fs w);
  stable_emit : ∀ w e, R w → R (emit e w);
  stable_balance : ∀ w k r b,
    R w → accounts w !! k = Some r → 0 ≤ b →
    R (set_accounts (alter (Account.set_row_balance b) k (accounts w)) w);
  stable_record : ∀ w t,
    R w → Transaction_validate t = None →
    R (set_transactions
         (<[Transaction.transactionId t := Transaction.set_isNew false t]>
            (transactions w)) w);
}.

(** [w] holds the accounts of [w0], each with the owner, the currency and
    the active flag it has in [w0]: the two differ in balances at most. *)
Definition ledger_shape (w0 w : World) : Prop :=
  ∀ k, Account.set_row_balance 0 <$> accounts w !! k
       = Account.set_row_balance 0 <$> accounts w0 !! k.

(** Every stored record sits under its own [transactionId], passes the
    validators of the schema and is marked as inserted. *)
Definition valid_records (w : World) : Prop :=
  ∀ id t, transactions w !! id = Some t →
    Transaction.transactionId t = id ∧ Transaction_validate t = None
    ∧ Transaction.isNew t = false.

(** A method of an account keeps to its own balance when it leaves the
    account number of its document, the transactions and every other
    account as they are, and changes the stored accounts in a balance at
    most. *)
Definition own_balance_only {A} (m : M Account A) : Prop :=
  ∀ this w,
    Account.accountNumber (m (this, w)).1.1 = Account.accountNumber this
    ∧ transactions (m (this, w)).1.2 = transactions w
    ∧ (∀ k, k ≠ Account.accountNumber this →
         accounts (m (this, w)).1.2 !! k = accounts w !! k)
    ∧ (∀ k, Account.set_row_balance 0 <$> accounts (m (this, w)).1.2 !! k
            = Account.set_row_balance 0 <$> accounts w !! k).

(** An invariant of the local documents and the world together, and a
    property of every value that a computation returns. *)
Definition inv {L A} (I : L * World → Prop) (m : M L A) : Prop :=
  ∀ s, I s → I (m s).1.

Definition returns {L A} (Q : A → Prop) (m : M L A) : Prop :=
  ∀ s a, (m s).2 = Ok a → Q a.

(** A response other than [res.status(status).json({ error })]. *)
Definition not_an_error (r : Response) : Prop :=
  match r with RError _ _ _ => False | _ => True end.

(** What [POST /external] may leave in the world [w], started in [w0] on
    the sender account [from] for the requester [user], with [id] the
    identifier that [uuidv4()] draws: accounts other than [from] as they
    were; [from] with its owner, currency and flag; records other than
    [id] as they were; under [id] what was there, or, where nothing was,
    a record of this transfer that is not COMPLETED. *)
Record External_record_of (id user : string) (t : Transaction) : Prop := {
  ero_id : Transaction.transactionId t = id;
  ero_status : Transaction.status t ≠ COMPLETED;
  ero_internal : Transaction.isInternal t = false;
  ero_user : Transaction.initiatedBy t = user;
}.

Record External_footprint (from id user : string) (w0 w : World) : Prop := {
  ef_accounts : ∀ k, k ≠ from → accounts w !! k = accounts w0 !! k;
  ef_sender : Account.set_row_balance 0 <$> accounts w !! from
              = Account.set_row_balance 0 <$> accounts w0 !! from;
  ef_others : ∀ i, i ≠ id → transactions w !! i = transactions w0 !! i;
  ef_record : transactions w !! id = transactions w0 !! id
              ∨ transactions w0 !! id = None
                ∧ ∃ t, transactions w !! id = Some t ∧ External_record_of id user t;
}.

Definition External_inv (from id user : string) (w0 : World)
    (s : External.Locals * World) : Prop :=
  Account.accountNumber (External.senderAccount s.1) = from
  ∧ External_record_of id user (External.transaction s.1)
  ∧ (Transaction.isNew (External.transaction s.1) = false →
     transactions w0 !! id = None)
  ∧ External_footprint from id user w0 s.2.

(** An external transfer request that passes every check that
    [POST /external] makes before its first write in world [w], where [s]
    is the stored row of the sender and the identifier that [uuidv4()]
    draws is fresh; nothing is assumed of the key file and of the URL of
    the central bank. *)
Record External_checked (env : Env) (user : string) (body : External.Request)
    (w : World) (s : Account.row) : Prop := {
  ec_valid : External.valid env body = true;
  ec_destination : External.toBank body ≠ BANK_PREFIX env;
  ec_sender : accounts w !! External.fromAccount body = Some s;
  ec_owner : Account.row_user s = user;
  ec_currency : currency_code (Account.row_currency s) = External.currency body;
  ec_funds :
    hasSufficientFunds_value env (Account.load (External.fromAccount body) s)
      (External.amount body) = true;
  ec_fresh : transactions w !! uuidv4 env = None;
  ec_uuid : uuidv4 env ≠ "";
  ec_bank : BANK_PREFIX env ≠ "";
}.

(** The record that [POST /external] inserts before it signs. *)
Definition External_pending (env : Env) (user : string) (body : External.Request)
  : Transaction :=
  Transaction.set_isNew false
    (new_Transaction env (uuidv4 env) (External.fromAccount body)
       (External.toAccount body) (BANK_PREFIX env) (External.toBank body)
       (External.amount body) (External.currency body)
       (External.description body) false None user).

(** An incoming transfer request that passes every check of
    [POST /incoming] in world [w], where [r] is the stored row of the
    destination, whose amount is the JSON number [a], and that fits the
    transaction schema. *)
Record Incoming_accepted (env : Env) (body : Incoming.Request) (w : World)
    (r : Account.row) (a : Qc) : Prop := {
  na_destination : Incoming.toBank body = BANK_PREFIX env;
  na_fresh : transactions w !! Incoming.transactionId body = None;
  na_signature :
    ∃ publicKey claims,
      resolved_key env (Incoming.fromBank body) = Some publicKey
      ∧ jwt_verify (Incoming.signature body) publicKey = Some claims;
  na_recipient : accounts w !! Incoming.toAccount body = Some r;
  na_currency : currency_code (Account.row_currency r) = Incoming.currency body;
  na_nonneg : 0 ≤ Account.row_balance r;
  na_amount : Incoming.amount body = JNumber a;
  na_min : min_amount ≤ a;
  na_max : a ≤ max_amount;
  na_id : Incoming.transactionId body ≠ "";
  na_from : Incoming.fromAccount body ≠ "";
  na_to : Incoming.toAccount body ≠ "";
  na_fromBank : Incoming.fromBank body ≠ "";
  na_toBank : Incoming.toBank body ≠ "";
}.

(** The sample deployment without its private key file, and without the
    URL of the central bank. *)
Definition sample_env_without_key : Env :=
  mkEnv "OVE" (Some "https://central.example") None (Some (RsaPublic "OVE"))
    (λ _, LookupNotOk 404) (λ _ _, RelayUnreachable) "3f2b9c1e"
    "2025-01-01T00:00:00.000Z" sample_Number_of_string sample_String_of_Number.

Definition sample_env_without_url : Env :=
  mkEnv "OVE" None (Some (RsaPrivate "OVE")) (Some (RsaPublic "OVE"))
    (λ _, LookupNotOk 404) (λ _ _, RelayAccepted (Some "accepted")) "3f2b9c1e"
    "2025-01-01T00:00:00.000Z" sample_Number_of_string sample_String_of_Number.

(** ** Reading transactions: [transaction.model.js], [transaction.routes.js]

    [req.user] is the user document that [authenticate] attaches to the
    request.  The user schema is not among the sources; the record holds
    the paths that the middleware and the handlers read. *)
Module User.
Record t := mk {
  _id : string;
  role : string;
  isActive : bool;
}.

(** The [users] collection is keyed by [_id]. *)
Record row := mkRow {
  row_role : string;
  row_isActive : bool;
}.

Definition load (k : string) (r : row) : t := mk k (row_role r) (row_isActive r).
End User.
Abbreviation User := User.t.

#[global] Instance User_eq_dec : EqDecision User.
Proof. solve_decision. Defined.
#[global] Instance User_row_eq_dec : EqDecision User.row.
Proof. solve_decision. Defined.

(** The answers of the handlers that read. *)
Inductive View :=
(** [res.status(status).json({ error: { code, message } })] *)
| VError (status : nat) (code : string)
(** [res.status(200).json({ transaction })] *)
| VTransaction (transaction : Transaction)
(** [res.status(200).json({ transactions })] *)
| VTransactions (transactions : list Transaction)
(** [res.status(200).json({ account })], 201 of [POST /accounts] *)
| VAccount (account : Account)
(** [res.status(200).json({ accounts })] *)
| VAccounts (accounts : list Account)
(** [next(error)] *)
| VNext (error : Error).

#[global] Instance View_eq_dec : EqDecision View.
Proof. solve_decision. Defined.

Definition view (handler : M unit View) (w : World) : World * View :=
  match handler ((), w) with
  | ((_, w'), Ok r) => (w', r)
  | ((_, w'), Throw e) => (w', VNext e)
  end.

(** [Account.find({ user })]: the documents come in the order of the
    collection. *)
Definition Account_find {L} (user : string) : M L (list Account) :=
  w ← world;
  mret ((λ kr, Account.load kr.1 kr.2) <$>
        map_to_list (filter (λ kr, Account.row_user kr.2 = user) (accounts w))).

(** [Transaction.find(query).sort({ createdAt: -1 })].  The timestamps are
    not part of the model: the order that the sort gives to the matching
    documents is the parameter [newest_first]. *)
Definition Transaction_find {L} (newest_first : list Transaction → list Transaction)
    (query : Transaction → bool) : M L (list Transaction) :=
  w ← world;
  mret (newest_first
          (filter (λ t, query t = true) (map_to_list (transactions w)).*2)).

(** [transactionSchema.statics.findByAccount] *)
Definition findByAccount {L} (newest_first : list Transaction → list Transaction)
    (accountNumber : string) : M L (list Transaction) :=
  Transaction_find newest_first
    (λ t, bool_decide (Transaction.fromAccount t = accountNumber)
          || bool_decide (Transaction.toAccount t = accountNumber)).

(** The user [user] owns the stored account [accountNumber]. *)
Definition owns (w : World) (user accountNumber : string) : Prop :=
  ∃ r, accounts w !! accountNumber = Some r ∧ Account.row_user r = user.

(** *** [GET /:transactionId] *)
Module ById.

Definition handler (user : User) (transactionId : string) : M unit View :=
  try_catch
    (transaction ← Transaction_findOne transactionId;
     match transaction with
     | None => mret (VError 404 "TRANSACTION_NOT_FOUND")
     | Some transaction =>
         userAccounts ← Account_find (User._id user);
         let userAccountNumbers := Account.accountNumber <$> userAccounts in
         let isUserInvolved :=
           bool_decide (Transaction.fromAccount transaction ∈ userAccountNumbers)
           || bool_decide (Transaction.toAccount transaction ∈ userAccountNumbers)
           || bool_decide (Transaction.initiatedBy transaction = User._id user) in
         if negb isUserInvolved && bool_decide (User.role user ≠ "admin")
         then mret (VError 403 "FORBIDDEN")
         else mret (VTransaction transaction)
     end)
    (λ error, mret (VNext error)).

Definition get (user : User) (transactionId : string) : World → World * View :=
  view (handler user transactionId).

End ById.

(** *** [GET /] *)
Module Index.

Definition handler (newest_first : list Transaction → list Transaction) (user : User)
  : M unit View :=
  try_catch
    (userAccounts ← Account_find (User._id user);
     let userAccountNumbers := Account.accountNumber <$> userAccounts in
     transactions ←
       Transaction_find newest_first
         (λ t, bool_decide (Transaction.fromAccount t ∈ userAccountNumbers)
               || bool_decide (Transaction.toAccount t ∈ userAccountNumbers));
     mret (VTransactions transactions))
    (λ error, mret (VNext error)).

Definition get (newest_first : list Transaction → list Transaction) (user : User)
  : World → World * View :=
  view (handler newest_first user).

End Index.

(** ** Accounts: [account.routes.js] *)

(** [process.env.BANK_PREFIX || 'OVE'] *)
Definition bankPrefix (env : Env) : string :=
  if bool_decide (BANK_PREFIX env = "") then "OVE" else BANK_PREFIX env.

(** The member of [enum: ['EUR', 'USD', 'GBP']] that a string names. *)
Definition currency_of_code (code : string) : option Currency :=
  if bool_decide (code = "EUR") then Some EUR
  else if bool_decide (code = "USD") then Some USD
  else if bool_decide (code = "GBP") then Some GBP
  else None.

Definition set_accountNumber (k : string) (a : Account) : Account :=
  Account.mk k (Account.user a) (Account.currency a) (Account.balance a)
    (Account.isActive a).

Definition store (a : Account) : Account.row :=
  Account.mkRow (Account.user a) (Account.currency a) (Account.balance a)
    (Account.isActive a).

(** [accountSchema.pre('validate')]: a document without an account number
    is given one; [uniqueId] is the text of
    [Math.floor(10000000 + Math.random() * 90000000)]. *)
Definition pre_validate (env : Env) (uniqueId : string) : M Account unit :=
  try_catch
    (this ← locals;
     if bool_decide (Account.accountNumber this = "")
     then assign (set_accountNumber (bankPrefix env +:+ "-" +:+ uniqueId))
     else mret ())
    (λ error, throw error).

(** [account.save()] of a new document: the hook, the validators, then
    the insertion, which the unique index on [accountNumber] refuses for a
    number that is taken. *)
Definition Account_insert (env : Env) (uniqueId : string) : M Account unit :=
  pre_validate env uniqueId;;
  this ← locals;
  if bool_decide (Account.accountNumber this = "")
  then throw (ValidationError "accountNumber")
  else if bool_decide (Account.balance this < 0) then throw (ValidationError "balance")
  else
    db_write (λ w,
      match accounts w !! Account.accountNumber this with
      | Some _ => Throw DuplicateKeyError
      | None =>
          Ok (emit (EvSaveAccount (Account.accountNumber this) (Account.balance this))
                (set_accounts
                   (<[Account.accountNumber this := store this]> (accounts w)) w))
      end).

(** *** [POST /] *)
Module Create.

(** [req.body]: [accountType] is [None] when the body has none;
    [description] is left out, as it is in the account document. *)
Record Request := mkRequest {
  accountType : option string;
  currency : string;
}.

Definition accountType_enum : list string := ["checking"; "savings"; "business"].

(** [optional().isIn(['checking', 'savings', 'business'])] on the account
    type, [isIn(['EUR', 'USD', 'GBP'])] on the currency. *)
Definition valid (body : Request) : bool :=
  match accountType body with
  | None => true
  | Some accountType => bool_decide (accountType ∈ accountType_enum)
  end
  && bool_decide (currency body ∈ currency_enum).

(** [new Transaction({ ... })] of the welcome bonus. *)
Definition welcome (env : Env) (user accountNumber : string) : Transaction :=
  Transaction.mk (uuidv4 env) "SYSTEM" accountNumber (bankPrefix env) (bankPrefix env)
    (Some (Qc_of_Z 100)) "EUR" "Welcome bonus - Initial account deposit" COMPLETED None None
    true None user true.

(** [uniqueId] is the draw of the handler, [hookId] the draw that the
    hook of the schema makes when it has to.  A currency outside the
    [enum] would fail the validation of [account.save()]; the account
    type, which the document of the model leaves out, is [checking] or
    the value that passed the validator, and lies in the [enum] of the
    schema. *)
Definition handler (env : Env) (uniqueId hookId : string) (user : string)
    (body : Request) : M unit View :=
  try_catch
    (if negb (valid body) then mret (VError 400 "VALIDATION_ERROR")
     else
       let accountNumber := bankPrefix env +:+ "-" +:+ uniqueId in
       match currency_of_code (currency body) with
       | None => throw (ValidationError "currency")
       | Some c =>
           scope
             (Account.mk accountNumber user c
                (if bool_decide (currency body = "EUR") then Qc_of_Z 100 else 0)
                true)
             (Account_insert env hookId;;
              (if bool_decide (currency body = "EUR")
               then scope (welcome env user accountNumber) Transaction_save
               else mret ());;
              account ← locals;
              mret (VAccount account))
       end)
    (λ error, mret (VNext error)).

Definition post (env : Env) (uniqueId hookId : string) (user : string) (body : Request)
  : World → World * View :=
  view (handler env uniqueId hookId user body).

End Create.

(** *** [GET /] *)
Module Mine.

Definition handler (user : User) : M unit View :=
  try_catch
    (accounts ← Account_find (User._id user);
     mret (VAccounts accounts))
    (λ error, mret (VNext error)).

Definition get (user : User) : World → World * View := view (handler user).

End Mine.

(** *** [GET /number/:accountNumber] *)
Module ByNumber.

Definition handler (user : User) (accountNumber : string) : M unit View :=
  try_catch
    (account ← Account_findOne accountNumber;
     match account with
     | None => mret (VError 404 "ACCOUNT_NOT_FOUND")
     | Some account =>
         if bool_decide (Account.user account ≠ User._id user)
         then mret (VError 403 "FORBIDDEN")
         else mret (VAccount account)
     end)
    (λ error, mret (VNext error)).

Definition get (user : User) (accountNumber : string) : World → World * View :=
  view (handler user accountNumber).

End ByNumber.

(** ** Authentication: [auth.middleware.js], [tokenBlacklist.js],
    [auth.routes.js] *)

(** [str.split(separator)] for a separator of one character. *)
Fixpoint String_split (separator : ascii) (str : string) : list string :=
  match str with
  | EmptyString => [""]
  | String c rest =>
      if bool_decide (c = separator) then "" :: String_split separator rest
      else match String_split separator rest with
           | word :: words => String c word :: words
           | [] => [String c ""]
           end
  end.

Module Auth.

(** The [users] collection and the blacklist, a [Set] of the process.  A
    value that may be [undefined] is an [option]. *)
Record Session := mkSession {
  users : gmap string User.row;
  tokenBlacklist : gset (option string);
}.

Definition set_tokenBlacklist (b : gset (option string)) (st : Session) : Session :=
  mkSession (users st) b.

(** What [jwt.verify(token, process.env.JWT_SECRET)] does: it returns the
    decoded claims, of which [userId] is read, or throws an error with a
    [name]. *)
Inductive Verified :=
| Decoded (userId : option string)
| Thrown (name : string).

(** The two library calls of the middleware: [verify] is
    [jwt.verify(_, process.env.JWT_SECRET)], and [isObjectId] tells
    whether Mongoose casts a string to an [ObjectId]. *)
Record Library := mkLibrary {
  verify : option string → Verified;
  isObjectId : string → bool;
}.

(** What a middleware does with the request. *)
Inductive Gate :=
(** [req.user = user; next()] *)
| Next (user : User)
(** [res.status(status).json({ error: { code, message } })] *)
| Denied (status : nat) (code : string)
(** [next(error)] *)
| NextError (name : string).

(** [authHeader.split(' ')[1]] *)
Definition bearer_token (authHeader : string) : option string :=
  String_split " "%char authHeader !! 1%nat.

(** [User.findById(id)]: [undefined] finds no document; a string that
    does not cast to an [ObjectId] throws a [CastError]. *)
Definition User_findById (lib : Library) (st : Session) (id : option string)
  : Res (option User) :=
  match id with
  | None => Ok None
  | Some id =>
      if isObjectId lib id then Ok (User.load id <$> users st !! id)
      else Throw CastError
  end.

(** [authorization] is [req.headers.authorization]. *)
Definition authenticate (lib : Library) (st : Session)
    (authorization : option string) : Gate :=
  match authorization with
  | None => Denied 401 "UNAUTHORIZED"
  | Some authHeader =>
      if bool_decide (authHeader = "") || negb (String.prefix "Bearer " authHeader)
      then Denied 401 "UNAUTHORIZED"
      else
        let token := bearer_token authHeader in
        if bool_decide (token ∈ tokenBlacklist st)
        then Denied 401 "INVALID_TOKEN"
        else
          match verify lib token with
          | Thrown name =>
              if bool_decide (name = "JsonWebTokenError")
                 || bool_decide (name = "TokenExpiredError")
              then Denied 401 "INVALID_TOKEN"
              else NextError name
          | Decoded userId =>
              match User_findById lib st userId with
              | Throw _ => NextError "CastError"
              | Ok None => Denied 401 "UNAUTHORIZED"
              | Ok (Some user) =>
                  if negb (User.isActive user) then Denied 401 "UNAUTHORIZED"
                  else Next user
              end
          end
  end.

(** [isAdmin], after [authenticate] or without it. *)
Definition isAdmin (user : option User) : Gate :=
  match user with
  | Some user =>
      if bool_decide (User.role user = "admin") then Next user
      else Denied 403 "FORBIDDEN"
  | None => Denied 403 "FORBIDDEN"
  end.

(** The answer of a route behind a middleware. *)
Inductive Guarded (A : Type) :=
| Passed (a : A)
| Stopped (status : nat) (code : string)
| Errored (name : string).
Arguments Passed {A} a.
Arguments Stopped {A} status code.
Arguments Errored {A} name.

(** [router.post('/logout', authenticate, (req, res) => { ... })] *)
Definition logout (lib : Library) (authorization : option string)
    (st : Session) : Session * Guarded unit :=
  match authenticate lib st authorization with
  | Next _ =>
      match authorization with
      | None => (st, Errored "TypeError")
      | Some authHeader =>
          (set_tokenBlacklist ({[bearer_token authHeader]} ∪ tokenBlacklist st) st,
           Passed ())
      end
  | Denied status code => (st, Stopped status code)
  | NextError name => (st, Errored name)
  end.

(** [router.post(path, authenticate, ..., handler)]: the handler runs for
    the user that the middleware let through. *)
Definition guard {A} (gate : Gate) (handler : User → World → World * A) (w : World)
  : World * Guarded A :=
  match gate with
  | Next user => ((handler user w).1, Passed (handler user w).2)
  | Denied status code => (w, Stopped status code)
  | NextError name => (w, Errored name)
  end.

End Auth.

(** The two transfer routes of [transaction.routes.js] behind
    [authenticate]. *)
Definition POST_internal (env : Env) (lib : Auth.Library)
    (st : Auth.Session) (authorization : option string) (body : Internal.Request)
  : World → World * Auth.Guarded Response :=
  Auth.guard (Auth.authenticate lib st authorization)
    (λ user, Internal.post env (User._id user) body).

Definition POST_external (env : Env) (lib : Auth.Library)
    (st : Auth.Session) (authorization : option string) (body : External.Request)
  : World → World * Auth.Guarded Response :=
  Auth.guard (Auth.authenticate lib st authorization)
    (λ user, External.post env (User._id user) body).

(** Sample sessions: Alice and Bob are active users, Carol was
    deactivated; [jwt.verify] accepts one token for each of them and one
    whose [userId] is no [ObjectId].  The names of the users stand for
    their identifiers. *)
Definition sample_session : Auth.Session :=
  Auth.mkSession
    (<["alice" := User.mkRow "user" true]>
       (<["bob" := User.mkRow "user" true]>
          (<["carol" := User.mkRow "user" false]> ∅)))
    ∅.

Definition sample_verify (token : option string) : Auth.Verified :=
  if bool_decide (token = Some "alice.token") then Auth.Decoded (Some "alice")
  else if bool_decide (token = Some "bob.token") then Auth.Decoded (Some "bob")
  else if bool_decide (token = Some "carol.token") then Auth.Decoded (Some "carol")
  else if bool_decide (token = Some "guest.token") then Auth.Decoded (Some "guest-1")
  else if bool_decide (token = Some "old.token") then Auth.Thrown "TokenExpiredError"
  else Auth.Thrown "JsonWebTokenError".

Definition sample_library : Auth.Library :=
  Auth.mkLibrary sample_verify
    (λ id, bool_decide (id ∈ ["alice"; "bob"; "carol"; "dave"])).

(** ** Arithmetic of amounts *)

Lemma Qc_sub_nonneg (a b : Qc) : a ≤ b → 0 ≤ b - a.
Proof. intros H. by apply Qcle_minus_iff in H. Qed.

Lemma Qc_add_nonneg (a b : Qc) : 0 ≤ b → 0 < a → 0 ≤ b + a.
Proof.
  intros Hb Ha. rewrite <- (Qcplus_0_l 0).
  apply Qcplus_le_compat; [done | by apply Qclt_le_weak].
Qed.

Lemma Qc_sub_diag (a : Qc) : a - a = 0.
Proof. ring. Qed.

(** ** Equations of the monad and of the ledger *)

Ltac munfold :=
  unfold respond, try_catch, scope, on, mbind, M_bind, bind, mret, M_ret, ret,
    throw, locals, assign, world, effect.

Ltac by_compute := apply (bool_decide_unpack _); vm_compute; exact I.

(** Whatever the schedule, a write either throws and leaves both
    collections alone, or applies [write]. *)
Lemma db_write_cases {L} (write : World → Res World) (l : L) w :
  ∃ w0, accounts w0 = accounts w ∧ transactions w0 = transactions w
        ∧ log w0 = log w
        ∧ ((∃ e, db_write write (l, w) = ((l, w0), Throw e))
           ∨ (∃ w', write w0 = Ok w' ∧ db_write write (l, w) = ((l, w'), Ok ()))).
Proof.
  unfold db_write. destruct (faults w) as [|[] fs] eqn:Hf.
  - exists w. repeat split. destruct (write w) eqn:Hw; eauto.
  - exists (set_faults fs w). repeat split. eauto.
  - exists (set_faults fs w). repeat split.
    destruct (write (set_faults fs w)) eqn:Hw; eauto.
Qed.

Lemma Account_save_eq this w :
  Account_save (this, w) =
    if bool_decide (Account.balance this < 0)
    then ((this, w), Throw (ValidationError "balance"))
    else db_write (λ w,
      match accounts w !! Account.accountNumber this with
      | None => Throw DocumentNotFoundError
      | Some _ =>
          Ok (emit (EvSaveAccount (Account.accountNumber this) (Account.balance this))
                (set_accounts
                   (alter (Account.set_row_balance (Account.balance this))
                      (Account.accountNumber this) (accounts w)) w))
      end) (this, w).
Proof. unfold Account_save. munfold. simpl. by case_bool_decide. Qed.

Lemma debit_eq amount this w :
  debit amount (this, w) =
    if bool_decide (amount ≤ 0)
    then ((this, w), Throw (Error_ "Debit amount must be positive"))
    else if bool_decide (amount ≤ Account.balance this)
    then Account_save (Account.set_balance (Account.balance this - amount) this, w)
    else ((this, w), Throw (Error_ "Insufficient funds")).
Proof.
  unfold debit, hasSufficientFunds. case_bool_decide; [done|].
  munfold. simpl. by case_bool_decide.
Qed.

Lemma credit_eq amount this w :
  credit amount (this, w) =
    if bool_decide (amount ≤ 0)
    then ((this, w), Throw (Error_ "Credit amount must be positive"))
    else Account_save (Account.set_balance (Account.balance this + amount) this, w).
Proof. unfold credit. by case_bool_decide. Qed.

(** The outcome of [save()] on an account, whatever the schedule. *)
Lemma Account_save_cases this w :
  ∃ w', Account_save (this, w) = ((this, w'), (Account_save (this, w)).2)
    ∧ transactions w' = transactions w
    ∧ match (Account_save (this, w)).2 with
      | Throw _ => accounts w' = accounts w ∧ log w' = log w
      | Ok _ =>
          0 ≤ Account.balance this
          ∧ is_Some (accounts w !! Account.accountNumber this)
          ∧ accounts w' =
              alter (Account.set_row_balance (Account.balance this))
                (Account.accountNumber this) (accounts w)
          ∧ log w' = (log w ++
              [EvSaveAccount (Account.accountNumber this) (Account.balance this)])%list
      end.
Proof.
  rewrite Account_save_eq. case_bool_decide as Hneg.
  { exists w. by simpl. }
  apply Qcnot_lt_le in Hneg.
  match goal with |- context [db_write ?f _] =>
    destruct (db_write_cases f this w) as (w0 & Ha & Ht & Hl & [[e He]|(w' & Hw & He)])
  end; rewrite He; simpl.
  - exists w0. by repeat split.
  - rewrite Ha in Hw.
    destruct (accounts w !! Account.accountNumber this) eqn:Hr; [|done].
    injection Hw as <-. exists
      (emit (EvSaveAccount (Account.accountNumber this) (Account.balance this))
         (set_accounts (alter (Account.set_row_balance (Account.balance this))
            (Account.accountNumber this) (accounts w)) w0)).
    simpl. rewrite Ht, Hl. by repeat split.
Qed.

(** ** The ledger contract *)

(** A successful [save()] of an account stored under its number. *)
Lemma Account_save_lands this w :
  0 ≤ Account.balance this →
  is_Some (accounts w !! Account.accountNumber this) →
  head (faults w) ≠ Some true →
  ∃ w', Account_save (this, w) = ((this, w'), Ok ())
    ∧ balance_of (Account.accountNumber this) w' = Some (Account.balance this)
    ∧ (∀ k, k ≠ Account.accountNumber this → accounts w' !! k = accounts w !! k)
    ∧ transactions w' = transactions w.
Proof.
  intros Hb [r Hr] Hf. rewrite Account_save_eq.
  rewrite bool_decide_eq_false_2 by by apply Qcle_not_lt.
  unfold db_write, balance_of.
  destruct (faults w) as [|[] fs] eqn:Hfs; [| by destruct Hf |]; simpl; rewrite Hr;
    eexists; (split; [done|]); simpl;
    (split; [by rewrite lookup_alter_eq, Hr|]);
    (split; [by intros k Hk; rewrite lookup_alter_ne|done]).
Qed.

(** C6. Debit contract: [debit] throws 'Debit amount must be positive'
    (InvalidAmount) when the amount is at most zero; otherwise it throws
    'Insufficient funds' (InsufficientFunds) when the balance is below the
    amount; otherwise, on an account that is stored and a store that takes
    the write, it lowers the balance by exactly the amount and persists
    the new value.  A debit of the full balance succeeds and leaves 0. *)
Theorem debit_contract (this : Account) (amount : Qc) (w : World) :
  (amount ≤ 0 →
     debit amount (this, w)
     = ((this, w), Throw (Error_ "Debit amount must be positive")))
  ∧ (0 < amount → Account.balance this < amount →
     debit amount (this, w) = ((this, w), Throw (Error_ "Insufficient funds")))
  ∧ (0 < amount → amount ≤ Account.balance this →
     is_Some (accounts w !! Account.accountNumber this) →
     head (faults w) ≠ Some true →
     ∃ w',
       debit amount (this, w)
       = ((Account.set_balance (Account.balance this - amount) this, w'), Ok ())
       ∧ balance_of (Account.accountNumber this) w'
         = Some (Account.balance this - amount)
       ∧ (amount = Account.balance this →
          balance_of (Account.accountNumber this) w' = Some 0)
       ∧ (∀ k, k ≠ Account.accountNumber this → accounts w' !! k = accounts w !! k)
       ∧ transactions w' = transactions w).
Proof.
  repeat split.
  - intros Hle. rewrite debit_eq. by rewrite bool_decide_eq_true_2.
  - intros Hpos Hlt. rewrite debit_eq.
    rewrite bool_decide_eq_false_2 by by apply Qclt_not_le.
    by rewrite bool_decide_eq_false_2 by by apply Qclt_not_le.
  - intros Hpos Hle Hstored Hf. rewrite debit_eq.
    rewrite bool_decide_eq_false_2 by by apply Qclt_not_le.
    rewrite bool_decide_eq_true_2 by done.
    destruct (Account_save_lands
                (Account.set_balance (Account.balance this - amount) this) w)
      as (w' & Hrun & Hbal & Hother & Htx); simpl; try done.
    { by apply Qc_sub_nonneg. }
    exists w'. simpl in *. repeat split; try done.
    intros ->. by rewrite Hbal, Qc_sub_diag.
Qed.

Lemma debit_contract_witness :
  balance_of "OVE-1"
    (debit (Qc_of_Z 100)
       (Account.mk "OVE-1" "u1" EUR (Qc_of_Z 100) true,
        mkWorld {["OVE-1" := Account.mkRow "u1" EUR (Qc_of_Z 100) true]} ∅ [] [])).1.2
  = Some 0.
Proof.
  destruct (debit_contract (Account.mk "OVE-1" "u1" EUR (Qc_of_Z 100) true)
              (Qc_of_Z 100)
              (mkWorld {["OVE-1" := Account.mkRow "u1" EUR (Qc_of_Z 100) true]} ∅ [] []))
    as (_ & _ & H).
  destruct H as (w' & Hrun & _ & Hzero & _).
  - by vm_compute.
  - by vm_compute.
  - eexists. vm_compute. reflexivity.
  - by vm_compute.
  - rewrite Hrun. simpl. apply Hzero. reflexivity.
Defined.

(** One operation of the ledger on a non-negative document over a
    non-negative store. *)
Lemma ledger_step_nonneg (op : LedgerOp) (amount : Qc) (this : Account) (w : World) :
  0 ≤ Account.balance this → nonneg_store w →
  0 ≤ Account.balance (ledger op amount (this, w)).1.1
  ∧ nonneg_store (ledger op amount (this, w)).1.2
  ∧ match (ledger op amount (this, w)).2 with
    | Throw _ => accounts (ledger op amount (this, w)).1.2 = accounts w
    | Ok _ =>
        balance_of (Account.accountNumber this) (ledger op amount (this, w)).1.2
        = Some (Account.balance (ledger op amount (this, w)).1.1)
    end.
Proof.
  intros Hthis Hw.
  assert (Hsave : ∀ this' : Account,
    Account.accountNumber this' = Account.accountNumber this →
    0 ≤ Account.balance this' →
    0 ≤ Account.balance (Account_save (this', w)).1.1
    ∧ nonneg_store (Account_save (this', w)).1.2
    ∧ match (Account_save (this', w)).2 with
      | Throw _ => accounts (Account_save (this', w)).1.2 = accounts w
      | Ok _ =>
          balance_of (Account.accountNumber this) (Account_save (this', w)).1.2
          = Some (Account.balance (Account_save (this', w)).1.1)
      end).
  { intros this' Hnum Hb.
    destruct (Account_save_cases this' w) as (w' & Hrun & _ & Hout).
    rewrite Hrun in *. simpl in *. split; [done|].
    destruct (Account_save (this', w)).2; simpl.
    - destruct Hout as (_ & [r Hr] & Hacc & _). rewrite Hnum in *. split.
      + intros k r'. rewrite Hacc. destruct (decide (k = Account.accountNumber this)) as [->|Hk].
        * rewrite lookup_alter_eq, Hr. by intros [= <-].
        * rewrite lookup_alter_ne by done. apply Hw.
      + unfold balance_of. by rewrite Hacc, lookup_alter_eq, Hr.
    - destruct Hout as [Hacc _]. split; [|done].
      intros k r'. rewrite Hacc. apply Hw. }
  destruct op; simpl.
  - rewrite debit_eq. case_bool_decide; [done|]. case_bool_decide; [|done].
    apply Hsave; [done|]. by apply Qc_sub_nonneg.
  - rewrite credit_eq. case_bool_decide as Hpos; [done|].
    apply Hsave; [done|]. apply Qc_add_nonneg; [done|]. by apply Qcnot_le_lt.
Qed.

(** C7. Non-negative balance: on an account whose balance is at least
    zero, [debit] and [credit] either throw and leave every persisted
    balance as it was, or succeed and persist a balance that is at least
    zero; no sequence of calls of the ledger drives a persisted balance
    below zero. *)
Theorem balance_never_negative :
  (∀ op amount this w,
     0 ≤ Account.balance this → nonneg_store w →
     0 ≤ Account.balance (ledger op amount (this, w)).1.1
     ∧ nonneg_store (ledger op amount (this, w)).1.2
     ∧ match (ledger op amount (this, w)).2 with
       | Throw _ => accounts (ledger op amount (this, w)).1.2 = accounts w
       | Ok _ =>
           balance_of (Account.accountNumber this) (ledger op amount (this, w)).1.2
           = Some (Account.balance (ledger op amount (this, w)).1.1)
       end)
  ∧ (∀ cs w, nonneg_store w → nonneg_store (ledger_calls cs w)).
Proof.
  split; [apply ledger_step_nonneg|].
  intros cs. unfold ledger_calls. induction cs as [|[[k op] amount] cs IH]; intros w Hw.
  - done.
  - simpl. apply IH. unfold ledger_call. simpl.
    destruct (accounts w !! k) as [r|] eqn:Hr; [|done].
    apply ledger_step_nonneg; [|done]. simpl. by apply (Hw k).
Qed.

Lemma balance_never_negative_witness :
  nonneg_store
    (ledger_calls
       [("OVE-10000001", Debit, Qc_of_Z 30); ("OVE-10000001", Debit, Qc_of_Z 100);
        ("OVE-10000002", Credit, Qc_of_Z 5); ("OVE-10000001", Debit, Qc_of_Z 70)]
       (sample_world [])).
Proof.
  apply balance_never_negative.
  change (map_Forall (λ _ r, 0 ≤ Account.row_balance r) (accounts (sample_world []))).
  by_compute.
Defined.

(** ** The active flag is never read *)

Section Oblivious.
Context (g : string → bool).
Context {L : Type} (RL : L → L → Prop).

Lemma lookup_with_flags w k :
  accounts (with_flags g w) !! k = Account.set_row_isActive (g k) <$> accounts w !! k.
Proof. unfold with_flags. simpl. rewrite map_lookup_imap. by destruct (accounts w !! k). Qed.

Lemma obl_ret {A} (RA : A → A → Prop) a1 a2 :
  RA a1 a2 → oblivious g RL RA (mret a1) (mret a2).
Proof. by intros Ha l1 l2 w Hl. Qed.

Lemma obl_throw {A} (RA : A → A → Prop) e :
  oblivious g RL RA (throw e) (throw e).
Proof. by intros l1 l2 w Hl. Qed.

Lemma obl_bind {A B} (RA : A → A → Prop) (RB : B → B → Prop) m1 m2 k1 k2 :
  oblivious g RL RA m1 m2 →
  (∀ a1 a2, RA a1 a2 → oblivious g RL RB (k1 a1) (k2 a2)) →
  oblivious g RL RB (m1 ≫= k1) (m2 ≫= k2).
Proof.
  intros Hm Hk l1 l2 w Hl. unfold mbind, M_bind, bind.
  destruct (Hm l1 l2 w Hl) as (Hl' & Hw & Hr).
  destruct (m1 (l1, w)) as [[l1' w1] [a1|e1]], (m2 (l2, with_flags g w)) as [[l2' w2] [a2|e2]];
    simpl in *; try done.
  subst w2. by apply Hk.
Qed.

Lemma obl_try_catch {A} (RA : A → A → Prop) m1 m2 h1 h2 :
  oblivious g RL RA m1 m2 →
  (∀ e, oblivious g RL RA (h1 e) (h2 e)) →
  oblivious g RL RA (try_catch m1 h1) (try_catch m2 h2).
Proof.
  intros Hm Hh l1 l2 w Hl. unfold try_catch.
  destruct (Hm l1 l2 w Hl) as (Hl' & Hw & Hr).
  destruct (m1 (l1, w)) as [[l1' w1] [a1|e1]], (m2 (l2, with_flags g w)) as [[l2' w2] [a2|e2]];
    simpl in *; try done.
  subst w2 e2. by apply Hh.
Qed.

Lemma obl_locals : oblivious g RL RL locals locals.
Proof. by intros l1 l2 w Hl. Qed.

Lemma obl_assign f1 f2 :
  (∀ l1 l2, RL l1 l2 → RL (f1 l1) (f2 l2)) → oblivious g RL eq (assign f1) (assign f2).
Proof. intros Hf l1 l2 w Hl. simpl. auto. Qed.

Lemma obl_emit e : oblivious g RL eq (effect (emit e)) (effect (emit e)).
Proof. by intros l1 l2 w Hl. Qed.

Lemma obl_db_write write1 write2 :
  (∀ w, Res_rel (λ w1 w2, w2 = with_flags g w1) (write1 w) (write2 (with_flags g w))) →
  oblivious g RL eq (db_write write1) (db_write write2).
Proof.
  intros Hw l1 l2 w Hl. unfold db_write. simpl.
  destruct (faults w) as [|[] fs]; simpl; try done.
  - specialize (Hw w). destruct (write1 w), (write2 (with_flags g w)); simpl in *; by subst.
  - specialize (Hw (set_faults fs w)).
    change (set_faults fs (with_flags g w)) with (with_flags g (set_faults fs w)).
    destruct (write1 (set_faults fs w)), (write2 (with_flags g (set_faults fs w)));
      simpl in *; by subst.
Qed.
End Oblivious.

Section ObliviousOps.
Context (g : string → bool).

Lemma obl_on {L D A} (RL : L → L → Prop) (RD : D → D → Prop) (RA : A → A → Prop)
    (get : L → D) (set : D → L → L) m1 m2 :
  (∀ l1 l2, RL l1 l2 → RD (get l1) (get l2)) →
  (∀ l1 l2 d1 d2, RL l1 l2 → RD d1 d2 → RL (set d1 l1) (set d2 l2)) →
  oblivious g RD RA m1 m2 →
  oblivious g RL RA (on get set m1) (on get set m2).
Proof.
  intros Hget Hset Hm l1 l2 w Hl. unfold on. simpl.
  destruct (Hm (get l1) (get l2) w (Hget _ _ Hl)) as (Hd & Hw & Hr).
  destruct (m1 (get l1, w)) as [[d1 w1] r1], (m2 (get l2, with_flags g w)) as [[d2 w2] r2].
  simpl in *. auto.
Qed.

Lemma obl_scope {L L' A} (RL : L → L → Prop) (RL' : L' → L' → Prop) (RA : A → A → Prop)
    l1' l2' m1 m2 :
  RL' l1' l2' → oblivious g RL' RA m1 m2 →
  oblivious g RL RA (scope l1' m1) (scope l2' m2).
Proof.
  intros Hl' Hm l1 l2 w Hl. unfold scope. simpl.
  destruct (Hm l1' l2' w Hl') as (_ & Hw & Hr).
  destruct (m1 (l1', w)) as [[d1 w1] r1], (m2 (l2', with_flags g w)) as [[d2 w2] r2].
  simpl in *. auto.
Qed.

Lemma obl_Account_findOne {L} (RL : L → L → Prop) k :
  oblivious g RL (option_Forall2 flag_eq) (Account_findOne k) (Account_findOne k).
Proof.
  intros l1 l2 w Hl. unfold Account_findOne. munfold. cbn [fst snd].
  repeat split; [done|]. rewrite lookup_with_flags.
  destruct (accounts w !! k) as [r|]; simpl; by constructor.
Qed.

Lemma obl_Transaction_findOne {L} (RL : L → L → Prop) k :
  oblivious g RL eq (Transaction_findOne k) (Transaction_findOne k).
Proof. by intros l1 l2 w Hl. Qed.

Lemma with_flags_alter_balance b k w :
  set_accounts (alter (Account.set_row_balance b) k (accounts (with_flags g w))) (with_flags g w)
  = with_flags g (set_accounts (alter (Account.set_row_balance b) k (accounts w)) w).
Proof.
  unfold with_flags, set_accounts. simpl. f_equal. apply map_eq. intros i.
  rewrite map_lookup_imap. destruct (decide (i = k)) as [->|Hne].
  - rewrite !lookup_alter_eq, map_lookup_imap. by destruct (accounts w !! k).
  - rewrite !lookup_alter_ne by done. by rewrite map_lookup_imap.
Qed.

Lemma flag_eq_fields a1 a2 :
  flag_eq a1 a2 →
  Account.accountNumber a1 = Account.accountNumber a2
  ∧ Account.user a1 = Account.user a2
  ∧ Account.currency a1 = Account.currency a2
  ∧ Account.balance a1 = Account.balance a2.
Proof. destruct a1, a2. unfold flag_eq. simpl. by intros [= -> -> -> ->]. Qed.

Lemma flag_eq_set_balance a1 a2 b :
  flag_eq a1 a2 → flag_eq (Account.set_balance b a1) (Account.set_balance b a2).
Proof. destruct a1, a2. unfold flag_eq. simpl. by intros [= -> -> -> ->]. Qed.

Lemma obl_Account_save : oblivious g flag_eq eq Account_save Account_save.
Proof.
  intros a1 a2 w Ha. destruct (flag_eq_fields _ _ Ha) as (Hn & _ & _ & Hb).
  rewrite !Account_save_eq, <- Hb, <- Hn. case_bool_decide; [done|].
  match goal with |- context [db_write ?f (a1, w)] =>
    apply (obl_db_write g flag_eq f f); [|done] end.
  intros w'. rewrite lookup_with_flags.
  destruct (accounts w' !! Account.accountNumber a1); [|done].
  cbn [fmap option_fmap option_map Res_rel]. by rewrite with_flags_alter_balance.
Qed.

Lemma obl_credit amount : oblivious g flag_eq eq (credit amount) (credit amount).
Proof.
  unfold credit. case_bool_decide; [apply obl_throw|].
  eapply obl_bind; [|intros; apply obl_Account_save].
  apply obl_assign. intros a1 a2 Ha.
  destruct (flag_eq_fields _ _ Ha) as (_ & _ & _ & <-). by apply flag_eq_set_balance.
Qed.

Lemma obl_debit amount : oblivious g flag_eq eq (debit amount) (debit amount).
Proof.
  unfold debit. case_bool_decide; [apply obl_throw|].
  eapply obl_bind; [apply obl_locals|]. intros a1 a2 Ha.
  destruct (flag_eq_fields _ _ Ha) as (_ & _ & _ & Hb).
  unfold hasSufficientFunds. rewrite <- Hb.
  destruct (negb _); [apply obl_throw|].
  eapply obl_bind; [|intros; apply obl_Account_save].
  apply obl_assign. intros b1 b2 Hb'.
  destruct (flag_eq_fields _ _ Hb') as (_ & _ & _ & <-). by apply flag_eq_set_balance.
Qed.

Lemma obl_debit_value env amount :
  oblivious g flag_eq eq (debit_value env amount) (debit_value env amount).
Proof.
  unfold debit_value. destruct (ToNumber env amount); [apply obl_debit | apply obl_throw].
Qed.

Lemma obl_credit_value env amount :
  oblivious g flag_eq eq (credit_value env amount) (credit_value env amount).
Proof.
  destruct amount as [n|s]; [apply obl_credit|]. cbn [credit_value].
  destruct (match Number_of_string env s with Some _ => _ | None => _ end);
    [apply obl_throw|].
  eapply obl_bind; [apply obl_locals|]. intros a1 a2 Ha.
  destruct (flag_eq_fields _ _ Ha) as (_ & _ & _ & <-).
  destruct (castNumber env _); [|apply obl_throw].
  eapply obl_bind; [|intros; apply obl_Account_save].
  apply obl_assign. intros b1 b2 Hb'. by apply flag_eq_set_balance.
Qed.

Lemma obl_Transaction_save : oblivious g eq eq Transaction_save Transaction_save.
Proof.
  unfold Transaction_save. eapply obl_bind; [apply obl_locals|].
  intros t ? <-. destruct (Transaction_validate t); [apply obl_throw|].
  eapply obl_bind; [|intros; apply obl_assign; by intros ?? ->].
  apply obl_db_write. intros w. simpl.
  by destruct (Transaction.isNew t), (transactions w !! Transaction.transactionId t).
Qed.

Lemma obl_updateStatus s c m : oblivious g eq eq (updateStatus s c m) (updateStatus s c m).
Proof.
  unfold updateStatus. eapply obl_bind; [|intros; apply obl_Transaction_save].
  apply obl_assign. by intros ?? ->.
Qed.

Lemma obl_signTransaction {L} (RL : L → L → Prop) env payload :
  oblivious g RL eq (signTransaction env payload) (signTransaction env payload).
Proof.
  unfold signTransaction. apply obl_try_catch; [|intros; apply obl_throw].
  destruct (private_key_file env); [|apply obl_throw].
  eapply obl_bind; [apply obl_emit|]. intros _ _ _.
  destruct (jwt_sign _ _); [by apply obl_ret | apply obl_throw].
Qed.

Lemma obl_verifySignature {L} (RL : L → L → Prop) env payload signature fromBank :
  oblivious g RL eq (verifySignature env payload signature fromBank)
    (verifySignature env payload signature fromBank).
Proof.
  unfold verifySignature. apply obl_try_catch; [|intros; by apply obl_ret].
  case_bool_decide.
  - destruct (public_key_file env); [|apply obl_throw].
    destruct (jwt_verify _ _); [by apply obl_ret | apply obl_throw].
  - destruct (CENTRAL_BANK_URL env); [|apply obl_throw].
    eapply obl_bind; [apply obl_emit|]. intros _ _ _.
    destruct (key_directory env fromBank); try apply obl_throw.
    destruct (jwt_verify _ _); [by apply obl_ret | apply obl_throw].
Qed.
End ObliviousOps.

Section ObliviousHandlers.
Context (g : string → bool).

Ltac obl_account_fields H :=
  let Hn := fresh "Hn" in let Hu := fresh "Hu" in
  let Hc := fresh "Hc" in let Hb := fresh "Hb" in
  destruct (flag_eq_fields _ _ H) as (Hn & Hu & Hc & Hb);
  rewrite <- ?Hn, <- ?Hu, <- ?Hc, <- ?Hb.

Lemma obl_Internal env user body :
  oblivious g eq eq (Internal.handler env user body) (Internal.handler env user body).
Proof.
  unfold Internal.handler. apply obl_try_catch; [|intros; by apply obl_ret].
  destruct (negb _); [by apply obl_ret|].
  eapply obl_bind; [apply obl_Account_findOne|].
  intros ? ? [s1 s2 Hs|]; [|by apply obl_ret].
  obl_account_fields Hs.
  case_bool_decide; [by apply obl_ret|].
  eapply obl_bind; [apply obl_Account_findOne|].
  intros ? ? [r1 r2 Hr|]; [|by apply obl_ret].
  obl_account_fields Hr.
  case_bool_decide; [by apply obl_ret|].
  unfold hasSufficientFunds_value, hasSufficientFunds. rewrite <- Hb.
  destruct (negb _); [by apply obl_ret|].
  apply (obl_scope g eq Internal_flag_eq); [done|].
  eapply obl_bind.
  { apply (obl_on g Internal_flag_eq flag_eq);
      [by intros ?? (?&?&?) | | apply obl_debit_value].
    by intros ???? (?&?&?) ?. }
  intros _ _ _. eapply obl_bind.
  { apply (obl_on g Internal_flag_eq flag_eq);
      [by intros ?? (?&?&?) | | apply obl_credit_value].
    by intros ???? (?&?&?) ?. }
  intros _ _ _. eapply obl_bind.
  { apply (obl_on g Internal_flag_eq eq); [by intros ?? (?&?&?) | | apply obl_updateStatus].
    by intros ???? (?&?&?) ->. }
  intros _ _ _. eapply obl_bind; [apply obl_locals|].
  intros l1 l2 (_ & _ & ->). by apply obl_ret.
Qed.

Lemma obl_dispatch env amount payload signature :
  oblivious g External_flag_eq eq (External.dispatch env amount payload signature)
    (External.dispatch env amount payload signature).
Proof.
  assert (Hcredit : oblivious g External_flag_eq eq
            (on External.senderAccount External.set_senderAccount
               (credit_value env amount))
            (on External.senderAccount External.set_senderAccount
               (credit_value env amount))).
  { apply (obl_on g External_flag_eq flag_eq);
      [by intros ?? (?&?) | | apply obl_credit_value].
    by intros ???? (?&?) ?. }
  assert (Hfail : ∀ c m, oblivious g External_flag_eq eq
            (on External.transaction External.set_transaction (markFailed c m))
            (on External.transaction External.set_transaction (markFailed c m))).
  { intros c m.
    apply (obl_on g External_flag_eq eq); [by intros ?? (?&?) | | apply obl_updateStatus].
    by intros ???? (?&?) ->. }
  unfold External.dispatch. apply obl_try_catch.
  - destruct (CENTRAL_BANK_URL env); [|apply obl_throw].
    eapply obl_bind; [apply obl_emit|]. intros _ _ _.
    destruct (central_bank env payload signature) as [|status [| |code message]|[body|]];
      try apply obl_throw.
    + eapply obl_bind; [apply Hcredit|]. intros _ _ _. apply obl_throw.
    + eapply obl_bind; [apply Hcredit|]. intros _ _ _.
      eapply obl_bind; [apply Hfail|]. intros _ _ _.
      eapply obl_bind; [apply obl_locals|]. intros l1 l2 (_ & ->). by apply obl_ret.
    + eapply obl_bind; [apply obl_locals|]. intros l1 l2 (_ & ->). by apply obl_ret.
  - intros e. eapply obl_bind; [apply Hcredit|]. intros _ _ _.
    eapply obl_bind; [apply Hfail|]. intros _ _ _. apply obl_throw.
Qed.

Lemma obl_External env user body :
  oblivious g eq eq (External.handler env user body) (External.handler env user body).
Proof.
  unfold External.handler. apply obl_try_catch; [|intros; by apply obl_ret].
  destruct (negb _); [by apply obl_ret|].
  case_bool_decide; [by apply obl_ret|].
  eapply obl_bind; [apply obl_Account_findOne|].
  intros ? ? [s1 s2 Hs|]; [|by apply obl_ret].
  obl_account_fields Hs.
  case_bool_decide; [by apply obl_ret|].
  case_bool_decide; [by apply obl_ret|].
  unfold hasSufficientFunds_value, hasSufficientFunds. rewrite <- Hb.
  destruct (negb _); [by apply obl_ret|].
  apply (obl_scope g eq External_flag_eq); [done|].
  eapply obl_bind.
  { apply (obl_on g External_flag_eq eq); [by intros ?? (?&?) | | apply obl_Transaction_save].
    by intros ???? (?&?) ->. }
  intros _ _ _. eapply obl_bind; [apply obl_locals|].
  intros l1 l2 (Hl & ->). obl_account_fields Hl.
  eapply obl_bind; [apply obl_signTransaction|]. intros signature ? <-.
  eapply obl_bind.
  { apply obl_assign. intros ?? (?&->). by split. }
  intros _ _ _. eapply obl_bind.
  { apply (obl_on g External_flag_eq eq); [by intros ?? (?&?) | | apply obl_updateStatus].
    by intros ???? (?&?) ->. }
  intros _ _ _. eapply obl_bind.
  { apply (obl_on g External_flag_eq flag_eq);
      [by intros ?? (?&?) | | apply obl_debit_value].
    by intros ???? (?&?) ?. }
  intros _ _ _. apply obl_dispatch.
Qed.

Lemma obl_Incoming env body :
  oblivious g eq eq (Incoming.handler env body) (Incoming.handler env body).
Proof.
  unfold Incoming.handler. apply obl_try_catch; [|intros; by apply obl_ret].
  case_bool_decide; [by apply obl_ret|].
  eapply obl_bind; [apply obl_Transaction_findOne|].
  intros existing ? <-. destruct existing; [by apply obl_ret|].
  eapply obl_bind; [apply obl_verifySignature|].
  intros ok ? <-. destruct (negb ok); [by apply obl_ret|].
  eapply obl_bind; [apply obl_Account_findOne|].
  intros ? ? [r1 r2 Hr|]; [|by apply obl_ret].
  obl_account_fields Hr.
  case_bool_decide; [by apply obl_ret|].
  apply (obl_scope g eq Incoming_flag_eq); [done|].
  eapply obl_bind.
  { apply (obl_on g Incoming_flag_eq flag_eq);
      [by intros ?? (?&?) | | apply obl_credit_value].
    by intros ???? (?&?) ?. }
  intros _ _ _. eapply obl_bind.
  { apply (obl_on g Incoming_flag_eq eq); [by intros ?? (?&?) | | apply obl_updateStatus].
    by intros ???? (?&?) ->. }
  intros _ _ _. by apply obl_ret.
Qed.

Lemma respond_with_flags (handler : M unit Response) w :
  oblivious g eq eq handler handler →
  respond handler (with_flags g w)
  = (with_flags g (respond handler w).1, (respond handler w).2).
Proof.
  intros H. destruct (H () () w eq_refl) as (_ & Hw & Hr). unfold respond.
  destruct (handler ((), w)) as [[[] w1] r1],
    (handler ((), with_flags g w)) as [[[] w2] r2].
  simpl in *. subst w2. destruct r1, r2; simpl in *; by subst.
Qed.
End ObliviousHandlers.

Lemma Res_rel_eq {A} (r1 r2 : Res A) : Res_rel eq r1 r2 → r1 = r2.
Proof. destruct r1, r2; simpl; by intros; subst. Qed.

Lemma flag_eq_set_isActive f this : flag_eq this (Account.set_isActive f this).
Proof. by destruct this. Qed.

(** C10. The active flag is never consulted by the settlement paths:
    [debit] and [credit] on a document, and the three handlers on a
    world, have the same outcome (thrown error or success, response,
    balances, transaction records, effects) whatever the [isActive] flags
    are; the flags themselves are carried over untouched.  A deactivated
    account can send and receive funds. *)
Theorem isActive_never_consulted (g : string → bool) :
  (∀ op amount this f w,
     flag_eq (ledger op amount (this, w)).1.1
       (ledger op amount (Account.set_isActive f this, with_flags g w)).1.1
     ∧ (ledger op amount (Account.set_isActive f this, with_flags g w)).1.2
       = with_flags g (ledger op amount (this, w)).1.2
     ∧ (ledger op amount (Account.set_isActive f this, with_flags g w)).2
       = (ledger op amount (this, w)).2)
  ∧ (∀ env user body w,
       Internal.post env user body (with_flags g w)
       = (with_flags g (Internal.post env user body w).1,
          (Internal.post env user body w).2))
  ∧ (∀ env user body w,
       External.post env user body (with_flags g w)
       = (with_flags g (External.post env user body w).1,
          (External.post env user body w).2))
  ∧ (∀ env body w,
       Incoming.post env body (with_flags g w)
       = (with_flags g (Incoming.post env body w).1, (Incoming.post env body w).2)).
Proof.
  repeat split.
  - destruct op; [apply (obl_debit g amount) | apply (obl_credit g amount)];
      apply flag_eq_set_isActive.
  - destruct op; [apply (obl_debit g amount) | apply (obl_credit g amount)];
      apply flag_eq_set_isActive.
  - symmetry. apply Res_rel_eq.
    destruct op; [apply (obl_debit g amount) | apply (obl_credit g amount)];
      apply flag_eq_set_isActive.
  - intros. apply respond_with_flags, obl_Internal.
  - intros. apply respond_with_flags, obl_External.
  - intros. apply respond_with_flags, obl_Incoming.
Qed.


(** ** Signing and verification *)

Lemma signTransaction_eq {L} env payload (l : L) w :
  signTransaction env payload (l, w) =
    match private_key_file env with
    | None => ((l, w), Throw (Error_ "Private key not found"))
    | Some privateKey =>
        match jwt_sign payload privateKey with
        | Some token => ((l, emit EvReadPrivateKey w), Ok token)
        | None => ((l, emit EvReadPrivateKey w), Throw JsonWebTokenError)
        end
    end.
Proof.
  unfold signTransaction. munfold. simpl.
  destruct (private_key_file env); [|done]. by destruct (jwt_sign _ _).
Qed.

Lemma verifySignature_eq {L} env payload signature fromBank (l : L) w :
  ∃ w', accounts w' = accounts w ∧ transactions w' = transactions w
    ∧ faults w' = faults w
    ∧ verifySignature env payload signature fromBank (l, w) =
      ((l, w'),
       Ok (match resolved_key env fromBank with
           | Some publicKey => bool_decide (is_Some (jwt_verify signature publicKey))
           | None => false
           end)).
Proof.
  unfold verifySignature, resolved_key. munfold. simpl. case_bool_decide.
  - exists w. repeat split. destruct (public_key_file env) as [k|]; [|done].
    by destruct (jwt_verify signature k).
  - destruct (CENTRAL_BANK_URL env); [|by exists w].
    exists (emit (EvKeyLookup fromBank) w). repeat split.
    destruct (key_directory env fromBank) as [| | | |k]; try done.
    by destruct (jwt_verify signature k).
Qed.

(** [verifySignature] does not read its [payload] argument. *)
Lemma verifySignature_ignores_payload {L} env (p p' : Payload) signature fromBank
    (s : L * World) :
  verifySignature env p signature fromBank s
  = verifySignature env p' signature fromBank s.
Proof. reflexivity. Qed.

(** A token made by [signTransaction] passes [verifySignature] under the
    bank's own identifier, when the two key files hold one pair. *)
Lemma sign_then_verify {L} env kid (p : Payload) (l : L) w :
  private_key_file env = Some (RsaPrivate kid) →
  public_key_file env = Some (RsaPublic kid) →
  ∃ token w1 w2,
    signTransaction env p (l, w) = ((l, w1), Ok token)
    ∧ verifySignature env p token (BANK_PREFIX env) (l, w1) = ((l, w2), Ok true).
Proof.
  intros Hpriv Hpub. rewrite signTransaction_eq, Hpriv. simpl.
  eexists _, _. 
  destruct (verifySignature_eq env p (Signed p kid) (BANK_PREFIX env) l
              (emit EvReadPrivateKey w)) as (w2 & _ & _ & _ & Hrun).
  exists w2. split; [done|]. rewrite Hrun. unfold resolved_key.
  rewrite bool_decide_eq_true_2, Hpub by done. simpl.
  by rewrite (bool_decide_eq_true_2 (kid = kid)) by done.
Qed.

(** C1. Signature round-trip holds, tamper detection does not: the token
    that [signTransaction] makes for [sample_payload] passes
    [verifySignature] together with that payload, and passes it together
    with the same payload whose amount was changed from 50 to 5000. *)
Theorem verify_accepts_tampered_payload :
  ∃ token,
    (signTransaction (sample_env RelayUnreachable) sample_payload
       ((), sample_world [])).2 = Ok token
    ∧ (verifySignature (sample_env RelayUnreachable) sample_payload token "OVE"
         ((), sample_world [])).2 = Ok true
    ∧ Payload.set_amount (JNumber (Qc_of_Z 5000)) sample_payload ≠ sample_payload
    ∧ (verifySignature (sample_env RelayUnreachable)
         (Payload.set_amount (JNumber (Qc_of_Z 5000)) sample_payload) token "OVE"
         ((), sample_world [])).2 = Ok true.
Proof.
  exists (Signed sample_payload "OVE"). split; [|split; [|split]].
  - by_compute.
  - by_compute.
  - by vm_compute.
  - rewrite (verifySignature_ignores_payload _ _ sample_payload). by_compute.
Qed.

(** What follows from it on [POST /incoming]: a request of bank ABC whose
    amount was raised from 25 to 2500 after signing is accepted, and Alice
    is credited 2500. *)
Example incoming_accepts_tampered_amount :
  (Incoming.post (sample_env RelayUnreachable)
     (Incoming.mkRequest "a81d44c0" "ABC" "ABC-20000001" "OVE" "OVE-10000001"
        (JNumber (Qc_of_Z 2500)) "EUR" "invoice" "2025-01-02T00:00:00.000Z"
        (Signed (sample_incoming_payload (Qc_of_Z 25)) "ABC"))
     (sample_world [])).2 = RProcessed "a81d44c0"
  ∧ balance_of "OVE-10000001"
      (Incoming.post (sample_env RelayUnreachable)
         (Incoming.mkRequest "a81d44c0" "ABC" "ABC-20000001" "OVE" "OVE-10000001"
            (JNumber (Qc_of_Z 2500)) "EUR" "invoice" "2025-01-02T00:00:00.000Z"
            (Signed (sample_incoming_payload (Qc_of_Z 25)) "ABC"))
         (sample_world [])).1 = Some (Qc_of_Z 2600).
Proof. split; by_compute. Qed.

(** A request whose token was not made with the key of the bank it names
    is turned away and leaves no record. *)
Example incoming_forged_signature_rejected :
  (Incoming.post (sample_env RelayUnreachable)
     (Incoming.mkRequest "a81d44c0" "ABC" "ABC-20000001" "OVE" "OVE-10000001"
        (JNumber (Qc_of_Z 25)) "EUR" "invoice" "2025-01-02T00:00:00.000Z"
        (Signed (sample_incoming_payload (Qc_of_Z 25)) "XYZ"))
     (sample_world [])).2 = RError 400 "INVALID_SIGNATURE" (Some "a81d44c0")
  ∧ status_of "a81d44c0"
      (Incoming.post (sample_env RelayUnreachable)
         (Incoming.mkRequest "a81d44c0" "ABC" "ABC-20000001" "OVE" "OVE-10000001"
            (JNumber (Qc_of_Z 25)) "EUR" "invoice" "2025-01-02T00:00:00.000Z"
            (Signed (sample_incoming_payload (Qc_of_Z 25)) "XYZ"))
         (sample_world [])).1 = None
  ∧ balance_of "OVE-10000001"
      (Incoming.post (sample_env RelayUnreachable)
         (Incoming.mkRequest "a81d44c0" "ABC" "ABC-20000001" "OVE" "OVE-10000001"
            (JNumber (Qc_of_Z 25)) "EUR" "invoice" "2025-01-02T00:00:00.000Z"
            (Signed (sample_incoming_payload (Qc_of_Z 25)) "XYZ"))
         (sample_world [])).1 = Some (Qc_of_Z 100).
Proof. repeat split; by_compute. Qed.

(** C9. Verification is total and fails closed: [verifySignature] never
    throws and changes neither collection; its result is a boolean, which
    is [false] when no key is found (key file absent, central bank URL
    unset, key directory unreachable, answering an error, not JSON or
    without a key) and when [jwt.verify] throws on the key found
    (malformed key, malformed token or signature mismatch); it is [true]
    only when [jwt.verify] accepted the token under the key found. *)
Theorem verifySignature_total_fail_closed {L} (env : Env) (payload : Payload)
    (signature : Jws) (fromBank : string) (l : L) (w : World) :
  (∃ b w',
     verifySignature env payload signature fromBank (l, w) = ((l, w'), Ok b)
     ∧ accounts w' = accounts w ∧ transactions w' = transactions w)
  ∧ (fromBank = BANK_PREFIX env → public_key_file env = None →
     (verifySignature env payload signature fromBank (l, w)).2 = Ok false)
  ∧ (fromBank ≠ BANK_PREFIX env →
     (CENTRAL_BANK_URL env = None
      ∨ key_directory env fromBank = LookupUnreachable
      ∨ (∃ status, key_directory env fromBank = LookupNotOk status)
      ∨ key_directory env fromBank = LookupNotJson
      ∨ key_directory env fromBank = LookupNoKey) →
     (verifySignature env payload signature fromBank (l, w)).2 = Ok false)
  ∧ (∀ publicKey,
       resolved_key env fromBank = Some publicKey →
       jwt_verify signature publicKey = None →
       (verifySignature env payload signature fromBank (l, w)).2 = Ok false)
  ∧ ((verifySignature env payload signature fromBank (l, w)).2 = Ok true →
     ∃ publicKey claims,
       resolved_key env fromBank = Some publicKey
       ∧ jwt_verify signature publicKey = Some claims).
Proof.
  destruct (verifySignature_eq env payload signature fromBank l w)
    as (w' & Ha & Ht & _ & Hrun).
  rewrite Hrun. simpl. repeat split.
  - eauto.
  - intros Hself Hnone. unfold resolved_key.
    by rewrite bool_decide_eq_true_2, Hnone by done.
  - intros Hother Hfail. unfold resolved_key.
    rewrite bool_decide_eq_false_2 by done.
    destruct (CENTRAL_BANK_URL env); [|done].
    destruct Hfail as [?|[->|[[? ->]|[->| ->]]]]; done.
  - intros k -> Hv. by rewrite Hv.
  - destruct (resolved_key env fromBank) as [k|]; [|done].
    intros [= Hb]. apply bool_decide_eq_true_1 in Hb as [claims Hc]. eauto.
Qed.

Lemma verifySignature_total_fail_closed_witness :
  (verifySignature (sample_env RelayUnreachable) sample_payload
     (Signed sample_payload "XYZ") "XYZ" ((), sample_world [])).2 = Ok false.
Proof.
  destruct (verifySignature_total_fail_closed (sample_env RelayUnreachable)
              sample_payload (Signed sample_payload "XYZ") "XYZ" ()
              (sample_world [])) as (_ & _ & H & _).
  apply H.
  - by vm_compute.
  - right; right; left. exists 404%nat. by vm_compute.
Defined.

(** ** Internal transfers *)

Lemma currency_code_in_enum c : currency_code c ∈ currency_enum.
Proof. destruct c; unfold currency_enum; set_solver. Qed.

(** A value that passes [isFloat] reads as a Number of the range, and
    casts to that Number. *)
Lemma isFloat_number env min max amount :
  isFloat env min max amount = true →
  ∃ a, ToNumber env amount = Some a ∧ cast_amount env amount = Some a
       ∧ min ≤ a ∧ a ≤ max.
Proof.
  destruct amount as [n|s]; cbn [isFloat ToNumber cast_amount].
  - rewrite andb_true_iff, !bool_decide_eq_true. intros [? ?]. by exists n.
  - rewrite !andb_true_iff, negb_true_iff, bool_decide_eq_false.
    intros [[_ Hs] Hn].
    destruct (Number_of_string env s) as [n|] eqn:Hnum; [|done].
    apply andb_true_iff in Hn. rewrite !bool_decide_eq_true in Hn.
    exists n. unfold castNumber. rewrite Hnum.
    rewrite bool_decide_eq_false_2; [tauto|].
    intros ->. apply Hs. constructor.
Qed.

Lemma amount_in_range_Some a :
  min_amount ≤ a → a ≤ max_amount → amount_in_range (Some a) = true.
Proof. intros. unfold amount_in_range. by rewrite !bool_decide_eq_true_2. Qed.

Lemma Internal_valid_fields env body :
  Internal.valid env body = true →
  Internal.fromAccount body ≠ "" ∧ Internal.toAccount body ≠ ""
  ∧ ∃ a, ToNumber env (Internal.amount body) = Some a
         ∧ cast_amount env (Internal.amount body) = Some a
         ∧ min_amount ≤ a ∧ a ≤ max_amount.
Proof.
  unfold Internal.valid. rewrite !andb_true_iff, !bool_decide_eq_true.
  intros [[? ?] Hf]. split; [done|]. split; [done|]. by apply isFloat_number in Hf.
Qed.

Lemma min_amount_pos : 0 < min_amount.
Proof. by vm_compute. Qed.

Lemma Transaction_save_eq this w :
  Transaction_save (this, w) =
    match Transaction_validate this with
    | Some path => ((this, w), Throw (ValidationError path))
    | None =>
        match db_write (λ w,
                match Transaction.isNew this,
                      transactions w !! Transaction.transactionId this with
                | true, Some _ => Throw DuplicateKeyError
                | false, None => Throw DocumentNotFoundError
                | _, _ =>
                    Ok (emit (EvSaveTransaction (Transaction.transactionId this)
                                (Transaction.status this))
                          (set_transactions
                             (<[Transaction.transactionId this :=
                                  Transaction.set_isNew false this]>
                                (transactions w)) w))
                end) (this, w) with
        | (s, Throw e) => (s, Throw e)
        | ((l, w'), Ok _) => ((Transaction.set_isNew false l, w'), Ok ())
        end
    end.
Proof.
  unfold Transaction_save. munfold. cbn [fst snd].
  destruct (Transaction_validate this); [done|].
  by destruct (db_write _ _) as [[l w'] [[]|e]].
Qed.

Ltac hyp := match goal with H : ?P |- ?P => exact H end.

Ltac side_condition :=
  first
    [ hyp
    | apply Qclt_not_le; hyp
    | apply Qcle_not_lt; hyp
    | let H := fresh in intros H; apply H; hyp
    | by intros ?
    | done ].

Ltac pass_checks :=
  repeat first
    [ rewrite bool_decide_eq_false_2 by side_condition
    | rewrite bool_decide_eq_true_2 by side_condition ].

Lemma Internal_validate env user body s :
  Internal.valid env body = true → uuidv4 env ≠ "" → BANK_PREFIX env ≠ "" →
  Transaction_validate
    (Transaction.set_status COMPLETED None None
       (new_Transaction env (uuidv4 env) (Internal.fromAccount body)
          (Internal.toAccount body) (BANK_PREFIX env) (BANK_PREFIX env)
          (Internal.amount body) (currency_code (Account.row_currency s))
          (Internal.description body) true None user)) = None.
Proof.
  intros Hv Hu Hb.
  destruct (Internal_valid_fields _ _ Hv) as (Hfrom & Hto & a & _ & Hcast & Hmin & Hmax).
  unfold Transaction_validate. cbn. rewrite Hcast. pass_checks.
  rewrite amount_in_range_Some by done. cbn.
  rewrite bool_decide_eq_true_2; [done | apply currency_code_in_enum].
Qed.

Ltac msimpl :=
  cbn;
  try unfold emit; try unfold set_accounts; try unfold set_transactions;
  try unfold set_faults;
  cbn [fst snd accounts transactions faults log].

(** Symbolic evaluation of [POST /internal] on an accepted request whose
    amount is a JSON number, up to the first database write. *)
Ltac internal_prefix Hfaults :=
  lazymatch goal with
  | H : Internal_accepted ?env ?user ?body ?w ?s ?r,
    Ha : Internal.amount ?body = JNumber ?a |- _ =>
      let Hv := fresh "Hv" in let Hs := fresh "Hs" in let Hu := fresh "Hu" in
      let Hr := fresh "Hr" in let Hc := fresh "Hc" in let Hf := fresh "Hf" in
      let Hn := fresh "Hn" in let Hfresh := fresh "Hfresh" in
      let Huuid := fresh "Huuid" in let Hbank := fresh "Hbank" in
      let a' := fresh "a" in let Hnum := fresh "Hnum" in
      destruct H as [Hv Hs Hu Hr Hc Hf Hn Hfresh Huuid Hbank];
      destruct (Internal_valid_fields _ _ Hv) as (? & ? & a' & Hnum & _ & ? & ?);
      pose proof (Internal_validate env user body s Hv Huuid Hbank);
      rewrite Ha in *;
      cbn [ToNumber] in Hnum; injection Hnum as <-;
      unfold hasSufficientFunds_value, hasSufficientFunds in Hf;
      cbn [ToNumber Account.load Account.balance] in Hf;
      apply bool_decide_eq_true_1 in Hf;
      assert (0 < a) by (eapply Qclt_le_trans; [apply min_amount_pos | done]);
      pose proof (Qc_sub_nonneg _ _ Hf);
      assert (0 ≤ Account.row_balance r + a) by (by apply Qc_add_nonneg);
      destruct w as [? ? ? ?]; simpl in *;
      match type of Hfaults with ?x = _ => subst x end;
      unfold Internal.post, respond, Internal.handler;
      unfold try_catch at 1; unfold mbind, M_bind, bind;
      rewrite Hv; simpl negb; cbv iota;
      unfold Account_findOne; munfold; msimpl; rewrite Hs; msimpl;
      pass_checks; msimpl; rewrite Hr; msimpl; pass_checks;
      rewrite ?Ha;
      unfold hasSufficientFunds_value, hasSufficientFunds; msimpl; pass_checks; msimpl;
      unfold debit_value; cbn [ToNumber];
      rewrite debit_eq; msimpl; pass_checks;
      rewrite Account_save_eq; msimpl; pass_checks; unfold db_write; msimpl;
      rewrite ?Hs; msimpl
  end.

Ltac internal_credit :=
  cbn [credit_value];
  rewrite credit_eq; msimpl; pass_checks;
  rewrite Account_save_eq; msimpl; pass_checks; unfold db_write; msimpl;
  rewrite ?lookup_alter_ne by done;
  match goal with H : _ !! Internal.toAccount _ = Some _ |- _ => rewrite ?H end;
  msimpl.

Ltac internal_record :=
  unfold markCompleted, updateStatus; munfold; msimpl;
  rewrite Transaction_save_eq;
  match goal with H : Transaction_validate _ = None |- _ => rewrite H end;
  unfold db_write; msimpl;
  match goal with H : _ !! uuidv4 _ = None |- _ => rewrite ?H end;
  msimpl.

Lemma internal_all_writes_land env user body w s r a :
  Internal_accepted env user body w s r →
  Internal.amount body = JNumber a →
  Internal.fromAccount body ≠ Internal.toAccount body →
  faults w = [] →
  (Internal.post env user body w).2
  = RInternalCompleted (Internal_completed env user body s)
  ∧ balance_of (Internal.fromAccount body) (Internal.post env user body w).1
    = Some (Account.row_balance s - a)
  ∧ balance_of (Internal.toAccount body) (Internal.post env user body w).1
    = Some (Account.row_balance r + a)
  ∧ transactions (Internal.post env user body w).1
    = <[uuidv4 env := Internal_completed env user body s]> (transactions w)
  ∧ log (Internal.post env user body w).1
    = (log w ++
       [EvSaveAccount (Internal.fromAccount body) (Account.row_balance s - a);
        EvSaveAccount (Internal.toAccount body) (Account.row_balance r + a);
        EvSaveTransaction (uuidv4 env) COMPLETED])%list.
Proof.
  intros Hacc Ha Hne Hfaults. internal_prefix Hfaults. internal_credit. internal_record.
  unfold balance_of, Internal_completed. rewrite ?Ha. msimpl. repeat split.
  - by rewrite lookup_alter_ne, lookup_alter_eq, Hs by done.
  - by rewrite lookup_alter_eq, lookup_alter_ne, Hr by done.
  - by rewrite <- !app_assoc.
Qed.

Lemma internal_debit_write_fails env user body w s r a fs :
  Internal_accepted env user body w s r →
  Internal.amount body = JNumber a →
  faults w = true :: fs →
  (Internal.post env user body w).2 = RNext MongoNetworkError
  ∧ accounts (Internal.post env user body w).1 = accounts w
  ∧ transactions (Internal.post env user body w).1 = transactions w.
Proof. intros Hacc Ha Hfaults. by internal_prefix Hfaults. Qed.

Lemma internal_credit_write_fails env user body w s r a fs :
  Internal_accepted env user body w s r →
  Internal.amount body = JNumber a →
  Internal.fromAccount body ≠ Internal.toAccount body →
  faults w = false :: true :: fs →
  (Internal.post env user body w).2 = RNext MongoNetworkError
  ∧ balance_of (Internal.fromAccount body) (Internal.post env user body w).1
    = Some (Account.row_balance s - a)
  ∧ balance_of (Internal.toAccount body) (Internal.post env user body w).1
    = Some (Account.row_balance r)
  ∧ transactions (Internal.post env user body w).1 = transactions w.
Proof.
  intros Hacc Ha Hne Hfaults. internal_prefix Hfaults. internal_credit.
  unfold balance_of. msimpl. repeat split.
  - by rewrite lookup_alter_eq, Hs.
  - by rewrite lookup_alter_ne, Hr by done.
Qed.

Lemma internal_record_write_fails env user body w s r a fs :
  Internal_accepted env user body w s r →
  Internal.amount body = JNumber a →
  Internal.fromAccount body ≠ Internal.toAccount body →
  faults w = false :: false :: true :: fs →
  (Internal.post env user body w).2 = RNext MongoNetworkError
  ∧ balance_of (Internal.fromAccount body) (Internal.post env user body w).1
    = Some (Account.row_balance s - a)
  ∧ balance_of (Internal.toAccount body) (Internal.post env user body w).1
    = Some (Account.row_balance r + a)
  ∧ transactions (Internal.post env user body w).1 = transactions w.
Proof.
  intros Hacc Ha Hne Hfaults. internal_prefix Hfaults. internal_credit. internal_record.
  unfold balance_of. msimpl. repeat split.
  - by rewrite lookup_alter_ne, lookup_alter_eq, Hs by done.
  - by rewrite lookup_alter_eq, lookup_alter_ne, Hr by done.
Qed.

(** C2 (amended). An internal transfer between two distinct accounts that
    passes validation, with an amount sent as a JSON number, performs
    three separate writes, in this order: debit of the sender, credit of
    the recipient, insertion of the COMPLETED record.  When all three
    land, the sender is debited, the recipient is credited and the record
    is persisted.  When the first write fails, nothing is persisted.
    When a later write fails, the writes before it stay persisted: there
    is no rollback. *)
Theorem internal_transfer_three_writes env user body w s r a :
  Internal_accepted env user body w s r →
  Internal.amount body = JNumber a →
  Internal.fromAccount body ≠ Internal.toAccount body →
  (faults w = [] →
     (Internal.post env user body w).2
     = RInternalCompleted (Internal_completed env user body s)
     ∧ balance_of (Internal.fromAccount body) (Internal.post env user body w).1
       = Some (Account.row_balance s - a)
     ∧ balance_of (Internal.toAccount body) (Internal.post env user body w).1
       = Some (Account.row_balance r + a)
     ∧ transactions (Internal.post env user body w).1
       = <[uuidv4 env := Internal_completed env user body s]> (transactions w)
     ∧ log (Internal.post env user body w).1
       = (log w ++
          [EvSaveAccount (Internal.fromAccount body) (Account.row_balance s - a);
           EvSaveAccount (Internal.toAccount body) (Account.row_balance r + a);
           EvSaveTransaction (uuidv4 env) COMPLETED])%list)
  ∧ (∀ fs, faults w = true :: fs →
     (Internal.post env user body w).2 = RNext MongoNetworkError
     ∧ accounts (Internal.post env user body w).1 = accounts w
     ∧ transactions (Internal.post env user body w).1 = transactions w)
  ∧ (∀ fs, faults w = false :: true :: fs →
     (Internal.post env user body w).2 = RNext MongoNetworkError
     ∧ balance_of (Internal.fromAccount body) (Internal.post env user body w).1
       = Some (Account.row_balance s - a)
     ∧ balance_of (Internal.toAccount body) (Internal.post env user body w).1
       = Some (Account.row_balance r)
     ∧ transactions (Internal.post env user body w).1 = transactions w)
  ∧ (∀ fs, faults w = false :: false :: true :: fs →
     (Internal.post env user body w).2 = RNext MongoNetworkError
     ∧ balance_of (Internal.fromAccount body) (Internal.post env user body w).1
       = Some (Account.row_balance s - a)
     ∧ balance_of (Internal.toAccount body) (Internal.post env user body w).1
       = Some (Account.row_balance r + a)
     ∧ transactions (Internal.post env user body w).1 = transactions w).
Proof.
  intros Hacc Ha Hne. split; [|split; [|split]].
  - intros Hf. by apply (internal_all_writes_land env user body w s r a).
  - intros fs Hf. by apply (internal_debit_write_fails env user body w s r a fs).
  - intros fs Hf. by apply (internal_credit_write_fails env user body w s r a fs).
  - intros fs Hf. by apply (internal_record_write_fails env user body w s r a fs).
Qed.

(** The scenario of the specification: 50 units between accounts holding
    100 and 0 leave 50 and 50 and one COMPLETED record. *)
Lemma internal_transfer_three_writes_witness :
  balance_of "OVE-10000001"
    (Internal.post (sample_env RelayUnreachable) "alice" sample_internal
       (sample_world [])).1 = Some (Qc_of_Z 100 - Qc_of_Z 50)
  ∧ balance_of "OVE-10000002"
      (Internal.post (sample_env RelayUnreachable) "alice" sample_internal
         (sample_world [])).1 = Some (0 + Qc_of_Z 50)
  ∧ status_of "3f2b9c1e"
      (Internal.post (sample_env RelayUnreachable) "alice" sample_internal
         (sample_world [])).1 = Some COMPLETED.
Proof.
  destruct (internal_transfer_three_writes (sample_env RelayUnreachable) "alice"
              sample_internal (sample_world [])
              (Account.mkRow "alice" EUR (Qc_of_Z 100) true)
              (Account.mkRow "bob" EUR 0 true) (Qc_of_Z 50)) as (H & _).
  - split; by vm_compute.
  - reflexivity.
  - by vm_compute.
  - destruct H as (_ & Hfrom & Hto & Htx & _); [reflexivity|].
    split; [exact Hfrom|]. split; [exact Hto|].
    unfold status_of. rewrite Htx. by rewrite lookup_insert_eq.
Defined.

(** C2, as stated, fails: when the write of the credit fails, the debit
    of the sender stays persisted although the transfer failed. *)
Lemma internal_transfer_not_atomic :
  (Internal.post (sample_env RelayUnreachable) "alice" sample_internal
     (sample_world [false; true])).2 = RNext MongoNetworkError
  ∧ balance_of "OVE-10000001" (sample_world [false; true]) = Some (Qc_of_Z 100)
  ∧ balance_of "OVE-10000001"
      (Internal.post (sample_env RelayUnreachable) "alice" sample_internal
         (sample_world [false; true])).1 = Some (Qc_of_Z 50)
  ∧ balance_of "OVE-10000002"
      (Internal.post (sample_env RelayUnreachable) "alice" sample_internal
         (sample_world [false; true])).1 = Some 0
  ∧ status_of "3f2b9c1e"
      (Internal.post (sample_env RelayUnreachable) "alice" sample_internal
         (sample_world [false; true])).1 = None.
Proof. repeat split; by_compute. Qed.

(** Outside the amended statement: the handler does not compare the two
    account numbers.  A transfer of 50 from Alice to herself loads her
    document twice, writes 50 from the first copy and 150 from the second,
    and leaves her with 150. *)
Example internal_transfer_to_self :
  (Internal.post (sample_env RelayUnreachable) "alice"
     (Internal.mkRequest "OVE-10000001" "OVE-10000001" (JNumber (Qc_of_Z 50)) "")
     (sample_world [])).2
  = RInternalCompleted
      (Internal_completed (sample_env RelayUnreachable) "alice"
         (Internal.mkRequest "OVE-10000001" "OVE-10000001" (JNumber (Qc_of_Z 50)) "")
         (Account.mkRow "alice" EUR (Qc_of_Z 100) true))
  ∧ balance_of "OVE-10000001"
      (Internal.post (sample_env RelayUnreachable) "alice"
         (Internal.mkRequest "OVE-10000001" "OVE-10000001" (JNumber (Qc_of_Z 50)) "")
         (sample_world [])).1 = Some (Qc_of_Z 150).
Proof. split; by_compute. Qed.

(** Outside the amended statement as well: the validator of the amount
    tests the value and does not convert it.  The string ['50'] passes
    [isFloat]; the debit converts it and takes 50 from Alice; the credit
    appends it to the text of Bob's balance, and Bob, who held 100, is
    left with 10050.  The record is COMPLETED with the amount 50. *)
Example internal_transfer_string_amount :
  Internal.valid (sample_env RelayUnreachable)
    (Internal.mkRequest "OVE-10000001" "OVE-10000002" (JString "50") "rent") = true
  ∧ balance_of "OVE-10000002" sample_world_savers = Some (Qc_of_Z 100)
  ∧ balance_of "OVE-10000001"
      (Internal.post (sample_env RelayUnreachable) "alice"
         (Internal.mkRequest "OVE-10000001" "OVE-10000002" (JString "50") "rent")
         sample_world_savers).1 = Some (Qc_of_Z 50)
  ∧ balance_of "OVE-10000002"
      (Internal.post (sample_env RelayUnreachable) "alice"
         (Internal.mkRequest "OVE-10000001" "OVE-10000002" (JString "50") "rent")
         sample_world_savers).1 = Some (Qc_of_Z 10050)
  ∧ (Transaction.status <$>
       transactions
         (Internal.post (sample_env RelayUnreachable) "alice"
            (Internal.mkRequest "OVE-10000001" "OVE-10000002" (JString "50") "rent")
            sample_world_savers).1 !! "3f2b9c1e") = Some COMPLETED
  ∧ (Transaction.amount <$>
       transactions
         (Internal.post (sample_env RelayUnreachable) "alice"
            (Internal.mkRequest "OVE-10000001" "OVE-10000002" (JString "50") "rent")
            sample_world_savers).1 !! "3f2b9c1e") = Some (Some (Qc_of_Z 50)).
Proof. repeat split; by_compute. Qed.

(** * Further properties

    ** The outcome of each operation of the two models *)

(** The outcome of [save()] on an account in full: the document is left as
    it is; a throw leaves the store as it was. *)
Lemma Account_save_outcome this w :
  ∃ w', transactions w' = transactions w
    ∧ ((∃ e, Account_save (this, w) = ((this, w'), Throw e)
             ∧ accounts w' = accounts w ∧ log w' = log w)
       ∨ (Account_save (this, w) = ((this, w'), Ok ())
          ∧ 0 ≤ Account.balance this
          ∧ is_Some (accounts w !! Account.accountNumber this)
          ∧ accounts w' = alter (Account.set_row_balance (Account.balance this))
                            (Account.accountNumber this) (accounts w)
          ∧ log w' = (log w ++ [EvSaveAccount (Account.accountNumber this)
                                  (Account.balance this)])%list)).
Proof.
  destruct (Account_save_cases this w) as (w' & Hrun & Ht & Hout).
  exists w'. split; [done|]. rewrite Hrun.
  destruct (Account_save (this, w)).2 as [[]|e]; [right | left; exists e]; done.
Qed.

Lemma debit_outcome amount this w :
  ∃ w', transactions w' = transactions w
    ∧ ((∃ e this', debit amount (this, w) = ((this', w'), Throw e)
                   ∧ Account.accountNumber this' = Account.accountNumber this
                   ∧ accounts w' = accounts w ∧ log w' = log w)
       ∨ (debit amount (this, w)
          = ((Account.set_balance (Account.balance this - amount) this, w'), Ok ())
          ∧ 0 < amount ∧ amount ≤ Account.balance this
          ∧ is_Some (accounts w !! Account.accountNumber this)
          ∧ accounts w' = alter (Account.set_row_balance (Account.balance this - amount))
                            (Account.accountNumber this) (accounts w)
          ∧ log w' = (log w ++ [EvSaveAccount (Account.accountNumber this)
                                  (Account.balance this - amount)])%list)).
Proof.
  rewrite debit_eq. case_bool_decide as Hpos.
  { exists w. split; [done|]. left. by exists (Error_ "Debit amount must be positive"), this. }
  case_bool_decide as Hfunds.
  2:{ exists w. split; [done|]. left. by exists (Error_ "Insufficient funds"), this. }
  destruct (Account_save_outcome
              (Account.set_balance (Account.balance this - amount) this) w)
    as (w' & Ht & [(e & Hrun & Ha & Hl)|(Hrun & Hb & Hs & Ha & Hl)]); exists w';
    (split; [done|]); rewrite Hrun.
  - left. by eexists e, _.
  - right. apply Qcnot_le_lt in Hpos. by repeat split.
Qed.

Lemma credit_outcome amount this w :
  ∃ w', transactions w' = transactions w
    ∧ ((∃ e this', credit amount (this, w) = ((this', w'), Throw e)
                   ∧ Account.accountNumber this' = Account.accountNumber this
                   ∧ (this' = this
                      ∨ 0 < amount
                        ∧ this' = Account.set_balance (Account.balance this + amount) this)
                   ∧ accounts w' = accounts w ∧ log w' = log w)
       ∨ (credit amount (this, w)
          = ((Account.set_balance (Account.balance this + amount) this, w'), Ok ())
          ∧ 0 < amount ∧ 0 ≤ Account.balance this + amount
          ∧ is_Some (accounts w !! Account.accountNumber this)
          ∧ accounts w' = alter (Account.set_row_balance (Account.balance this + amount))
                            (Account.accountNumber this) (accounts w)
          ∧ log w' = (log w ++ [EvSaveAccount (Account.accountNumber this)
                                  (Account.balance this + amount)])%list)).
Proof.
  rewrite credit_eq. case_bool_decide as Hpos.
  { exists w. split; [done|]. left.
    exists (Error_ "Credit amount must be positive"), this. auto. }
  apply Qcnot_le_lt in Hpos.
  destruct (Account_save_outcome
              (Account.set_balance (Account.balance this + amount) this) w)
    as (w' & Ht & [(e & Hrun & Ha & Hl)|(Hrun & Hb & Hs & Ha & Hl)]); exists w';
    (split; [done|]); rewrite Hrun.
  - left. eexists e, _. repeat split; auto.
  - right. by repeat split.
Qed.

(** [debit] on the value of a request: it throws, or the value reads as
    a Number and that Number is debited. *)
Lemma debit_value_outcome env amount this w :
  ∃ w', transactions w' = transactions w
    ∧ ((∃ e this', debit_value env amount (this, w) = ((this', w'), Throw e)
                   ∧ Account.accountNumber this' = Account.accountNumber this
                   ∧ accounts w' = accounts w ∧ log w' = log w)
       ∨ (∃ a, ToNumber env amount = Some a
          ∧ debit_value env amount (this, w)
            = ((Account.set_balance (Account.balance this - a) this, w'), Ok ())
          ∧ 0 < a ∧ a ≤ Account.balance this
          ∧ is_Some (accounts w !! Account.accountNumber this)
          ∧ accounts w' = alter (Account.set_row_balance (Account.balance this - a))
                            (Account.accountNumber this) (accounts w)
          ∧ log w' = (log w ++ [EvSaveAccount (Account.accountNumber this)
                                  (Account.balance this - a)])%list)).
Proof.
  unfold debit_value. destruct (ToNumber env amount) as [a|].
  - destruct (debit_outcome a this w) as (w' & Ht & [H|H]); exists w';
      (split; [done|]); [by left | right; by exists a].
  - exists w. split; [done|]. left. by exists (Error_ "Insufficient funds"), this.
Qed.

(** [credit] on the value of a request: it throws and persists nothing,
    or it writes a balance that passed the validator, which for a JSON
    number is the balance before plus the number. *)
Lemma credit_value_outcome env amount this w :
  ∃ w', transactions w' = transactions w
    ∧ ((∃ e this', credit_value env amount (this, w) = ((this', w'), Throw e)
                   ∧ Account.accountNumber this' = Account.accountNumber this
                   ∧ accounts w' = accounts w ∧ log w' = log w)
       ∨ (∃ b, credit_value env amount (this, w)
               = ((Account.set_balance b this, w'), Ok ())
          ∧ 0 ≤ b
          ∧ (∀ a, ToNumber env amount = Some a → 0 < a)
          ∧ (∀ n, amount = JNumber n → b = Account.balance this + n)
          ∧ is_Some (accounts w !! Account.accountNumber this)
          ∧ accounts w' = alter (Account.set_row_balance b)
                            (Account.accountNumber this) (accounts w)
          ∧ log w' = (log w ++ [EvSaveAccount (Account.accountNumber this) b])%list)).
Proof.
  destruct amount as [n|s]; cbn [credit_value].
  - destruct (credit_outcome n this w)
      as (w' & Ht & [(e & this' & Hrun & Hn & _ & Ha & Hl)
                    |(Hrun & Hpos & Hb & Hs & Ha & Hl)]); exists w'; (split; [done|]).
    + left. by exists e, this'.
    + right. exists (Account.balance this + n).
      split; [done|]. split; [done|]. split; [by intros ? [= <-]|].
      split; [by intros ? [= <-]|]. done.
  - destruct (match Number_of_string env s with Some _ => _ | None => _ end) eqn:Hle.
    { exists w. split; [done|]. left.
      by exists (Error_ "Credit amount must be positive"), this. }
    assert (Hpos : ∀ a, Number_of_string env s = Some a → 0 < a).
    { intros a Ha. rewrite Ha in Hle. apply bool_decide_eq_false_1 in Hle.
      by apply Qcnot_le_lt. }
    unfold mbind, M_bind, bind, locals. cbn [fst snd].
    destruct (castNumber env _) as [b|].
    2:{ exists w. split; [done|]. left. by exists (ValidationError "balance"), this. }
    unfold assign. cbn [fst snd].
    destruct (Account_save_outcome (Account.set_balance b this) w)
      as (w' & Ht & [(e & Hrun & Ha & Hl)|(Hrun & Hb & Hs & Ha & Hl)]); exists w';
      (split; [done|]); rewrite Hrun.
    + left. by eexists e, _.
    + right. exists b.
      split; [done|]. split; [done|]. split; [done|]. split; [by intros ? [=]|]. done.
Qed.

Lemma Transaction_save_outcome this w :
  ∃ w', accounts w' = accounts w
    ∧ ((∃ e, Transaction_save (this, w) = ((this, w'), Throw e)
             ∧ transactions w' = transactions w ∧ log w' = log w)
       ∨ (Transaction_save (this, w) = ((Transaction.set_isNew false this, w'), Ok ())
          ∧ Transaction_validate this = None
          ∧ (if Transaction.isNew this
             then transactions w !! Transaction.transactionId this = None
             else is_Some (transactions w !! Transaction.transactionId this))
          ∧ transactions w'
            = <[Transaction.transactionId this := Transaction.set_isNew false this]>
                (transactions w)
          ∧ log w' = (log w ++ [EvSaveTransaction (Transaction.transactionId this)
                                  (Transaction.status this)])%list)).
Proof.
  rewrite Transaction_save_eq. destruct (Transaction_validate this) as [path|] eqn:Hval.
  { exists w. split; [done|]. left. by exists (ValidationError path). }
  match goal with |- context [db_write ?f _] =>
    destruct (db_write_cases f this w) as (w0 & Ha & Ht & Hl & [[e He]|(w' & Hw & He)])
  end; rewrite He; simpl.
  - exists w0. split; [done|]. left. by exists e.
  - rewrite Ht in Hw. exists w'.
    destruct (Transaction.isNew this) eqn:Hnew,
      (transactions w !! Transaction.transactionId this) eqn:Hid;
      try done; injection Hw as <-; simpl; rewrite ?Ha, ?Ht, ?Hl;
      (split; [done|]); right; by repeat split.
Qed.

Lemma updateStatus_outcome status errorCode errorMessage this w :
  ∃ w', accounts w' = accounts w
    ∧ ((∃ e, updateStatus status errorCode errorMessage (this, w)
             = ((Transaction.set_status status errorCode errorMessage this, w'), Throw e)
             ∧ transactions w' = transactions w ∧ log w' = log w)
       ∨ (updateStatus status errorCode errorMessage (this, w)
          = ((Transaction.set_isNew false
                (Transaction.set_status status errorCode errorMessage this), w'), Ok ())
          ∧ Transaction_validate this = None
          ∧ (if Transaction.isNew this
             then transactions w !! Transaction.transactionId this = None
             else is_Some (transactions w !! Transaction.transactionId this))
          ∧ transactions w'
            = <[Transaction.transactionId this :=
                  Transaction.set_isNew false
                    (Transaction.set_status status errorCode errorMessage this)]>
                (transactions w)
          ∧ log w' = (log w ++ [EvSaveTransaction (Transaction.transactionId this)
                                  status])%list)).
Proof.
  unfold updateStatus. munfold. cbn [fst snd].
  destruct (Transaction_save_outcome
              (Transaction.set_status status errorCode errorMessage this) w)
    as (w' & Ha & [(e & Hrun & Ht & Hl)|(Hrun & Hval & Hnew & Ht & Hl)]);
    exists w'; (split; [done|]); rewrite Hrun.
  - left. by exists e.
  - right. by repeat split.
Qed.

Lemma Account_findOne_bind {L A} k (f : option Account → M L A) l w :
  (Account_findOne k ≫= f) (l, w) = f (Account.load k <$> accounts w !! k) (l, w).
Proof. reflexivity. Qed.

(** ** Stable properties are kept by every handler *)

Section Keeps.
Context (R : World → Prop) (HR : stable R).
Context {L : Type}.

Lemma keeps_ret {A} (a : A) : keeps (L:=L) R (mret a).
Proof. by intros l w. Qed.

Lemma keeps_throw {A} e : keeps (L:=L) (A:=A) R (throw e).
Proof. by intros l w. Qed.

Lemma keeps_locals : keeps (L:=L) R locals.
Proof. by intros l w. Qed.

Lemma keeps_world : keeps (L:=L) R world.
Proof. by intros l w. Qed.

Lemma keeps_assign f : keeps (L:=L) R (assign f).
Proof. by intros l w. Qed.

Lemma keeps_bind {A B} (m : M L A) (k : A → M L B) :
  keeps R m → (∀ a, keeps R (k a)) → keeps R (m ≫= k).
Proof.
  intros Hm Hk l w Hw. unfold mbind, M_bind, bind. specialize (Hm l w Hw).
  destruct (m (l, w)) as [[l' w'] [a|e]]; [by apply Hk | done].
Qed.

Lemma keeps_try_catch {A} (m : M L A) h :
  keeps R m → (∀ e, keeps R (h e)) → keeps R (try_catch m h).
Proof.
  intros Hm Hh l w Hw. unfold try_catch. specialize (Hm l w Hw).
  destruct (m (l, w)) as [[l' w'] [a|e]]; [done | by apply Hh].
Qed.

Lemma keeps_emit e : keeps (L:=L) R (effect (emit e)).
Proof. intros l w Hw. by apply (stable_emit R HR). Qed.

Lemma keeps_db_write write :
  (∀ w w', R w → write w = Ok w' → R w') → keeps (L:=L) R (db_write write).
Proof.
  intros Hwrite l w Hw. unfold db_write.
  destruct (faults w) as [|[] fs]; simpl.
  - destruct (write w) eqn:E; simpl; eauto.
  - by apply (stable_faults R HR).
  - pose proof (stable_faults R HR w fs Hw).
    destruct (write (set_faults fs w)) eqn:E; simpl; eauto.
Qed.
End Keeps.

Lemma keeps_on {L D A} R (get : L → D) (set : D → L → L) (m : M D A) :
  keeps R m → keeps R (on get set m).
Proof.
  intros Hm l w Hw. unfold on. specialize (Hm (get l) w Hw). simpl.
  by destruct (m (get l, w)) as [[d w'] r].
Qed.

Lemma keeps_scope {L L' A} R (l0 : L') (m : M L' A) :
  keeps R m → keeps (L:=L) R (scope l0 m).
Proof.
  intros Hm l w Hw. unfold scope. specialize (Hm l0 w Hw). simpl.
  by destruct (m (l0, w)) as [[d w'] r].
Qed.

Section KeepsModels.
Context (R : World → Prop) (HR : stable R).

Lemma keeps_Account_findOne {L} k : keeps (L:=L) R (Account_findOne k).
Proof. by intros l w. Qed.

Lemma keeps_Transaction_findOne {L} k : keeps (L:=L) R (Transaction_findOne k).
Proof. by intros l w. Qed.

Lemma keeps_Account_save : keeps R Account_save.
Proof.
  unfold Account_save. apply keeps_bind; [apply keeps_locals|]. intros this.
  case_bool_decide as Hneg; [apply keeps_throw|].
  apply keeps_db_write; [done|]. intros w w' Hw.
  destruct (accounts w !! Account.accountNumber this) as [r|] eqn:Hr; [|done].
  intros [= <-]. apply (stable_emit R HR).
  apply (stable_balance R HR _ _ r); [done..|]. by apply Qcnot_lt_le.
Qed.

Lemma keeps_credit amount : keeps R (credit amount).
Proof.
  unfold credit. case_bool_decide; [apply keeps_throw|].
  apply keeps_bind; [apply keeps_assign | intros; apply keeps_Account_save].
Qed.

Lemma keeps_debit amount : keeps R (debit amount).
Proof.
  unfold debit. case_bool_decide; [apply keeps_throw|].
  apply keeps_bind; [apply keeps_locals|]. intros this.
  destruct (negb _); [apply keeps_throw|].
  apply keeps_bind; [apply keeps_assign | intros; apply keeps_Account_save].
Qed.

Lemma keeps_debit_value env amount : keeps R (debit_value env amount).
Proof.
  unfold debit_value. destruct (ToNumber env amount); [apply keeps_debit | apply keeps_throw].
Qed.

Lemma keeps_credit_value env amount : keeps R (credit_value env amount).
Proof.
  destruct amount as [n|s]; [apply keeps_credit|]. cbn [credit_value].
  destruct (match Number_of_string env s with Some _ => _ | None => _ end);
    [apply keeps_throw|].
  apply keeps_bind; [apply keeps_locals|]. intros this.
  destruct (castNumber env _); [|apply keeps_throw].
  apply keeps_bind; [apply keeps_assign | intros; apply keeps_Account_save].
Qed.

Lemma keeps_Transaction_save : keeps R Transaction_save.
Proof.
  unfold Transaction_save. apply keeps_bind; [apply keeps_locals|]. intros this.
  destruct (Transaction_validate this) eqn:Hval; [apply keeps_throw|].
  apply keeps_bind; [|intros; apply keeps_assign].
  apply keeps_db_write; [done|]. intros w w' Hw Hrun.
  assert (w' = emit (EvSaveTransaction (Transaction.transactionId this)
                       (Transaction.status this))
                 (set_transactions
                    (<[Transaction.transactionId this := Transaction.set_isNew false this]>
                       (transactions w)) w)) as ->.
  { destruct (Transaction.isNew this), (transactions w !! _); by simplify_eq. }
  apply (stable_emit R HR). by apply (stable_record R HR).
Qed.

Lemma keeps_updateStatus status errorCode errorMessage :
  keeps R (updateStatus status errorCode errorMessage).
Proof.
  unfold updateStatus.
  apply keeps_bind; [apply keeps_assign | intros; apply keeps_Transaction_save].
Qed.

Lemma keeps_signTransaction {L} env payload : keeps (L:=L) R (signTransaction env payload).
Proof.
  unfold signTransaction. apply keeps_try_catch; [|intros; apply keeps_throw].
  destruct (private_key_file env); [|apply keeps_throw].
  apply keeps_bind; [by apply keeps_emit|]. intros _.
  destruct (jwt_sign _ _); [apply keeps_ret | apply keeps_throw].
Qed.

Lemma keeps_verifySignature {L} env payload signature fromBank :
  keeps (L:=L) R (verifySignature env payload signature fromBank).
Proof.
  unfold verifySignature. apply keeps_try_catch; [|intros; apply keeps_ret].
  case_bool_decide.
  - destruct (public_key_file env); [|apply keeps_throw].
    destruct (jwt_verify _ _); [apply keeps_ret | apply keeps_throw].
  - destruct (CENTRAL_BANK_URL env); [|apply keeps_throw].
    apply keeps_bind; [by apply keeps_emit|]. intros _.
    destruct (key_directory env fromBank); try apply keeps_throw.
    destruct (jwt_verify _ _); [apply keeps_ret | apply keeps_throw].
Qed.

Ltac keeps_step :=
  first
    [ apply keeps_ret | apply keeps_throw | apply keeps_locals
    | apply keeps_Account_findOne | apply keeps_Transaction_findOne
    | apply keeps_assign
    | apply keeps_emit; assumption
    | apply keeps_on; first [ apply keeps_debit_value | apply keeps_credit_value
                            | apply keeps_updateStatus | apply keeps_Transaction_save ]
    | apply keeps_signTransaction | apply keeps_verifySignature
    | apply keeps_scope
    | apply keeps_try_catch; [|intros ?] ].

Ltac keeps_bind := apply keeps_bind; [keeps_step|].

Ltac keeps_walk := repeat first [ keeps_step | apply keeps_bind; [|intros ?] ].

Lemma keeps_Internal env user body : keeps R (Internal.handler env user body).
Proof.
  unfold Internal.handler. keeps_step; [|keeps_step].
  destruct (negb _); [keeps_step|].
  keeps_bind. intros [sender|]; [|keeps_step].
  case_bool_decide; [keeps_step|].
  keeps_bind. intros [recipient|]; [|keeps_step].
  case_bool_decide; [keeps_step|].
  destruct (negb _); [keeps_step|].
  unfold markCompleted. keeps_walk.
Qed.

Lemma keeps_dispatch env amount payload signature :
  keeps R (External.dispatch env amount payload signature).
Proof.
  unfold External.dispatch, markFailed. keeps_step; [|keeps_walk].
  destruct (CENTRAL_BANK_URL env); [|keeps_step].
  keeps_bind. intros _.
  destruct (central_bank env payload signature) as [|status [| |code message]|[body|]];
    keeps_walk.
Qed.

Lemma keeps_External env user body : keeps R (External.handler env user body).
Proof.
  unfold External.handler. keeps_step; [|keeps_step].
  destruct (negb _); [keeps_step|].
  case_bool_decide; [keeps_step|].
  keeps_bind. intros [sender|]; [|keeps_step].
  case_bool_decide; [keeps_step|].
  case_bool_decide; [keeps_step|].
  destruct (negb _); [keeps_step|].
  unfold markInProgress. apply keeps_scope.
  apply keeps_bind; [apply keeps_on, keeps_Transaction_save|]. intros _.
  apply keeps_bind; [apply keeps_locals|]. intros l.
  apply keeps_bind; [apply keeps_signTransaction|]. intros signature.
  apply keeps_bind; [apply keeps_assign|]. intros _.
  apply keeps_bind; [apply keeps_on, keeps_updateStatus|]. intros _.
  apply keeps_bind; [apply keeps_on, keeps_debit_value|]. intros _.
  apply keeps_dispatch.
Qed.

Lemma keeps_Incoming env body : keeps R (Incoming.handler env body).
Proof.
  unfold Incoming.handler. keeps_step; [|keeps_step].
  case_bool_decide; [keeps_step|].
  keeps_bind. intros [existing|]; [keeps_step|].
  keeps_bind. intros isSignatureValid. destruct (negb _); [keeps_step|].
  keeps_bind. intros [recipient|]; [|keeps_step].
  case_bool_decide; [keeps_step|].
  unfold markCompleted. keeps_walk.
Qed.

Lemma keeps_respond (handler : M unit Response) w :
  keeps R handler → R w → R (respond handler w).1.
Proof.
  intros H Hw. specialize (H () w Hw). unfold respond.
  by destruct (handler ((), w)) as [[[] w'] [r|e]].
Qed.
End KeepsModels.

(** ** The footprint of an external transfer *)

Section Inv.
Context {L : Type} (I : L * World → Prop).

Lemma inv_ret {A} (a : A) : inv I (mret a).
Proof. by intros s. Qed.

Lemma inv_throw {A} e : inv (A:=A) I (throw e).
Proof. by intros s. Qed.

Lemma inv_locals : inv I locals.
Proof. by intros s. Qed.

Lemma inv_bind {A B} (m : M L A) (k : A → M L B) :
  inv I m → (∀ a, inv I (k a)) → inv I (m ≫= k).
Proof.
  intros Hm Hk s Hs. unfold mbind, M_bind, bind. specialize (Hm s Hs).
  destruct (m s) as [s' [a|e]]; [by apply Hk | done].
Qed.

Lemma inv_try_catch {A} (m : M L A) h :
  inv I m → (∀ e, inv I (h e)) → inv I (try_catch m h).
Proof.
  intros Hm Hh s Hs. unfold try_catch. specialize (Hm s Hs).
  destruct (m s) as [s' [a|e]]; [done | by apply Hh].
Qed.
End Inv.

Lemma ledger_frame op amount this w :
  Account.accountNumber (ledger op amount (this, w)).1.1 = Account.accountNumber this
  ∧ transactions (ledger op amount (this, w)).1.2 = transactions w
  ∧ (∀ k, k ≠ Account.accountNumber this →
       accounts (ledger op amount (this, w)).1.2 !! k = accounts w !! k)
  ∧ (∀ k, Account.set_row_balance 0 <$> accounts (ledger op amount (this, w)).1.2 !! k
          = Account.set_row_balance 0 <$> accounts w !! k).
Proof.
  assert (Halter : ∀ b k, Account.set_row_balance 0 <$>
      alter (Account.set_row_balance b) (Account.accountNumber this) (accounts w) !! k
      = Account.set_row_balance 0 <$> accounts w !! k).
  { intros b k. destruct (decide (k = Account.accountNumber this)) as [->|Hk].
    - rewrite lookup_alter_eq. by destruct (accounts w !! _).
    - by rewrite lookup_alter_ne. }
  destruct op; simpl.
  - destruct (debit_outcome amount this w)
      as (w' & Ht & [(e & this' & Hrun & Hn & Ha & _)|(Hrun & _ & _ & _ & Ha & _)]);
      rewrite Hrun; cbn [fst snd]; rewrite Ha; repeat split; try done.
    intros k Hk. by rewrite lookup_alter_ne.
  - destruct (credit_outcome amount this w)
      as (w' & Ht & [(e & this' & Hrun & Hn & _ & Ha & _)|(Hrun & _ & _ & _ & Ha & _)]);
      rewrite Hrun; cbn [fst snd]; rewrite Ha; repeat split; try done.
    intros k Hk. by rewrite lookup_alter_ne.
Qed.

Lemma ledger_own_balance_only op amount : own_balance_only (ledger op amount).
Proof. intros this w. apply ledger_frame. Qed.

Lemma debit_value_own_balance_only env amount :
  own_balance_only (debit_value env amount).
Proof.
  unfold debit_value. destruct (ToNumber env amount) as [a|].
  - apply (ledger_own_balance_only Debit).
  - by intros this w.
Qed.

Lemma credit_value_own_balance_only env amount :
  own_balance_only (credit_value env amount).
Proof.
  intros this w.
  destruct (credit_value_outcome env amount this w)
    as (w' & Ht & [(e & this' & Hrun & Hn & Ha & _)|(b & Hrun & _ & _ & _ & _ & Ha & _)]);
    rewrite Hrun; cbn [fst snd]; rewrite Ha; repeat split; try done.
  - intros k Hk. by rewrite lookup_alter_ne.
  - intros k. destruct (decide (k = Account.accountNumber this)) as [->|Hk].
    + rewrite lookup_alter_eq. by destruct (accounts w !! _).
    + by rewrite lookup_alter_ne.
Qed.

Section ExternalFootprint.
Context (from id user : string) (w0 : World).
Local Abbreviation I := (External_inv from id user w0).

Lemma External_footprint_refl : External_footprint from id user w0 w0.
Proof. split; auto. Qed.

Lemma ext_inv_emit e : inv I (effect (emit e)).
Proof.
  intros [l w] (? & ? & ? & [? ? ? ?]).
  split; [done|]. split; [done|]. split; [done|]. by split.
Qed.

Lemma ext_inv_ledger {A} (m : M Account A) :
  own_balance_only m →
  inv I (on External.senderAccount External.set_senderAccount m).
Proof.
  intros Hm [l w]. unfold External_inv at 1. cbn [fst snd].
  intros (Hn & Hrec & Hnew & [Ha Hs Ho Hr]). unfold on. cbn [fst snd].
  destruct (Hm (External.senderAccount l) w) as (Hn' & Ht & Ha' & Hs').
  destruct (m _) as [[d w'] r]. cbn [fst snd] in *.
  rewrite Hn in *. split; [done|]. split; [done|]. split; [done|].
  split; cbn [fst snd]; rewrite ?Ht; try done.
  - intros k Hk. by rewrite Ha', Ha.
  - by rewrite Hs', Hs.
Qed.

Lemma ext_inv_save :
  inv I (on External.transaction External.set_transaction Transaction_save).
Proof.
  intros [l w]. unfold External_inv at 1. cbn [fst snd].
  intros (Hn & Hrec & Hnew & [Ha Hs Ho Hr]). unfold on. cbn [fst snd].
  destruct (Transaction_save_outcome (External.transaction l) w)
    as (w' & Ha' & [(e & -> & Ht & _)|(-> & _ & Hfresh & Ht & _)]); cbn [fst snd].
  - destruct l. (split; [|split; [|split; [|split]]]); cbn [fst snd];
      rewrite ?Ha', ?Ht; done.
  - destruct Hrec as [Hid Hst Hint Hu]. rewrite Hid in *.
    assert (Hnone : transactions w0 !! id = None).
    { destruct (Transaction.isNew (External.transaction l)); [|by apply Hnew].
      destruct Hr as [<-|[? _]]; done. }
    split; [done|]. split; [by split|]. split; [done|].
    split; cbn [fst snd]; rewrite ?Ha', ?Ht; try done.
    + intros i Hi. rewrite lookup_insert_ne by done. by apply Ho.
    + right. split; [done|]. eexists. rewrite lookup_insert_eq. split; [done|].
      by split.
Qed.

Lemma ext_inv_updateStatus status errorCode errorMessage :
  status ≠ COMPLETED →
  inv I (on External.transaction External.set_transaction
           (updateStatus status errorCode errorMessage)).
Proof.
  intros Hstatus. unfold updateStatus.
  intros [l w] HI. unfold on, mbind, M_bind, bind, assign. cbn [fst snd].
  pose proof (ext_inv_save
    (External.set_transaction
       (Transaction.set_status status errorCode errorMessage (External.transaction l)) l,
     w)) as H.
  unfold on in H. cbn [fst snd External.transaction External.set_transaction] in H.
  destruct (Transaction_save _) as [[d w'] r].
  cbn [fst snd External.transaction External.set_transaction] in *.
  destruct HI as (Hn & [Hid Hst Hint Hu] & Hnew & Hfp). 
  destruct l as [sender tx]. apply H. (split; [|split; [|split]]); done.
Qed.

Lemma ext_inv_signTransaction env payload : inv I (signTransaction env payload).
Proof.
  unfold signTransaction. apply inv_try_catch; [|intros; apply inv_throw].
  destruct (private_key_file env); [|apply inv_throw].
  apply inv_bind; [apply ext_inv_emit|]. intros _.
  destruct (jwt_sign _ _); [apply inv_ret | apply inv_throw].
Qed.

Lemma ext_inv_dispatch env amount payload signature :
  inv I (External.dispatch env amount payload signature).
Proof.
  pose proof (ext_inv_ledger _ (credit_value_own_balance_only env amount)) as Hcredit.
  unfold External.dispatch, markFailed. apply inv_try_catch.
  - destruct (CENTRAL_BANK_URL env); [|apply inv_throw].
    apply inv_bind; [apply ext_inv_emit|]. intros _.
    destruct (central_bank env payload signature) as [|status [| |code message]|[body|]];
      try apply inv_throw.
    + apply inv_bind; [done|]. intros _. apply inv_throw.
    + apply inv_bind; [done|]. intros _.
      apply inv_bind; [by apply ext_inv_updateStatus|]. intros _.
      apply inv_bind; [apply inv_locals|]. intros l. apply inv_ret.
    + apply inv_bind; [apply inv_locals|]. intros l. apply inv_ret.
  - intros e. apply inv_bind; [done|]. intros _.
    apply inv_bind; [by apply ext_inv_updateStatus|]. intros _. apply inv_throw.
Qed.

Lemma ext_inv_body env body :
  inv I
    (on External.transaction External.set_transaction Transaction_save;;
     l ← locals;
     let transactionPayload :=
       Payload.mk (Transaction.transactionId (External.transaction l))
         (BANK_PREFIX env) (Account.accountNumber (External.senderAccount l))
         (External.toBank body) (External.toAccount body) (External.amount body)
         (External.currency body) (External.description body) (now env) in
     signature ← signTransaction env transactionPayload;
     assign (λ l, External.set_transaction
                    (Transaction.set_signature signature (External.transaction l)) l);;
     on External.transaction External.set_transaction markInProgress;;
     on External.senderAccount External.set_senderAccount
       (debit_value env (External.amount body));;
     External.dispatch env (External.amount body) transactionPayload signature).
Proof.
  apply inv_bind; [apply ext_inv_save|]. intros _.
  apply inv_bind; [apply inv_locals|]. intros l.
  apply inv_bind; [apply ext_inv_signTransaction|]. intros signature.
  apply inv_bind.
  { intros [[sender tx] w] (Hn & [Hid Hst Hint Hu] & Hnew & Hfp).
    (split; [|split; [|split]]); done. }
  intros _. apply inv_bind; [by apply ext_inv_updateStatus|]. intros _.
  apply inv_bind; [apply ext_inv_ledger, debit_value_own_balance_only|]. intros _.
  apply ext_inv_dispatch.
Qed.
End ExternalFootprint.

Section Returns.
Context {L A : Type} (Q : A → Prop).

Lemma returns_ret a : Q a → returns (L:=L) Q (mret a).
Proof. intros Ha s a'. by intros [= <-]. Qed.

Lemma returns_throw e : returns (L:=L) Q (throw e).
Proof. by intros s a. Qed.

Lemma returns_bind {B} (m : M L B) (k : B → M L A) :
  (∀ b, returns Q (k b)) → returns Q (m ≫= k).
Proof.
  intros Hk s a. unfold mbind, M_bind, bind.
  destruct (m s) as [s' [b|e]]; [apply Hk | done].
Qed.

Lemma returns_try_catch (m : M L A) h :
  returns Q m → (∀ e, returns Q (h e)) → returns Q (try_catch m h).
Proof.
  intros Hm Hh s a. unfold try_catch. specialize (Hm s).
  destruct (m s) as [s' [b|e]]; [apply Hm | apply Hh].
Qed.
End Returns.

Lemma returns_scope {L L' A} (Q : A → Prop) (l0 : L') (m : M L' A) :
  returns Q m → returns (L:=L) Q (scope l0 m).
Proof.
  intros Hm s a. unfold scope. specialize (Hm (l0, s.2) a).
  by destruct (m (l0, s.2)) as [[l w] r].
Qed.

Lemma dispatch_returns env amount payload signature :
  returns not_an_error (External.dispatch env amount payload signature).
Proof.
  unfold External.dispatch. apply returns_try_catch.
  - destruct (CENTRAL_BANK_URL env); [|apply returns_throw].
    apply returns_bind. intros _.
    destruct (central_bank env payload signature) as [|status [| |code message]|[body|]];
      try apply returns_throw.
    + apply returns_bind. intros _. apply returns_throw.
    + do 3 (apply returns_bind; intros ?). by apply returns_ret.
    + apply returns_bind; intros ?. by apply returns_ret.
  - intros e. do 2 (apply returns_bind; intros ?). apply returns_throw.
Qed.

Lemma external_body_returns env body :
  returns not_an_error
    (on External.transaction External.set_transaction Transaction_save;;
     l ← locals;
     let transactionPayload :=
       Payload.mk (Transaction.transactionId (External.transaction l))
         (BANK_PREFIX env) (Account.accountNumber (External.senderAccount l))
         (External.toBank body) (External.toAccount body) (External.amount body)
         (External.currency body) (External.description body) (now env) in
     signature ← signTransaction env transactionPayload;
     assign (λ l, External.set_transaction
                    (Transaction.set_signature signature (External.transaction l)) l);;
     on External.transaction External.set_transaction markInProgress;;
     on External.senderAccount External.set_senderAccount
       (debit_value env (External.amount body));;
     External.dispatch env (External.amount body) transactionPayload signature).
Proof.
  apply returns_bind. intros _. apply returns_bind. intros l.
  apply returns_bind. intros signature.
  do 3 (apply returns_bind; intros _). apply dispatch_returns.
Qed.

Lemma external_outcomes env user body w :
  (∃ status code, External.post env user body w = (w, RError status code None))
  ∨ ∃ s,
      External.valid env body = true
      ∧ External.toBank body ≠ BANK_PREFIX env
      ∧ accounts w !! External.fromAccount body = Some s
      ∧ Account.row_user s = user
      ∧ currency_code (Account.row_currency s) = External.currency body
      ∧ hasSufficientFunds_value env (Account.load (External.fromAccount body) s)
          (External.amount body) = true
      ∧ External_footprint (External.fromAccount body) (uuidv4 env) user w
          (External.post env user body w).1
      ∧ not_an_error (External.post env user body w).2.
Proof.
  remember (External.post env user body w) as out eqn:Hout. revert Hout.
  unfold External.post, respond, External.handler.
  unfold try_catch at 1.
  destruct (External.valid env body) eqn:Hvalid; cbn [negb];
    [|intros ->; left; by eexists _, _].
  case_bool_decide as Hbank; [intros ->; left; by eexists _, _|].
  rewrite Account_findOne_bind.
  destruct (accounts w !! External.fromAccount body) as [s|] eqn:Hs;
    cbn [fmap option_fmap option_map]; [|intros ->; left; by eexists _, _].
  case_bool_decide as Howner; [intros ->; left; by eexists _, _|].
  case_bool_decide as Hcur; [intros ->; left; by eexists _, _|].
  destruct (hasSufficientFunds_value env _ _) eqn:Hfunds; cbn [negb];
    [|intros ->; left; by eexists _, _].
  intros ->. right. exists s. repeat (split; [done|]).
  match goal with |- context [scope ?l0 ?m] =>
    pose proof (ext_inv_body (External.fromAccount body) (uuidv4 env) user w env body
                  (l0, w)) as Hinv;
    pose proof (external_body_returns env body (l0, w)) as Hret
  end.
  unfold scope. cbn [fst snd] in *.
  match type of Hinv with _ → External_inv _ _ _ _ (?run).1 =>
    destruct run as [[l' w'] [r|e]] eqn:Hrun
  end; cbn [fst snd mret M_ret ret].
  - destruct Hinv as (_ & _ & _ & Hfp).
    { split; [done|]. split; [by split|]. split; [done|]. apply External_footprint_refl. }
    split; [done|]. by apply Hret.
  - destruct Hinv as (_ & _ & _ & Hfp); [|done].
    split; [done|]. split; [by split|]. split; [done|]. apply External_footprint_refl.
Qed.

(** ** External transfers *)

Lemma External_valid_fields env body :
  External.valid env body = true →
  External.fromAccount body ≠ "" ∧ External.toAccount body ≠ ""
  ∧ External.toBank body ≠ ""
  ∧ External.currency body ∈ currency_enum
  ∧ ∃ a, ToNumber env (External.amount body) = Some a
         ∧ cast_amount env (External.amount body) = Some a
         ∧ min_amount ≤ a ∧ a ≤ max_amount.
Proof.
  unfold External.valid. rewrite !andb_true_iff, !bool_decide_eq_true.
  intros [[[[? ?] ?] Hf] ?]. repeat (split; [done|]). by apply isFloat_number in Hf.
Qed.

Lemma External_validate env user body :
  External.valid env body = true → uuidv4 env ≠ "" → BANK_PREFIX env ≠ "" →
  Transaction_validate
    (new_Transaction env (uuidv4 env) (External.fromAccount body)
       (External.toAccount body) (BANK_PREFIX env) (External.toBank body)
       (External.amount body) (External.currency body)
       (External.description body) false None user) = None.
Proof.
  intros Hv Hu Hb.
  destruct (External_valid_fields _ _ Hv) as (? & ? & ? & ? & a & _ & Hcast & ? & ?).
  unfold Transaction_validate. cbn. rewrite Hcast. pass_checks.
  rewrite amount_in_range_Some by done. cbn. by pass_checks.
Qed.

(** Symbolic evaluation of [POST /external] on a request that passes the
    checks, up to the insertion of the PENDING record.  [Hnum] tells the
    Number that the amount reads as. *)
Ltac external_prefix Hfaults Hnum :=
  lazymatch goal with
  | H : External_accepted ?env ?user ?body ?w ?s ?kid |- _ =>
      let Hv := fresh "Hv" in let Hd := fresh "Hd" in let Hs := fresh "Hs" in
      let Hu := fresh "Hu" in let Hc := fresh "Hc" in let Hf := fresh "Hf" in
      let Hfresh := fresh "Hfresh" in let Huuid := fresh "Huuid" in
      let Hbank := fresh "Hbank" in let Hkey := fresh "Hkey" in
      let Hurl := fresh "Hurl" in let url := fresh "url" in
      let Hnum' := fresh "Hnum" in
      destruct H as [Hv Hd Hs Hu Hc Hf Hfresh Huuid Hbank Hkey [url Hurl]];
      pose proof (External_validate env user body Hv Huuid Hbank) as Hval;
      destruct (External_valid_fields _ _ Hv) as (? & ? & ? & ? & ? & Hnum' & _ & ? & ?);
      rewrite Hnum in Hnum'; injection Hnum' as <-;
      unfold hasSufficientFunds_value, hasSufficientFunds in Hf;
      rewrite Hnum in Hf; cbn [Account.load Account.balance] in Hf;
      apply bool_decide_eq_true_1 in Hf;
      match type of Hnum with _ = Some ?a =>
        assert (0 < a) by (eapply Qclt_le_trans; [apply min_amount_pos | done])
      end;
      pose proof (Qc_sub_nonneg _ _ Hf);
      destruct w as [? ? ? ?]; cbn [accounts transactions faults log] in *;
      match type of Hfaults with ?x = _ => subst x end;
      unfold External.post, respond, External.handler;
      unfold try_catch at 1; unfold mbind, M_bind, bind;
      rewrite Hv; simpl negb; cbv iota; pass_checks;
      unfold Account_findOne; munfold; msimpl; rewrite Hs; msimpl;
      pass_checks; msimpl;
      unfold hasSufficientFunds_value, hasSufficientFunds; rewrite ?Hnum;
      msimpl; pass_checks; msimpl;
      rewrite Transaction_save_eq;
      match type of Hval with ?lhs = None => change (Transaction_validate _) with lhs end;
      rewrite Hval; unfold db_write; msimpl;
      rewrite ?Hfresh; msimpl
  end.
Lemma external_until_dispatch env user body w s kid a :
  External_accepted env user body w s kid →
  ToNumber env (External.amount body) = Some a →
  faults w = [] →
  External.post env user body w
  = respond
      (scope
         (External.mkLocals
            (Account.set_balance (Account.row_balance s - a)
               (Account.load (External.fromAccount body) s))
            (External_record env user body kid IN_PROGRESS None None))
         (External.dispatch env (External.amount body) (External_payload env body)
            (Signed (External_payload env body) kid)))
      (mkWorld
         (alter (Account.set_row_balance (Account.row_balance s - a))
            (External.fromAccount body) (accounts w))
         (<[uuidv4 env := External_record env user body kid IN_PROGRESS None None]>
            (transactions w))
         []
         (log w ++
          [EvSaveTransaction (uuidv4 env) PENDING; EvReadPrivateKey;
           EvSaveTransaction (uuidv4 env) IN_PROGRESS;
           EvSaveAccount (External.fromAccount body) (Account.row_balance s - a)])).
Proof.
  intros Hacc Hnum Hfaults. external_prefix Hfaults Hnum.
  rewrite signTransaction_eq, Hkey. msimpl.
  unfold markInProgress, updateStatus. munfold. msimpl.
  rewrite Transaction_save_eq.
  match type of Hval with ?lhs = None => change (Transaction_validate _) with lhs end.
  rewrite Hval.
  unfold db_write. msimpl. rewrite lookup_insert_eq. msimpl.
  unfold debit_value. rewrite Hnum.
  rewrite debit_eq. msimpl. pass_checks.
  rewrite Account_save_eq. msimpl. pass_checks. unfold db_write. msimpl.
  rewrite Hs. msimpl. rewrite insert_insert_eq, <- !app_assoc. cbn [app].
  match goal with |- context [External.dispatch ?e ?am ?p ?sg ?st] =>
    set (d := External.dispatch e am p sg st)
  end.
  unfold respond, scope. cbn [fst snd].
  change (External.dispatch _ _ _ _ _) with d.
  by destruct d as [[l' w'] [r|e]].
Qed.

Lemma respond_scope_world {L} (l0 : L) (m : M L Response) w :
  (respond (scope l0 m) w).1 = (m (l0, w)).1.2.
Proof. unfold respond, scope. cbn [fst snd]. by destruct (m (l0, w)) as [[? ?] [?|?]]. Qed.

(** The log only grows: the events that were logged stay, in their
    order. *)
Lemma stable_log_prefix (events : list Event) :
  stable (λ w, ∃ rest, log w = (events ++ rest)%list).
Proof.
  split.
  - by intros w fs.
  - intros w e [rest Hlog]. exists (rest ++ [e])%list.
    cbn [emit log]. by rewrite Hlog, app_assoc.
  - by intros w k r b.
  - by intros w t.
Qed.

(** Once the URL of the central bank is read, the dispatch is the first
    thing that [dispatch] logs. *)
Lemma dispatch_log env amount payload signature url l w :
  CENTRAL_BANK_URL env = Some url →
  ∃ rest,
    log (External.dispatch env amount payload signature (l, w)).1.2
    = (log w ++ EvDispatch (Payload.transactionId payload) :: rest)%list.
Proof.
  intros Hurl.
  set (R := λ w' : World,
         ∃ rest, log w' = ((log w ++ [EvDispatch (Payload.transactionId payload)])
                           ++ rest)%list).
  assert (HR : stable R) by apply stable_log_prefix.
  assert (Hcredit : keeps R (on External.senderAccount External.set_senderAccount
                               (credit_value env amount)))
    by apply keeps_on, keeps_credit_value, HR.
  assert (Hstatus : ∀ c m, keeps R (on External.transaction External.set_transaction
                                      (updateStatus FAILED c m)))
    by (intros; apply keeps_on, keeps_updateStatus, HR).
  assert (Hgoal : R (External.dispatch env amount payload signature (l, w)).1.2).
  { unfold External.dispatch, markFailed. rewrite Hurl.
    match goal with |- R (try_catch (?m ≫= ?k) ?h (l, w)).1.2 =>
      change (R (try_catch (k ()) h
                   (l, emit (EvDispatch (Payload.transactionId payload)) w)).1.2)
    end.
    apply keeps_try_catch.
    - destruct (central_bank env payload signature)
        as [|status [| |code message]|[body|]]; try apply keeps_throw.
      + apply keeps_bind; [done|]. intros _. apply keeps_throw.
      + apply keeps_bind; [done|]. intros _.
        apply keeps_bind; [done|]. intros _.
        apply keeps_bind; [apply keeps_locals|]. intros ?. apply keeps_ret.
      + apply keeps_bind; [apply keeps_locals|]. intros ?. apply keeps_ret.
    - intros e. apply keeps_bind; [done|]. intros _.
      apply keeps_bind; [done|]. intros _. apply keeps_throw.
    - exists []. cbn [emit log]. by rewrite app_nil_r. }
  destruct Hgoal as [rest Hlog]. exists rest. by rewrite Hlog, <- app_assoc.
Qed.

(** The record of an external transfer keeps its identity through the
    dispatch: the status and the error fields change at most. *)
Section ExternalRecord.
Context (env : Env) (user : string) (body : External.Request) (kid : string).
Local Abbreviation T := (External_record env user body kid).
Local Abbreviation I :=
  (λ s : External.Locals * World,
     (∃ status errorCode errorMessage,
        External.transaction s.1 = T status errorCode errorMessage)
     ∧ ∃ status errorCode errorMessage,
         transactions s.2 !! uuidv4 env = Some (T status errorCode errorMessage)).

Lemma record_inv_sender {A} (m : M Account A) :
  own_balance_only m →
  inv I (on External.senderAccount External.set_senderAccount m).
Proof.
  intros Hm [l w] [Hl Hw]. unfold on. cbn [fst snd] in *.
  destruct (Hm (External.senderAccount l) w) as (_ & Ht & _).
  destruct (m _) as [[d w'] r]. cbn [fst snd] in *. rewrite Ht. by destruct l.
Qed.

Lemma record_inv_updateStatus status errorCode errorMessage :
  inv I (on External.transaction External.set_transaction
           (updateStatus status errorCode errorMessage)).
Proof.
  intros [l w] [(st & c & m & Hl) Hw]. unfold on. cbn [fst snd] in *.
  destruct (updateStatus_outcome status errorCode errorMessage (External.transaction l) w)
    as (w' & _ & [(e & -> & Ht & _)|(-> & _ & _ & Ht & _)]); cbn [fst snd];
    rewrite Ht, Hl; (split; [by exists status, errorCode, errorMessage|]).
  - done.
  - exists status, errorCode, errorMessage. by rewrite lookup_insert_eq.
Qed.

Lemma record_inv_dispatch amount payload signature :
  inv I (External.dispatch env amount payload signature).
Proof.
  pose proof (record_inv_sender _ (credit_value_own_balance_only env amount)) as Hcredit.
  unfold External.dispatch, markFailed. apply inv_try_catch.
  - destruct (CENTRAL_BANK_URL env); [|apply inv_throw].
    apply inv_bind; [by intros [l w]|]. intros _.
    destruct (central_bank env payload signature) as [|status [| |code message]|[r|]];
      try apply inv_throw.
    + apply inv_bind; [done|]. intros _. apply inv_throw.
    + apply inv_bind; [done|]. intros _.
      apply inv_bind; [apply record_inv_updateStatus|]. intros _.
      apply inv_bind; [apply inv_locals|]. intros l. apply inv_ret.
    + apply inv_bind; [apply inv_locals|]. intros l. apply inv_ret.
  - intros e. apply inv_bind; [done|]. intros _.
    apply inv_bind; [apply record_inv_updateStatus|]. intros _. apply inv_throw.
Qed.
End ExternalRecord.

(** C8 (amended). External outgoing step order: an external transfer that
    passes validation persists the record as PENDING, then signs the
    canonical payload, attaches the signature and moves the record to
    IN_PROGRESS, then debits the sender by the Number that the amount
    reads as, then dispatches to the central bank.  The debit comes after
    the signing and the IN_PROGRESS transition, not before.  The
    persisted record carries the signature of the canonical payload. *)
Theorem external_step_order env user body w s kid :
  External_accepted env user body w s kid →
  faults w = [] →
  (∃ a rest,
     ToNumber env (External.amount body) = Some a
     ∧ log (External.post env user body w).1
       = (log w ++
          [EvSaveTransaction (uuidv4 env) PENDING;
           EvReadPrivateKey;
           EvSaveTransaction (uuidv4 env) IN_PROGRESS;
           EvSaveAccount (External.fromAccount body) (Account.row_balance s - a);
           EvDispatch (uuidv4 env)] ++ rest)%list)
  ∧ (∃ status errorCode errorMessage,
       transactions (External.post env user body w).1 !! uuidv4 env
       = Some (External_record env user body kid status errorCode errorMessage)).
Proof.
  intros Hacc Hfaults.
  destruct (External_valid_fields _ _ (ea_valid _ _ _ _ _ _ Hacc))
    as (_ & _ & _ & _ & a & Hnum & _).
  destruct (ea_url _ _ _ _ _ _ Hacc) as [url Hurl].
  rewrite (external_until_dispatch env user body w s kid a Hacc Hnum Hfaults).
  rewrite respond_scope_world. split.
  - exists a.
    match goal with |- context [External.dispatch ?e ?am ?p ?sg (?l, ?w1)] =>
      destruct (dispatch_log e am p sg url l w1 Hurl) as [rest Hlog]
    end.
    exists rest. split; [done|]. rewrite Hlog. cbn [log]. by rewrite <- app_assoc.
  - match goal with |- context [External.dispatch ?e ?am ?p ?sg ?st] =>
      destruct (record_inv_dispatch env user body kid am p sg st) as [_ Hrec]
    end; [|done].
    cbn [fst snd External.transaction transactions]. split; [by eauto|].
    rewrite lookup_insert_eq. eauto.
Qed.

Lemma external_step_order_witness :
  ∃ rest,
    log (External.post (sample_env (RelayAccepted (Some "accepted"))) "alice"
           sample_external (sample_world [])).1
    = ([] ++
       [EvSaveTransaction "3f2b9c1e" PENDING;
        EvReadPrivateKey;
        EvSaveTransaction "3f2b9c1e" IN_PROGRESS;
        EvSaveAccount "OVE-10000001" (Qc_of_Z 100 - Qc_of_Z 50);
        EvDispatch "3f2b9c1e"] ++ rest)%list.
Proof.
  destruct (external_step_order (sample_env (RelayAccepted (Some "accepted"))) "alice"
              sample_external (sample_world [])
              (Account.mkRow "alice" EUR (Qc_of_Z 100) true) "OVE")
    as [(a & rest & Hnum & Hlog) _].
  - split; try by vm_compute. by eexists.
  - reflexivity.
  - exists rest. injection Hnum as <-. exact Hlog.
Defined.

(** C8, as stated, fails: the sender is debited after the record moved to
    IN_PROGRESS, not between PENDING and the signing. *)
Lemma external_debit_after_in_progress :
  log (External.post (sample_env (RelayAccepted (Some "accepted"))) "alice"
         sample_external (sample_world [])).1
  = [EvSaveTransaction "3f2b9c1e" PENDING;
     EvReadPrivateKey;
     EvSaveTransaction "3f2b9c1e" IN_PROGRESS;
     EvSaveAccount "OVE-10000001" (Qc_of_Z 50);
     EvDispatch "3f2b9c1e"].
Proof. by_compute. Qed.

Lemma alter_set_row_balance_twice b1 b2 k (m : gmap string Account.row) :
  alter (Account.set_row_balance b2) k (alter (Account.set_row_balance b1) k m)
  = alter (Account.set_row_balance b2) k m.
Proof.
  apply map_eq. intros i. destruct (decide (i = k)) as [->|Hne].
  - rewrite !lookup_alter_eq. by destruct (m !! k).
  - by rewrite !lookup_alter_ne.
Qed.

Ltac external_credit Hs :=
  cbn [credit_value];
  rewrite credit_eq; msimpl; pass_checks;
  rewrite Account_save_eq; msimpl; pass_checks; unfold db_write; msimpl;
  rewrite ?lookup_alter_eq, ?Hs; msimpl.

Ltac external_markFailed Hval :=
  unfold markFailed, updateStatus; munfold; msimpl;
  rewrite Transaction_save_eq;
  match type of Hval with ?lhs = None => change (Transaction_validate _) with lhs end;
  rewrite Hval; unfold db_write; msimpl; rewrite ?lookup_insert_eq; msimpl.

Ltac external_done Hrelay :=
  unfold External_outcome; rewrite Hrelay;
  unfold emit, set_transactions, set_accounts;
  cbn [accounts transactions faults log];
  rewrite ?alter_set_row_balance_twice, ?insert_insert_eq, <- ?app_assoc;
  reflexivity.

(** The closed form of the outcome, for an amount sent as a JSON number. *)
Lemma external_outcome env user body w s kid a :
  External_accepted env user body w s kid →
  External.amount body = JNumber a →
  faults w = [] →
  External.post env user body w = External_outcome env user body a s kid w.
Proof.
  intros Hacc Ha Hfaults.
  assert (Hnum : ToNumber env (External.amount body) = Some a) by by rewrite Ha.
  rewrite (external_until_dispatch env user body w s kid a Hacc Hnum Hfaults).
  destruct Hacc as [Hv Hd Hs Hu Hc Hf Hfresh Huuid Hbank Hkey [url Hurl]].
  pose proof (External_validate env user body Hv Huuid Hbank) as Hval.
  destruct (External_valid_fields _ _ Hv) as (? & ? & ? & ? & ? & Hnum' & _ & ? & ?).
  rewrite Hnum in Hnum'. injection Hnum' as <-.
  unfold hasSufficientFunds_value, hasSufficientFunds in Hf.
  rewrite Hnum in Hf. cbn [Account.load Account.balance] in Hf.
  apply bool_decide_eq_true_1 in Hf.
  assert (0 < a) by (eapply Qclt_le_trans; [apply min_amount_pos | done]).
  pose proof (Qc_sub_nonneg _ _ Hf).
  assert (0 ≤ Account.row_balance s - a + a) by by apply Qc_add_nonneg.
  assert (0 ≤ Account.row_balance s - a + a + a) by by apply Qc_add_nonneg.
  rewrite Ha. unfold respond, scope, External.dispatch. munfold. msimpl.
  rewrite Hurl. msimpl.
  change (central_bank env _ _)
    with (central_bank env (External_payload env body)
            (Signed (External_payload env body) kid)).
  destruct (central_bank env _ _) as [|status [| |code message]|[responseData|]] eqn:Hrelay;
    msimpl.
  - external_credit Hs. external_markFailed Hval. external_done Hrelay.
  - external_credit Hs. external_markFailed Hval. external_done Hrelay.
  - external_credit Hs. external_credit Hs. external_markFailed Hval.
    external_done Hrelay.
  - external_credit Hs. external_markFailed Hval. external_done Hrelay.
  - external_done Hrelay.
  - external_credit Hs. external_markFailed Hval. external_done Hrelay.
Qed.

(** On the paths the handler names, the compensation does what it should:
    when the central bank rejects with an error object, or cannot be
    reached, and every write lands, the sender is credited back once, by
    the amount that was debited, the record is FAILED with the error of
    the central bank, or with CENTRAL_BANK_ERROR, and the credit-back is
    written before the status. *)
Lemma external_compensation env user body w s kid a :
  External_accepted env user body w s kid →
  External.amount body = JNumber a →
  faults w = [] →
  (∀ status code message,
     central_bank env (External_payload env body)
       (Signed (External_payload env body) kid)
     = RelayRejected status (RejectError code message) →
     (External.post env user body w).2 = RRelayError status code message (uuidv4 env)
     ∧ balance_of (External.fromAccount body) (External.post env user body w).1
       = Some (Account.row_balance s - a + a)
     ∧ transactions (External.post env user body w).1 !! uuidv4 env
       = Some (External_record env user body kid FAILED code message)
     ∧ ∃ before,
         log (External.post env user body w).1
         = (before ++
            [EvSaveAccount (External.fromAccount body) (Account.row_balance s - a + a);
             EvSaveTransaction (uuidv4 env) FAILED])%list)
  ∧ (central_bank env (External_payload env body)
       (Signed (External_payload env body) kid) = RelayUnreachable →
     (External.post env user body w).2 = RNext FetchError
     ∧ balance_of (External.fromAccount body) (External.post env user body w).1
       = Some (Account.row_balance s - a + a)
     ∧ transactions (External.post env user body w).1 !! uuidv4 env
       = Some (External_record env user body kid FAILED (Some "CENTRAL_BANK_ERROR")
                 (Some "Failed to communicate with central bank"))
     ∧ ∃ before,
         log (External.post env user body w).1
         = (before ++
            [EvSaveAccount (External.fromAccount body) (Account.row_balance s - a + a);
             EvSaveTransaction (uuidv4 env) FAILED])%list).
Proof.
  intros Hacc Ha Hfaults.
  rewrite (external_outcome env user body w s kid a Hacc Ha Hfaults).
  destruct Hacc as [_ _ Hs _ _ _ _ _ _ _ _].
  unfold External_outcome, balance_of. split.
  - intros status code message ->. cbn [fst snd accounts transactions log].
    rewrite lookup_alter_eq, Hs, lookup_insert_eq. repeat split.
    eexists (log w ++ [_; _; _; _; _])%list. by rewrite <- !app_assoc.
  - intros ->. cbn [fst snd accounts transactions log].
    rewrite lookup_alter_eq, Hs, lookup_insert_eq. repeat split.
    eexists (log w ++ [_; _; _; _; _])%list. by rewrite <- !app_assoc.
Qed.

(** C3. The compensation can run twice.  (1) The central bank rejects with
    a JSON body that has no [error] member: the sender, debited 50 from
    100, is credited back twice and ends with 150, and the record is
    FAILED with CENTRAL_BANK_ERROR.  (2) The central bank rejects with
    INSUFFICIENT_FUNDS and the write of the FAILED status fails (fifth
    write): the sender again ends with 150. *)
Theorem external_rejection_credits_twice :
  (balance_of "OVE-10000001" (sample_world []) = Some (Qc_of_Z 100)
   ∧ balance_of "OVE-10000001"
       (External.post (sample_env (RelayRejected 400 RejectNoError)) "alice"
          sample_external (sample_world [])).1 = Some (Qc_of_Z 150)
   ∧ transactions
       (External.post (sample_env (RelayRejected 400 RejectNoError)) "alice"
          sample_external (sample_world [])).1 !! "3f2b9c1e"
     = Some (External_record (sample_env (RelayRejected 400 RejectNoError)) "alice"
               sample_external "OVE" FAILED (Some "CENTRAL_BANK_ERROR")
               (Some "Failed to communicate with central bank"))
   ∧ log (External.post (sample_env (RelayRejected 400 RejectNoError)) "alice"
            sample_external (sample_world [])).1
     = [EvSaveTransaction "3f2b9c1e" PENDING;
        EvReadPrivateKey;
        EvSaveTransaction "3f2b9c1e" IN_PROGRESS;
        EvSaveAccount "OVE-10000001" (Qc_of_Z 50);
        EvDispatch "3f2b9c1e";
        EvSaveAccount "OVE-10000001" (Qc_of_Z 100);
        EvSaveAccount "OVE-10000001" (Qc_of_Z 150);
        EvSaveTransaction "3f2b9c1e" FAILED]
   ∧ (External.post (sample_env (RelayRejected 400 RejectNoError)) "alice"
        sample_external (sample_world [])).2 = RNext TypeError)
  ∧ (balance_of "OVE-10000001"
       (External.post
          (sample_env (RelayRejected 400
             (RejectError (Some "INSUFFICIENT_FUNDS") (Some "Insufficient funds"))))
          "alice" sample_external
          (sample_world [false; false; false; false; true])).1 = Some (Qc_of_Z 150)
     ∧ status_of "3f2b9c1e"
         (External.post
            (sample_env (RelayRejected 400
               (RejectError (Some "INSUFFICIENT_FUNDS") (Some "Insufficient funds"))))
            "alice" sample_external
            (sample_world [false; false; false; false; true])).1 = Some FAILED
     ∧ (External.post
          (sample_env (RelayRejected 400
             (RejectError (Some "INSUFFICIENT_FUNDS") (Some "Insufficient funds"))))
          "alice" sample_external
          (sample_world [false; false; false; false; true])).2
       = RNext MongoNetworkError).
Proof. repeat split; by_compute. Qed.

(** ** Incoming transfers *)

(** Every run of [POST /incoming] ends in one of three ways: nothing is
    persisted; or the request is answered COMPLETED, the destination is
    credited and the COMPLETED record is stored; or the request is
    answered with the 500 error while the destination stays credited and
    no record is stored.  The balance that a credit writes passed the
    validator; for an amount sent as a JSON number it is the balance
    before plus the amount. *)
Lemma incoming_outcomes env body w :
  (accounts (Incoming.post env body w).1 = accounts w
   ∧ transactions (Incoming.post env body w).1 = transactions w
   ∧ (Incoming.post env body w).2 ≠ RProcessed (Incoming.transactionId body))
  ∨ (∃ r b,
       Incoming.toBank body = BANK_PREFIX env
       ∧ transactions w !! Incoming.transactionId body = None
       ∧ (verifySignature env (Incoming.payloadToVerify body)
            (Incoming.signature body) (Incoming.fromBank body) ((), w)).2 = Ok true
       ∧ accounts w !! Incoming.toAccount body = Some r
       ∧ currency_code (Account.row_currency r) = Incoming.currency body
       ∧ 0 ≤ b
       ∧ (∀ a, ToNumber env (Incoming.amount body) = Some a → 0 < a)
       ∧ (∀ n, Incoming.amount body = JNumber n → b = Account.row_balance r + n)
       ∧ accounts (Incoming.post env body w).1
         = alter (Account.set_row_balance b) (Incoming.toAccount body) (accounts w)
       ∧ ((Incoming.post env body w).2 = RProcessed (Incoming.transactionId body)
          ∧ transactions (Incoming.post env body w).1
            = <[Incoming.transactionId body :=
                  Incoming_completed env body (Account.row_user r)]> (transactions w)
          ∨ (Incoming.post env body w).2
            = RError 500 "TRANSACTION_PROCESSING_ERROR" (Some (Incoming.transactionId body))
            ∧ transactions (Incoming.post env body w).1 = transactions w)).
Proof.
  remember (Incoming.post env body w) as out eqn:Hout. revert Hout.
  unfold Incoming.post, respond, Incoming.handler.
  unfold try_catch at 1. unfold mbind, M_bind, bind.
  case_bool_decide as Hbank; [intros ->; by left|].
  unfold Transaction_findOne at 1. munfold. cbn [fst snd].
  destruct (transactions w !! Incoming.transactionId body) eqn:Hfresh;
    [intros ->; by left|].
  destruct (verifySignature_eq env (Incoming.payloadToVerify body)
              (Incoming.signature body) (Incoming.fromBank body) () w)
    as (w1 & Ha1 & Ht1 & _ & Hrun).
  rewrite Hrun. cbn [negb snd].
  destruct (match resolved_key env _ with Some _ => _ | None => false end);
    cbn [negb fst snd]; [| intros ->; left; by rewrite <- Ha1, <- Ht1].
  unfold Account_findOne. munfold. cbn [fst snd]. rewrite Ha1.
  destruct (accounts w !! Incoming.toAccount body) as [r|] eqn:Hr;
    cbn [fmap option_fmap option_map];
    [| intros ->; left; by rewrite <- Ha1, <- Ht1].
  case_bool_decide as Hcur; [intros ->; left; by rewrite <- Ha1, <- Ht1|].
  unfold scope, on. cbn [fst snd].
  cbn [Incoming.recipientAccount Incoming.set_recipientAccount Incoming.transaction
       Incoming.set_transaction].
  destruct (credit_value_outcome env (Incoming.amount body)
              (Account.load (Incoming.toAccount body) r) w1)
    as (w2 & Ht2 & [(e & this' & Hcredit & _ & Ha2 & _)
                   |(b & Hcredit & Hb & Hpos & Hnum & _ & Ha2 & _)]);
    rewrite Hcredit; cbn [fst snd].
  { intros ->. left. cbn [fst snd]. by rewrite Ha2, Ht2, Ha1, Ht1. }
  unfold markCompleted.
  cbn [Incoming.recipientAccount Incoming.set_recipientAccount Incoming.transaction
       Incoming.set_transaction].
  match goal with |- context [updateStatus COMPLETED None None (?t, w2)] =>
    destruct (updateStatus_outcome COMPLETED None None t w2)
      as (w3 & Ha3 & [(e & Hsave & Ht3 & _)|(Hsave & _ & _ & Ht3 & _)])
  end; rewrite Hsave; cbn [fst snd]; intros ->; cbn [fst snd];
    right; exists r, b; repeat (split; [done|]);
    (split; [by rewrite Ha3, Ha2, Ha1|]).
  - right. split; [done|]. by rewrite Ht3, Ht2, Ht1.
  - left. split; [done|]. by rewrite Ht3, Ht2, Ht1.
Qed.

(** A request rejected for one of the four reasons the handler names
    leaves both collections as they were. *)
Lemma incoming_rejection_leaves_no_trace env body w :
  Incoming.toBank body ≠ BANK_PREFIX env
  ∨ (verifySignature env (Incoming.payloadToVerify body) (Incoming.signature body)
       (Incoming.fromBank body) ((), w)).2 = Ok false
  ∨ accounts w !! Incoming.toAccount body = None
  ∨ (∃ r, accounts w !! Incoming.toAccount body = Some r
          ∧ currency_code (Account.row_currency r) ≠ Incoming.currency body) →
  accounts (Incoming.post env body w).1 = accounts w
  ∧ transactions (Incoming.post env body w).1 = transactions w.
Proof.
  intros Hrej.
  destruct (incoming_outcomes env body w)
    as [(? & ? & _)|(r & b & Hbank & _ & Hsig & Hr & Hcur & _)]; [done|].
  destruct Hrej as [?|[Hbad|[Hnone|(r' & Hr' & Hcur')]]]; try done.
  - by rewrite Hsig in Hbad.
  - by rewrite Hr in Hnone.
  - rewrite Hr in Hr'. by injection Hr' as <-.
Qed.

(** [POST /incoming] stores no record that is not COMPLETED. *)
Lemma incoming_stores_only_completed env body w id t :
  transactions (Incoming.post env body w).1 !! id = Some t →
  transactions w !! id = Some t ∨ Transaction.status t = COMPLETED.
Proof.
  destruct (incoming_outcomes env body w)
    as [(_ & -> & _)|(r & b & _ & _ & _ & _ & _ & _ & _ & _ & _ & [[_ ->]|[_ ->]])];
    auto.
  destruct (decide (id = Incoming.transactionId body)) as [->|Hne].
  - rewrite lookup_insert_eq. intros [= <-]. by right.
  - rewrite lookup_insert_ne by done. auto.
Qed.

(** What the handler does for a transactionId that it finds: a request
    addressed to this bank whose transactionId is stored is answered with
    the stored status and nothing at all is written; and when a first
    submission stored the record, the second is answered from it. *)
Lemma incoming_replay_answered_from_record env body w :
  (∀ t,
     Incoming.toBank body = BANK_PREFIX env →
     transactions w !! Incoming.transactionId body = Some t →
     Incoming.post env body w
     = (w, RAlreadyProcessed (Incoming.transactionId body) (Transaction.status t)))
  ∧ (∀ env',
       transactions w !! Incoming.transactionId body = None →
       is_Some (transactions (Incoming.post env body w).1
                  !! Incoming.transactionId body) →
       BANK_PREFIX env' = BANK_PREFIX env →
       Incoming.post env' body (Incoming.post env body w).1
       = ((Incoming.post env body w).1,
          RAlreadyProcessed (Incoming.transactionId body) COMPLETED)).
Proof.
  assert (Hfound : ∀ env0 w0 t,
    Incoming.toBank body = BANK_PREFIX env0 →
    transactions w0 !! Incoming.transactionId body = Some t →
    Incoming.post env0 body w0
    = (w0, RAlreadyProcessed (Incoming.transactionId body) (Transaction.status t))).
  { intros env0 w0 t Hbank Ht. unfold Incoming.post, respond, Incoming.handler.
    munfold. rewrite bool_decide_eq_false_2 by (by intros ?).
    unfold Transaction_findOne. munfold. cbn [fst snd]. by rewrite Ht. }
  split; [apply Hfound|].
  intros env' Hnew [t Hstored] Hsame.
  destruct (incoming_outcomes env body w)
    as [(_ & Hsametx & _)
       |(r & b & Hbank & _ & _ & Hr & _ & _ & _ & _ & Hacc & [[_ Htx]|[_ Hsametx]])].
  - by rewrite Hsametx, Hnew in Hstored.
  - rewrite (Hfound env' _ (Incoming_completed env body (Account.row_user r))); [done| |].
    + by rewrite Hsame.
    + by rewrite Htx, lookup_insert_eq.
  - by rewrite Hsametx, Hnew in Hstored.
Qed.

(** C4. A replay can credit twice.  Bank ABC sends 25 EUR to Alice, who
    holds 100.  The first submission passes the checks and credits Alice;
    the write of the record fails, no record is stored and the answer is
    the 500 error.  The same request, submitted again, finds no record
    under its transactionId, is processed again and is answered
    COMPLETED: across the two submissions Alice is credited twice and
    holds 150. *)
Theorem incoming_replay_credits_twice :
  balance_of "OVE-10000001" (sample_world [false; true]) = Some (Qc_of_Z 100)
  ∧ (Incoming.post (sample_env RelayUnreachable) (sample_incoming (Qc_of_Z 25))
       (sample_world [false; true])).2
    = RError 500 "TRANSACTION_PROCESSING_ERROR" (Some "a81d44c0")
  ∧ balance_of "OVE-10000001"
      (Incoming.post (sample_env RelayUnreachable) (sample_incoming (Qc_of_Z 25))
         (sample_world [false; true])).1 = Some (Qc_of_Z 125)
  ∧ status_of "a81d44c0"
      (Incoming.post (sample_env RelayUnreachable) (sample_incoming (Qc_of_Z 25))
         (sample_world [false; true])).1 = None
  ∧ (Incoming.post (sample_env RelayUnreachable) (sample_incoming (Qc_of_Z 25))
       (Incoming.post (sample_env RelayUnreachable) (sample_incoming (Qc_of_Z 25))
          (sample_world [false; true])).1).2
    = RProcessed "a81d44c0"
  ∧ balance_of "OVE-10000001"
      (Incoming.post (sample_env RelayUnreachable) (sample_incoming (Qc_of_Z 25))
         (Incoming.post (sample_env RelayUnreachable) (sample_incoming (Qc_of_Z 25))
            (sample_world [false; true])).1).1 = Some (Qc_of_Z 150).
Proof. repeat split; by_compute. Qed.

(** C5. Acceptance is not one unit.  A request that passes every check of
    [POST /incoming] with an amount outside the range of the transaction
    schema (2,000,000 above the maximum; 0.001 below the minimum) credits
    the destination, fails to store the record and is answered with the
    500 error; delivered again, it credits the destination again. *)
Theorem incoming_credit_without_record :
  ((Incoming.post (sample_env RelayUnreachable)
      (sample_incoming (Qc_of_Z 2000000)) (sample_world [])).2
   = RError 500 "TRANSACTION_PROCESSING_ERROR" (Some "a81d44c0")
   ∧ balance_of "OVE-10000001" (sample_world []) = Some (Qc_of_Z 100)
   ∧ balance_of "OVE-10000001"
       (Incoming.post (sample_env RelayUnreachable)
          (sample_incoming (Qc_of_Z 2000000)) (sample_world [])).1
     = Some (Qc_of_Z 2000100)
   ∧ status_of "a81d44c0"
       (Incoming.post (sample_env RelayUnreachable)
          (sample_incoming (Qc_of_Z 2000000)) (sample_world [])).1 = None
   ∧ balance_of "OVE-10000001"
       (Incoming.post (sample_env RelayUnreachable)
          (sample_incoming (Qc_of_Z 2000000))
          (Incoming.post (sample_env RelayUnreachable)
             (sample_incoming (Qc_of_Z 2000000)) (sample_world [])).1).1
     = Some (Qc_of_Z 4000100))
  ∧ ((Incoming.post (sample_env RelayUnreachable)
        (sample_incoming (Qc_of_Z 1 / Qc_of_Z 1000)) (sample_world [])).2
     = RError 500 "TRANSACTION_PROCESSING_ERROR" (Some "a81d44c0")
     ∧ balance_of "OVE-10000001"
         (Incoming.post (sample_env RelayUnreachable)
            (sample_incoming (Qc_of_Z 1 / Qc_of_Z 1000)) (sample_world [])).1
       = Some (Qc_of_Z 100 + Qc_of_Z 1 / Qc_of_Z 1000)
     ∧ status_of "a81d44c0"
         (Incoming.post (sample_env RelayUnreachable)
            (sample_incoming (Qc_of_Z 1 / Qc_of_Z 1000)) (sample_world [])).1 = None).
Proof. repeat split; by_compute. Qed.

(** ** The outcomes of an internal transfer *)

(** Every run of [POST /internal] ends in one of five ways: the request is
    turned away with an error object and the world is as it was; or it
    passes the checks, its amount reads as a Number [a] that the sender
    holds, and the writes stop before the debit, after the debit, after
    the credit, or after the record.  The balance [b] that the credit
    writes passed the validator; for an amount sent as a JSON number it
    is the balance of the recipient plus the amount. *)
Lemma internal_outcomes env user body w :
  (∃ status code, Internal.post env user body w = (w, RError status code None))
  ∨ ∃ s r a,
      Internal.valid env body = true
      ∧ accounts w !! Internal.fromAccount body = Some s
      ∧ Account.row_user s = user
      ∧ accounts w !! Internal.toAccount body = Some r
      ∧ Account.row_currency s = Account.row_currency r
      ∧ ToNumber env (Internal.amount body) = Some a
      ∧ 0 < a ∧ a ≤ Account.row_balance s
      ∧ ((accounts (Internal.post env user body w).1 = accounts w
          ∧ transactions (Internal.post env user body w).1 = transactions w
          ∧ ∃ e, (Internal.post env user body w).2 = RNext e)
         ∨ (accounts (Internal.post env user body w).1
            = alter (Account.set_row_balance (Account.row_balance s - a))
                (Internal.fromAccount body) (accounts w)
            ∧ transactions (Internal.post env user body w).1 = transactions w
            ∧ ∃ e, (Internal.post env user body w).2 = RNext e)
         ∨ ∃ b,
             0 ≤ b
             ∧ (∀ n, Internal.amount body = JNumber n → b = Account.row_balance r + n)
             ∧ accounts (Internal.post env user body w).1
               = alter (Account.set_row_balance b) (Internal.toAccount body)
                   (alter (Account.set_row_balance (Account.row_balance s - a))
                      (Internal.fromAccount body) (accounts w))
             ∧ ((transactions (Internal.post env user body w).1 = transactions w
                 ∧ ∃ e, (Internal.post env user body w).2 = RNext e)
                ∨ (transactions w !! uuidv4 env = None
                   ∧ transactions (Internal.post env user body w).1
                     = <[uuidv4 env := Internal_completed env user body s]>
                         (transactions w)
                   ∧ (Internal.post env user body w).2
                     = RInternalCompleted (Internal_completed env user body s)))).
Proof.
  remember (Internal.post env user body w) as out eqn:Hout. revert Hout.
  unfold Internal.post, respond, Internal.handler.
  unfold try_catch at 1.
  destruct (Internal.valid env body) eqn:Hvalid; cbn [negb];
    [|intros ->; left; by eexists _, _].
  rewrite Account_findOne_bind.
  destruct (accounts w !! Internal.fromAccount body) as [s|] eqn:Hs;
    cbn [fmap option_fmap option_map]; [|intros ->; left; by eexists _, _].
  case_bool_decide as Howner; [intros ->; left; by eexists _, _|].
  rewrite Account_findOne_bind.
  destruct (accounts w !! Internal.toAccount body) as [r|] eqn:Hr;
    cbn [fmap option_fmap option_map]; [|intros ->; left; by eexists _, _].
  case_bool_decide as Hcur; [intros ->; left; by eexists _, _|].
  destruct (hasSufficientFunds_value env _ _) eqn:Hfunds; cbn [negb];
    [|intros ->; left; by eexists _, _].
  destruct (Internal_valid_fields _ _ Hvalid) as (_ & _ & a & Hnum & _ & Hmin & _).
  assert (Hpos : 0 < a) by (eapply Qclt_le_trans; [apply min_amount_pos | done]).
  unfold hasSufficientFunds_value, hasSufficientFunds in Hfunds.
  rewrite Hnum in Hfunds. cbn [Account.load Account.balance] in Hfunds.
  apply bool_decide_eq_true_1 in Hfunds.
  intros ->. right. exists s, r, a. repeat (split; [done|]).
  unfold scope, on, mbind, M_bind, bind. cbn [fst snd].
  cbn [Internal.senderAccount Internal.recipientAccount Internal.transaction].
  destruct (debit_value_outcome env (Internal.amount body)
              (Account.load (Internal.fromAccount body) s) w)
    as (w1 & Ht1 & [(e & this' & Hrun & _ & Ha1 & _)
                   |(a' & Hnum' & Hrun & _ & _ & _ & Ha1 & _)]);
    rewrite Hrun; cbn [fst snd mret M_ret ret].
  { left. eauto. }
  rewrite Hnum in Hnum'. injection Hnum' as <-.
  cbn [Account.load Account.balance] in Ha1.
  cbn [Internal.senderAccount Internal.recipientAccount Internal.transaction
       Internal.set_senderAccount Internal.set_recipientAccount
       Internal.set_transaction].
  destruct (credit_value_outcome env (Internal.amount body)
              (Account.load (Internal.toAccount body) r) w1)
    as (w2 & Ht2 & [(e & this' & Hrun2 & _ & Ha2 & _)
                   |(b & Hrun2 & Hb & _ & Hcredited & _ & Ha2 & _)]);
    rewrite Hrun2; cbn [fst snd mret M_ret ret].
  { right; left. rewrite Ha2, Ha1, Ht2, Ht1. eauto. }
  cbn [Internal.senderAccount Internal.recipientAccount Internal.transaction
       Internal.set_senderAccount Internal.set_recipientAccount
       Internal.set_transaction].
  cbn [Account.load Account.balance Account.accountNumber] in Ha2, Hcredited.
  unfold markCompleted.
  match goal with |- context [updateStatus COMPLETED None None (?t, w2)] =>
    destruct (updateStatus_outcome COMPLETED None None t w2)
      as (w3 & Ha3 & [(e & Hrun3 & Ht3 & _)|(Hrun3 & _ & Hnew & Ht3 & _)])
  end; rewrite Hrun3; cbn [fst snd locals mret M_ret ret];
    rewrite Ha3, Ha2, Ha1, Ht3, Ht2, Ht1;
    right; right; exists b; (split; [done|]);
    (split; [done|]); (split; [done|]).
  - left. eauto.
  - right. simpl in Hnew. rewrite Ht2, Ht1 in Hnew. by repeat split.
Qed.

(** ** The ledger, beyond the debit contract *)

(** X1. Credit contract: [credit] throws 'Credit amount must be positive'
    when the amount is at most zero, and leaves the document and the world
    alone.  Otherwise it raises the balance of the document by the amount
    before it saves: on a stored account and a store that takes the write,
    the new balance is persisted and nothing else changes; when the
    validator refuses the new balance, or the write fails, the error is
    thrown, nothing is persisted, and the document keeps the new balance
    in memory. *)
Theorem credit_contract (this : Account) (amount : Qc) (w : World) :
  (amount ≤ 0 →
     credit amount (this, w)
     = ((this, w), Throw (Error_ "Credit amount must be positive")))
  ∧ (0 < amount → 0 ≤ Account.balance this + amount →
     is_Some (accounts w !! Account.accountNumber this) →
     head (faults w) ≠ Some true →
     ∃ w',
       credit amount (this, w)
       = ((Account.set_balance (Account.balance this + amount) this, w'), Ok ())
       ∧ balance_of (Account.accountNumber this) w'
         = Some (Account.balance this + amount)
       ∧ (∀ k, k ≠ Account.accountNumber this → accounts w' !! k = accounts w !! k)
       ∧ transactions w' = transactions w)
  ∧ (0 < amount → Account.balance this + amount < 0 →
     credit amount (this, w)
     = ((Account.set_balance (Account.balance this + amount) this, w),
        Throw (ValidationError "balance")))
  ∧ (0 < amount → 0 ≤ Account.balance this + amount →
     head (faults w) = Some true →
     ∃ w',
       credit amount (this, w)
       = ((Account.set_balance (Account.balance this + amount) this, w'),
          Throw MongoNetworkError)
       ∧ accounts w' = accounts w ∧ transactions w' = transactions w).
Proof.
  split; [|split; [|split]].
  - intros Hle. rewrite credit_eq. by rewrite bool_decide_eq_true_2.
  - intros Hpos Hb Hstored Hf. rewrite credit_eq.
    rewrite bool_decide_eq_false_2 by by apply Qclt_not_le.
    destruct (Account_save_lands
                (Account.set_balance (Account.balance this + amount) this) w)
      as (w' & Hrun & Hbal & Hother & Htx); try done.
    exists w'. by repeat split.
  - intros Hpos Hneg. rewrite credit_eq.
    rewrite bool_decide_eq_false_2 by by apply Qclt_not_le.
    rewrite Account_save_eq. cbn [Account.balance Account.set_balance].
    by rewrite bool_decide_eq_true_2.
  - intros Hpos Hb Hf. rewrite credit_eq.
    rewrite bool_decide_eq_false_2 by by apply Qclt_not_le.
    rewrite Account_save_eq. cbn [Account.balance Account.set_balance].
    rewrite bool_decide_eq_false_2 by by apply Qcle_not_lt.
    unfold db_write. destruct (faults w) as [|[] fs]; try done.
    by eexists.
Qed.

Lemma credit_contract_witness :
  ∃ w',
    credit (Qc_of_Z 5)
      (Account.mk "OVE-10000002" "bob" EUR 0 true, sample_world [true])
    = ((Account.set_balance (0 + Qc_of_Z 5) (Account.mk "OVE-10000002" "bob" EUR 0 true),
        w'), Throw MongoNetworkError)
    ∧ accounts w' = accounts (sample_world [true])
    ∧ transactions w' = transactions (sample_world [true]).
Proof.
  destruct (credit_contract (Account.mk "OVE-10000002" "bob" EUR 0 true) (Qc_of_Z 5)
              (sample_world [true])) as (_ & _ & _ & H).
  apply H.
  - by vm_compute.
  - by vm_compute.
  - reflexivity.
Defined.

(** X2. A debit followed by a credit of the same amount on the same
    document: on a stored account, with funds for the amount and no
    failing write, the balance is written twice, first lowered by the
    amount, then raised by the amount from the lowered balance, and
    nothing else changes: the other accounts and the transactions stay,
    and the account ends with the balance that was written last, which is
    computed as (balance - amount) + amount. *)
Theorem debit_then_credit_writes_twice (this : Account) (amount : Qc) (w : World)
    (r : Account.row) :
  0 < amount → amount ≤ Account.balance this →
  accounts w !! Account.accountNumber this = Some r →
  faults w = [] →
  ∃ w',
    (debit amount;; credit amount) (this, w)
    = ((Account.set_balance (Account.balance this - amount + amount) this, w'), Ok ())
    ∧ balance_of (Account.accountNumber this) w'
      = Some (Account.balance this - amount + amount)
    ∧ (∀ k, k ≠ Account.accountNumber this → accounts w' !! k = accounts w !! k)
    ∧ transactions w' = transactions w
    ∧ log w'
      = (log w ++
         [EvSaveAccount (Account.accountNumber this) (Account.balance this - amount);
          EvSaveAccount (Account.accountNumber this)
            (Account.balance this - amount + amount)])%list.
Proof.
  intros Hpos Hfunds Hr Hfaults.
  pose proof (Qc_sub_nonneg _ _ Hfunds) as Hdebited.
  assert (Hback : 0 ≤ Account.balance this - amount + amount)
    by by apply Qc_add_nonneg.
  unfold mbind, M_bind, bind. rewrite debit_eq.
  rewrite bool_decide_eq_false_2 by by apply Qclt_not_le.
  rewrite bool_decide_eq_true_2 by done.
  rewrite Account_save_eq. cbn [Account.balance Account.set_balance Account.accountNumber].
  rewrite bool_decide_eq_false_2 by by apply Qcle_not_lt.
  unfold db_write. rewrite Hfaults, Hr. rewrite credit_eq.
  rewrite bool_decide_eq_false_2 by by apply Qclt_not_le.
  rewrite Account_save_eq. cbn [Account.balance Account.set_balance Account.accountNumber].
  rewrite bool_decide_eq_false_2 by by apply Qcle_not_lt.
  unfold db_write, emit, set_accounts, balance_of. cbn [faults accounts transactions log].
  rewrite Hfaults, lookup_alter_eq, Hr. cbn [fmap option_fmap option_map].
  eexists. split; [|split; [|split; [|split]]].
  - by destruct this.
  - cbn [accounts]. by rewrite !lookup_alter_eq, Hr.
  - intros k Hk. cbn [accounts]. by rewrite !lookup_alter_ne.
  - done.
  - cbn [log]. by rewrite <- app_assoc.
Qed.

Lemma debit_then_credit_writes_twice_witness :
  ∃ w',
    (debit (Qc_of_Z 30);; credit (Qc_of_Z 30))
      (Account.mk "OVE-10000001" "alice" EUR (Qc_of_Z 100) true, sample_world [])
    = ((Account.set_balance (Qc_of_Z 100 - Qc_of_Z 30 + Qc_of_Z 30)
          (Account.mk "OVE-10000001" "alice" EUR (Qc_of_Z 100) true), w'), Ok ())
    ∧ balance_of "OVE-10000001" w' = Some (Qc_of_Z 100 - Qc_of_Z 30 + Qc_of_Z 30)
    ∧ (∀ k, k ≠ "OVE-10000001" → accounts w' !! k = accounts (sample_world []) !! k)
    ∧ transactions w' = transactions (sample_world [])
    ∧ log w'
      = (log (sample_world []) ++
         [EvSaveAccount "OVE-10000001" (Qc_of_Z 100 - Qc_of_Z 30);
          EvSaveAccount "OVE-10000001" (Qc_of_Z 100 - Qc_of_Z 30 + Qc_of_Z 30)])%list.
Proof.
  apply (debit_then_credit_writes_twice
           (Account.mk "OVE-10000001" "alice" EUR (Qc_of_Z 100) true) (Qc_of_Z 30)
           (sample_world []) (Account.mkRow "alice" EUR (Qc_of_Z 100) true)).
  - by vm_compute.
  - by vm_compute.
  - by vm_compute.
  - reflexivity.
Defined.

(** X3. The footprint of the ledger: whatever the amount, the document and
    the schedule, [debit] and [credit] change nothing of the document but
    its balance, leave the transactions and every other account alone,
    keep the owner, the currency and the active flag of the account they
    write, and log at most one write, which is a write of that account. *)
Theorem ledger_touches_one_balance (op : LedgerOp) (amount : Qc) (this : Account)
    (w : World) :
  Account.set_balance 0 (ledger op amount (this, w)).1.1 = Account.set_balance 0 this
  ∧ transactions (ledger op amount (this, w)).1.2 = transactions w
  ∧ (∀ k, k ≠ Account.accountNumber this →
       accounts (ledger op amount (this, w)).1.2 !! k = accounts w !! k)
  ∧ ledger_shape w (ledger op amount (this, w)).1.2
  ∧ (log (ledger op amount (this, w)).1.2 = log w
     ∨ ∃ b, log (ledger op amount (this, w)).1.2
            = (log w ++ [EvSaveAccount (Account.accountNumber this) b])%list).
Proof.
  destruct (ledger_frame op amount this w) as (_ & Ht & Ha & Hs).
  split; [|split; [done|split; [done|split; [done|]]]]; destruct op; cbn [ledger].
  - destruct (debit_outcome amount this w)
      as (w' & _ & [(e & this' & Hrun & _)|(Hrun & _)]); [|by rewrite Hrun].
    revert Hrun. rewrite debit_eq. case_bool_decide; [by intros [= <- _]|].
    case_bool_decide; [|by intros [= <- _]].
    destruct (Account_save_outcome
                (Account.set_balance (Account.balance this - amount) this) w)
      as (w1 & _ & [(e1 & -> & _)|(-> & _)]); by intros [= <- _].
  - destruct (credit_outcome amount this w)
      as (w' & _ & [(e & this' & Hrun & _ & [->| [_ ->]] & _)|(Hrun & _)]);
      by rewrite Hrun.
  - destruct (debit_outcome amount this w)
      as (w' & _ & [(e & this' & Hrun & _ & _ & Hl)|(Hrun & _ & _ & _ & _ & Hl)]);
      rewrite Hrun; cbn [fst snd]; eauto.
  - destruct (credit_outcome amount this w)
      as (w' & _ & [(e & this' & Hrun & _ & _ & _ & Hl)|(Hrun & _ & _ & _ & _ & Hl)]);
      rewrite Hrun; cbn [fst snd]; eauto.
Qed.

Lemma ledger_touches_one_balance_witness :
  accounts
    (ledger Credit (Qc_of_Z 30)
       (Account.mk "OVE-10000002" "bob" EUR 0 true, sample_world_dispatched)).1.2
    !! "OVE-10000001"
  = accounts sample_world_dispatched !! "OVE-10000001".
Proof.
  destruct (ledger_touches_one_balance Credit (Qc_of_Z 30)
              (Account.mk "OVE-10000002" "bob" EUR 0 true) sample_world_dispatched)
    as (_ & _ & H & _).
  by apply H.
Defined.

(** ** The transaction record *)

(** X4. [save()] of a record and the unique index.  A new document that
    passes the validators and whose identifier is free is inserted, is
    marked as inserted, and [findOne] then returns it; a new document
    whose identifier is taken is refused with the duplicate-key error; a
    document that fails a validator is refused before any write.  In the
    last two cases both collections stay as they were. *)
Theorem Transaction_save_contract (this : Transaction) (w : World) :
  (Transaction_validate this = None → Transaction.isNew this = true →
   transactions w !! Transaction.transactionId this = None →
   head (faults w) ≠ Some true →
   ∃ w',
     (Transaction_save;; Transaction_findOne (Transaction.transactionId this)) (this, w)
     = ((Transaction.set_isNew false this, w'),
        Ok (Some (Transaction.set_isNew false this)))
     ∧ accounts w' = accounts w
     ∧ ∀ id, id ≠ Transaction.transactionId this →
         transactions w' !! id = transactions w !! id)
  ∧ (Transaction_validate this = None → Transaction.isNew this = true →
     is_Some (transactions w !! Transaction.transactionId this) →
     head (faults w) ≠ Some true →
     ∃ w',
       Transaction_save (this, w) = ((this, w'), Throw DuplicateKeyError)
       ∧ accounts w' = accounts w ∧ transactions w' = transactions w)
  ∧ (∀ path, Transaction_validate this = Some path →
       Transaction_save (this, w) = ((this, w), Throw (ValidationError path))).
Proof.
  split; [|split].
  - intros Hval Hnew Hfree Hf. unfold mbind, M_bind, bind.
    rewrite Transaction_save_eq, Hval. unfold db_write.
    destruct (faults w) as [|[] fs] eqn:Hfs; [| by destruct Hf |];
      cbn [transactions set_faults]; rewrite Hnew, Hfree;
      unfold Transaction_findOne; munfold; cbn [fst snd emit set_transactions transactions];
      eexists; rewrite lookup_insert_eq; (split; [done|]);
      cbn [emit set_transactions set_faults accounts transactions];
      (split; [done|]); intros id Hid; by rewrite lookup_insert_ne.
  - intros Hval Hnew [old Hold] Hf. rewrite Transaction_save_eq, Hval. unfold db_write.
    destruct (faults w) as [|[] fs] eqn:Hfs; [| by destruct Hf |];
      cbn [transactions set_faults]; rewrite Hnew, Hold; by eexists.
  - intros path Hval. by rewrite Transaction_save_eq, Hval.
Qed.

Lemma Transaction_save_contract_witness :
  ∃ w',
    Transaction_save
      (Transaction.set_isNew true
         (External_record (sample_env RelayUnreachable) "alice" sample_external "OVE"
            PENDING None None),
       sample_world_dispatched)
    = ((Transaction.set_isNew true
          (External_record (sample_env RelayUnreachable) "alice" sample_external "OVE"
             PENDING None None), w'),
       Throw DuplicateKeyError)
    ∧ accounts w' = accounts sample_world_dispatched
    ∧ transactions w' = transactions sample_world_dispatched.
Proof.
  destruct (Transaction_save_contract
              (Transaction.set_isNew true
                 (External_record (sample_env RelayUnreachable) "alice" sample_external
                    "OVE" PENDING None None))
              sample_world_dispatched) as (_ & H & _).
  apply H.
  - by vm_compute.
  - reflexivity.
  - eexists. vm_compute. reflexivity.
  - by vm_compute.
Defined.

Lemma Transaction_set_isNew_stored (t : Transaction) :
  Transaction.isNew t = false → Transaction.set_isNew false t = t.
Proof. destruct t. cbn. by intros ->. Qed.

(** X5. Status transitions are not guarded.  On a stored record,
    [updateStatus] writes the status it is given whatever the status the
    record has, a terminal one included, and replaces the error code and
    the error message by its arguments: [markCompleted] and
    [markInProgress] erase them. *)
Theorem status_transitions_are_unguarded (this : Transaction) (w : World)
    (status : Status) (errorCode errorMessage : option string) :
  transactions w !! Transaction.transactionId this = Some this →
  Transaction.isNew this = false →
  Transaction_validate this = None →
  head (faults w) ≠ Some true →
  ∃ w',
    updateStatus status errorCode errorMessage (this, w)
    = ((Transaction.set_status status errorCode errorMessage this, w'), Ok ())
    ∧ transactions w'
      = <[Transaction.transactionId this :=
            Transaction.set_status status errorCode errorMessage this]> (transactions w)
    ∧ accounts w' = accounts w.
Proof.
  intros Hstored Hnew Hval Hf. unfold updateStatus. munfold. cbn [fst snd].
  rewrite Transaction_save_eq.
  change (Transaction_validate _) with (Transaction_validate this). rewrite Hval.
  unfold db_write.
  destruct (faults w) as [|[] fs] eqn:Hfs; [| by destruct Hf |];
    cbn [transactions set_faults Transaction.isNew Transaction.set_status
         Transaction.transactionId];
    rewrite Hnew, Hstored;
    rewrite !(Transaction_set_isNew_stored
                (Transaction.set_status status errorCode errorMessage this)) by done;
    by eexists.
Qed.

Lemma status_transitions_are_unguarded_witness :
  ∃ w',
    updateStatus PENDING None None
      (External_record (sample_env (RelayRejected 400 RejectNotJson)) "alice"
         sample_external "OVE" FAILED (Some "CENTRAL_BANK_ERROR")
         (Some "Failed to communicate with central bank"),
       (External.post (sample_env (RelayRejected 400 RejectNotJson)) "alice"
          sample_external (sample_world [])).1)
    = ((Transaction.set_status PENDING None None
          (External_record (sample_env (RelayRejected 400 RejectNotJson)) "alice"
             sample_external "OVE" FAILED (Some "CENTRAL_BANK_ERROR")
             (Some "Failed to communicate with central bank")), w'), Ok ())
    ∧ transactions w'
      = <[Transaction.transactionId
            (External_record (sample_env (RelayRejected 400 RejectNotJson)) "alice"
               sample_external "OVE" FAILED (Some "CENTRAL_BANK_ERROR")
               (Some "Failed to communicate with central bank")) :=
            Transaction.set_status PENDING None None
              (External_record (sample_env (RelayRejected 400 RejectNotJson)) "alice"
                 sample_external "OVE" FAILED (Some "CENTRAL_BANK_ERROR")
                 (Some "Failed to communicate with central bank"))]>
          (transactions
             (External.post (sample_env (RelayRejected 400 RejectNotJson)) "alice"
                sample_external (sample_world [])).1)
    ∧ accounts w'
      = accounts
          (External.post (sample_env (RelayRejected 400 RejectNotJson)) "alice"
             sample_external (sample_world [])).1.
Proof.
  apply status_transitions_are_unguarded.
  - by_compute.
  - reflexivity.
  - by vm_compute.
  - by vm_compute.
Defined.

(** ** What no settlement request can do *)

Lemma stable_nonneg_store : stable nonneg_store.
Proof.
  split; try done.
  intros w k r b Hw Hr Hb k' r'. simpl.
  destruct (decide (k' = k)) as [->|Hk].
  - rewrite lookup_alter_eq, Hr. by intros [= <-].
  - rewrite lookup_alter_ne by done. apply Hw.
Qed.

Lemma stable_ledger_shape w0 : stable (ledger_shape w0).
Proof.
  split; try done.
  intros w k r b Hw Hr Hb k'. simpl. rewrite <- Hw.
  destruct (decide (k' = k)) as [->|Hk].
  - by rewrite lookup_alter_eq, Hr.
  - by rewrite lookup_alter_ne.
Qed.

Lemma stable_valid_records : stable valid_records.
Proof.
  split; try done.
  intros w t Hw Hval id t'. simpl.
  destruct (decide (id = Transaction.transactionId t)) as [->|Hid].
  - rewrite lookup_insert_eq. by intros [= <-].
  - rewrite lookup_insert_ne by done. apply Hw.
Qed.

(** X6. Whatever the request, the schedule of failing writes and the
    answers of the central bank and of the key directory, none of the
    three settlement handlers leaves a negative balance in a store that
    held none. *)
Theorem settlement_never_overdraws env user internal external incoming w :
  nonneg_store w →
  nonneg_store (Internal.post env user internal w).1
  ∧ nonneg_store (External.post env user external w).1
  ∧ nonneg_store (Incoming.post env incoming w).1.
Proof.
  intros Hw. pose proof stable_nonneg_store as HR. split; [|split].
  - apply (keeps_respond _ (Internal.handler _ _ _)); [by apply keeps_Internal | done].
  - apply (keeps_respond _ (External.handler _ _ _)); [by apply keeps_External | done].
  - apply (keeps_respond _ (Incoming.handler _ _)); [by apply keeps_Incoming | done].
Qed.

Lemma settlement_never_overdraws_witness :
  nonneg_store
    (Internal.post (sample_env RelayUnreachable) "alice" sample_internal
       (sample_world [false; true])).1
  ∧ nonneg_store
      (External.post (sample_env RelayUnreachable) "alice" sample_external
         (sample_world [false; true])).1
  ∧ nonneg_store
      (Incoming.post (sample_env RelayUnreachable) (sample_incoming (Qc_of_Z 25))
         (sample_world [false; true])).1.
Proof.
  apply settlement_never_overdraws.
  change (map_Forall (λ _ r, 0 ≤ Account.row_balance r)
            (accounts (sample_world [false; true]))).
  by_compute.
Defined.

(** X7. No settlement handler opens or closes an account, and none
    changes the owner, the currency or the active flag of one: the
    accounts after a request are the accounts before it, up to their
    balances. *)
Theorem settlement_keeps_account_identity env user internal external incoming w :
  ledger_shape w (Internal.post env user internal w).1
  ∧ ledger_shape w (External.post env user external w).1
  ∧ ledger_shape w (Incoming.post env incoming w).1.
Proof.
  pose proof (stable_ledger_shape w) as HR.
  assert (Hw : ledger_shape w w) by done. split; [|split].
  - apply (keeps_respond _ (Internal.handler _ _ _)); [by apply keeps_Internal | done].
  - apply (keeps_respond _ (External.handler _ _ _)); [by apply keeps_External | done].
  - apply (keeps_respond _ (Incoming.handler _ _)); [by apply keeps_Incoming | done].
Qed.

(** X8. The transaction store stays well formed: when every stored record
    sits under its own identifier and passes the validators of the schema
    (identifiers and banks present, amount between 0.01 and 1,000,000,
    currency one of EUR, USD, GBP), the same holds after any request to
    any of the three settlement handlers. *)
Theorem stored_records_are_valid env user internal external incoming w :
  valid_records w →
  valid_records (Internal.post env user internal w).1
  ∧ valid_records (External.post env user external w).1
  ∧ valid_records (Incoming.post env incoming w).1.
Proof.
  intros Hw. pose proof stable_valid_records as HR. split; [|split].
  - apply (keeps_respond _ (Internal.handler _ _ _)); [by apply keeps_Internal | done].
  - apply (keeps_respond _ (External.handler _ _ _)); [by apply keeps_External | done].
  - apply (keeps_respond _ (Incoming.handler _ _)); [by apply keeps_Incoming | done].
Qed.

Lemma stored_records_are_valid_witness :
  valid_records
    (Internal.post (sample_env RelayUnreachable) "alice" sample_internal
       sample_world_dispatched).1
  ∧ valid_records
      (External.post (sample_env RelayUnreachable) "alice" sample_external
         sample_world_dispatched).1
  ∧ valid_records
      (Incoming.post (sample_env RelayUnreachable)
         (sample_incoming (Qc_of_Z 2000000)) sample_world_dispatched).1.
Proof.
  apply stored_records_are_valid.
  change (map_Forall
            (λ id t, Transaction.transactionId t = id ∧ Transaction_validate t = None
                     ∧ Transaction.isNew t = false)
            (transactions sample_world_dispatched)).
  by_compute.
Defined.

(** X9. A transfer that is turned away leaves no trace.  When
    [POST /internal] or [POST /external] answers with an error object
    (validation, destination, account, ownership, currency or funds), the
    world is exactly as it was before the request: no write was tried, no
    key was read, nothing was sent.  When [POST /incoming] answers with an
    error object other than the 500 one, both collections are as they
    were. *)
Theorem rejected_transfer_leaves_no_trace env user internal external incoming w
    status code id :
  ((Internal.post env user internal w).2 = RError status code id →
   (Internal.post env user internal w).1 = w)
  ∧ ((External.post env user external w).2 = RError status code id →
     (External.post env user external w).1 = w)
  ∧ ((Incoming.post env incoming w).2 = RError status code id → status ≠ 500%nat →
     accounts (Incoming.post env incoming w).1 = accounts w
     ∧ transactions (Incoming.post env incoming w).1 = transactions w).
Proof.
  split; [|split].
  - intros Hresp. destruct (internal_outcomes env user internal w)
      as [(st & c & Hrun)|(s & r & a & _ & _ & _ & _ & _ & _ & _ & _ & Hout)].
    + by rewrite Hrun.
    + rewrite Hresp in Hout.
      destruct Hout
        as [(_ & _ & e & ?)
           |[(_ & _ & e & ?)
            |(b & _ & _ & _ & [(_ & e & ?)|(_ & _ & ?)])]]; done.
  - intros Hresp. destruct (external_outcomes env user external w)
      as [(st & c & Hrun)|(s & _ & _ & _ & _ & _ & _ & _ & Hout)].
    + by rewrite Hrun.
    + by rewrite Hresp in Hout.
  - intros Hresp Hstatus. destruct (incoming_outcomes env incoming w)
      as [(? & ? & _)
         |(r & b & _ & _ & _ & _ & _ & _ & _ & _ & _ & [[Hout _]|[Hout _]])];
      [done| |];
      rewrite Hresp in Hout; [done|]. by injection Hout as -> _ _.
Qed.

Lemma rejected_transfer_leaves_no_trace_witness :
  (Internal.post (sample_env RelayUnreachable) "alice"
     (Internal.mkRequest "OVE-10000001" "OVE-10000002" (JNumber (Qc_of_Z 500))
        "rent")
     (sample_world [true])).1
  = sample_world [true].
Proof.
  destruct (rejected_transfer_leaves_no_trace (sample_env RelayUnreachable) "alice"
              (Internal.mkRequest "OVE-10000001" "OVE-10000002" (JNumber (Qc_of_Z 500))
        "rent")
              sample_external (sample_incoming (Qc_of_Z 25)) (sample_world [true])
              400%nat "INSUFFICIENT_FUNDS" None) as [H _].
  apply H. by_compute.
Defined.

Lemma Qc_lt_add_pos (a b : Qc) : 0 < a → ¬ b + a < b.
Proof.
  intros Ha Hlt. apply (Qclt_not_le _ _ Ha).
  apply (Qcplus_le_mono_l _ _ b). rewrite Qcplus_0_r. by apply Qclt_le_weak.
Qed.

(** X10. The success answer of [POST /internal] tells the truth for an
    amount sent as a JSON number: when the handler answers 201 with a
    transaction, that transaction is the COMPLETED record stored under a
    fresh identifier, the requester owns the source account, and both
    balances were written.  Between two distinct accounts the source lost
    the amount and the destination gained it; from an account to itself
    the balance written last is the stale balance plus the amount, so the
    account gained the amount. *)
Theorem internal_success_is_truthful env user body w t a :
  (Internal.post env user body w).2 = RInternalCompleted t →
  Internal.amount body = JNumber a →
  ∃ s r,
    accounts w !! Internal.fromAccount body = Some s
    ∧ accounts w !! Internal.toAccount body = Some r
    ∧ Account.row_user s = user
    ∧ t = Internal_completed env user body s
    ∧ transactions w !! uuidv4 env = None
    ∧ transactions (Internal.post env user body w).1 !! uuidv4 env = Some t
    ∧ balance_of (Internal.toAccount body) (Internal.post env user body w).1
      = Some (Account.row_balance r + a)
    ∧ (Internal.fromAccount body ≠ Internal.toAccount body →
       balance_of (Internal.fromAccount body) (Internal.post env user body w).1
       = Some (Account.row_balance s - a))
    ∧ (Internal.fromAccount body = Internal.toAccount body →
       balance_of (Internal.fromAccount body) (Internal.post env user body w).1
       = Some (Account.row_balance s + a)).
Proof.
  intros Hresp Hamount. destruct (internal_outcomes env user body w)
    as [(st & c & Hrun)|(s & r & a' & _ & Hs & Hu & Hr & _ & Hnum & _ & _ & Hout)].
  { by rewrite Hrun in Hresp. }
  rewrite Hamount in Hnum. injection Hnum as <-.
  rewrite Hresp in Hout.
  destruct Hout as [(_ & _ & e & ?)|[(_ & _ & e & ?)
                   |(b & _ & Hb & Ha & [(_ & e & ?)|(Hfresh & Ht & [= ->])])]]; try done.
  rewrite (Hb a Hamount) in Ha.
  exists s, r. repeat (split; [done|]).
  split; [by rewrite Ht, lookup_insert_eq|].
  unfold balance_of. rewrite Ha. split; [|split].
  - rewrite lookup_alter_eq.
    destruct (decide (Internal.toAccount body = Internal.fromAccount body)) as [Heq|Hne].
    + by rewrite Heq, lookup_alter_eq, Hs.
    + by rewrite lookup_alter_ne, Hr by done.
  - intros Hne. by rewrite lookup_alter_ne, lookup_alter_eq, Hs by done.
  - intros Heq. rewrite Heq in *. rewrite lookup_alter_eq, lookup_alter_eq, Hr.
    by simplify_eq.
Qed.

Lemma internal_success_is_truthful_witness :
  ∃ s r,
    accounts (sample_world []) !! "OVE-10000001" = Some s
    ∧ accounts (sample_world []) !! "OVE-10000002" = Some r
    ∧ Account.row_user s = "alice"
    ∧ Internal_completed (sample_env RelayUnreachable) "alice" sample_internal
        (Account.mkRow "alice" EUR (Qc_of_Z 100) true)
      = Internal_completed (sample_env RelayUnreachable) "alice" sample_internal s
    ∧ transactions (sample_world []) !! "3f2b9c1e" = None
    ∧ transactions
        (Internal.post (sample_env RelayUnreachable) "alice" sample_internal
           (sample_world [])).1 !! "3f2b9c1e"
      = Some (Internal_completed (sample_env RelayUnreachable) "alice" sample_internal
                (Account.mkRow "alice" EUR (Qc_of_Z 100) true))
    ∧ balance_of "OVE-10000002"
        (Internal.post (sample_env RelayUnreachable) "alice" sample_internal
           (sample_world [])).1
      = Some (Account.row_balance r + Qc_of_Z 50)
    ∧ ("OVE-10000001" ≠ "OVE-10000002" →
       balance_of "OVE-10000001"
         (Internal.post (sample_env RelayUnreachable) "alice" sample_internal
            (sample_world [])).1
       = Some (Account.row_balance s - Qc_of_Z 50))
    ∧ ("OVE-10000001" = "OVE-10000002" →
       balance_of "OVE-10000001"
         (Internal.post (sample_env RelayUnreachable) "alice" sample_internal
            (sample_world [])).1
       = Some (Account.row_balance s + Qc_of_Z 50)).
Proof.
  apply (internal_success_is_truthful (sample_env RelayUnreachable) "alice"
           sample_internal (sample_world [])
           (Internal_completed (sample_env RelayUnreachable) "alice" sample_internal
              (Account.mkRow "alice" EUR (Qc_of_Z 100) true))
           (Qc_of_Z 50)).
  - by_compute.
  - reflexivity.
Defined.

(** A balance that is lower after [POST /internal] with an amount sent as
    a JSON number, or after [POST /external], is the balance of the
    source account, which the requester owns. *)
Lemma lower_balance_is_senders env user internal external w k b b' :
  balance_of k w = Some b →
  ((∃ n, Internal.amount internal = JNumber n) →
   balance_of k (Internal.post env user internal w).1 = Some b' → b' < b →
   k = Internal.fromAccount internal
   ∧ Account.row_user <$> accounts w !! k = Some user)
  ∧ (balance_of k (External.post env user external w).1 = Some b' → b' < b →
     k = External.fromAccount external
     ∧ Account.row_user <$> accounts w !! k = Some user).
Proof.
  unfold balance_of. intros Hb.
  assert (Hsame : ∀ m : gmap string Account.row,
    m = accounts w → Account.row_balance <$> m !! k = Some b' → ¬ b' < b).
  { intros m -> Hb'. rewrite Hb in Hb'. injection Hb' as ->.
    apply Qcle_not_lt, Qcle_refl. }
  split.
  - intros [n Hamount] Hb' Hlt. destruct (internal_outcomes env user internal w)
      as [(st & c & Hrun)|(s & r & a & Hv & Hs & Hu & Hr & _ & Hnum & Hpos & _ & Hout)].
    { rewrite Hrun in Hb'. by destruct (Hsame _ eq_refl Hb'). }
    rewrite Hamount in Hnum. injection Hnum as ->.
    assert (Hdebit : ∀ m : gmap string Account.row,
      m = alter (Account.set_row_balance (Account.row_balance s - a))
            (Internal.fromAccount internal) (accounts w) →
      Account.row_balance <$> m !! k = Some b' →
      k = Internal.fromAccount internal
      ∧ Account.row_user <$> accounts w !! k = Some user).
    { intros m -> Hm. destruct (decide (k = Internal.fromAccount internal)) as [->|Hk].
      - by rewrite Hs, <- Hu.
      - rewrite lookup_alter_ne in Hm by done. by destruct (Hsame _ eq_refl Hm). }
    destruct Hout as [(Ha & _)|[(Ha & _)|(c & _ & Hc & Ha & _)]].
    { by destruct (Hsame _ Ha Hb'). }
    { by apply (Hdebit _ Ha). }
    rewrite (Hc a Hamount) in Ha. rewrite Ha in Hb'.
    destruct (decide (k = Internal.toAccount internal)) as [->|Hk];
      [| rewrite lookup_alter_ne in Hb' by done; by apply (Hdebit _ eq_refl)].
    rewrite lookup_alter_eq in Hb'.
    destruct (decide (Internal.toAccount internal = Internal.fromAccount internal))
      as [Heq|Hne];
      [ rewrite Heq in *; rewrite lookup_alter_eq, Hs in Hb'; by rewrite Hs, <- Hu
      | rewrite lookup_alter_ne, Hr in Hb' by done ].
    rewrite Hr in Hb. simplify_eq/=. by destruct (Qc_lt_add_pos _ _ Hpos Hlt).
  - intros Hb' Hlt. destruct (external_outcomes env user external w)
      as [(st & c & Hrun)|(s & _ & _ & Hs & Hu & _ & _ & [Ha _ _ _] & _)].
    { rewrite Hrun in Hb'. by destruct (Hsame _ eq_refl Hb'). }
    destruct (decide (k = External.fromAccount external)) as [->|Hk].
    + by rewrite Hs, <- Hu.
    + rewrite Ha in Hb' by done. by destruct (Hsame _ eq_refl Hb').
Qed.

(** X11. Only the requester's own account can lose money.  When a balance
    is lower after [POST /external], or after [POST /internal] with an
    amount sent as a JSON number, than before, the account is the source
    account of the request and the requester owns it.  [POST /incoming]
    with an amount sent as a JSON number lowers no balance. *)
Theorem no_unauthorized_debit env user internal external incoming w k b b' :
  balance_of k w = Some b →
  ((∃ n, Internal.amount internal = JNumber n) →
   balance_of k (Internal.post env user internal w).1 = Some b' → b' < b →
   k = Internal.fromAccount internal
   ∧ Account.row_user <$> accounts w !! k = Some user)
  ∧ (balance_of k (External.post env user external w).1 = Some b' → b' < b →
     k = External.fromAccount external
     ∧ Account.row_user <$> accounts w !! k = Some user)
  ∧ ((∃ n, Incoming.amount incoming = JNumber n) →
     balance_of k (Incoming.post env incoming w).1 = Some b' → b ≤ b').
Proof.
  intros Hb.
  destruct (lower_balance_is_senders env user internal external w k b b' Hb)
    as [Hinternal Hexternal].
  split; [done|]. split; [done|]. unfold balance_of in *.
  intros [n Hamount] Hb'. destruct (incoming_outcomes env incoming w)
    as [(Ha & _)|(r & c & _ & _ & _ & Hr & _ & _ & Hpos & Hc & Ha & _)];
    rewrite Ha in Hb'.
  { rewrite Hb in Hb'. injection Hb' as ->. apply Qcle_refl. }
  rewrite (Hc n Hamount) in *.
  assert (0 < n) by (apply Hpos; by rewrite Hamount).
  destruct (decide (k = Incoming.toAccount incoming)) as [->|Hk].
  - rewrite lookup_alter_eq, Hr in Hb'. rewrite Hr in Hb. simplify_eq/=.
    apply Qcnot_lt_le. by apply Qc_lt_add_pos.
  - rewrite lookup_alter_ne, Hb in Hb' by done. injection Hb' as ->. apply Qcle_refl.
Qed.

Lemma no_unauthorized_debit_witness :
  "OVE-10000001" = Internal.fromAccount sample_internal
  ∧ Account.row_user <$> accounts (sample_world []) !! "OVE-10000001" = Some "alice".
Proof.
  destruct (no_unauthorized_debit (sample_env RelayUnreachable) "alice" sample_internal
              sample_external (sample_incoming (Qc_of_Z 25)) (sample_world [])
              "OVE-10000001" (Qc_of_Z 100) (Qc_of_Z 50)) as [H _].
  - by_compute.
  - apply H.
    + by eexists.
    + by_compute.
    + by vm_compute.
Defined.

(** X12. The history is never rewritten: a record that is stored before a
    request to any of the three settlement handlers is stored unchanged
    after it.  The handlers insert records and update the one they
    inserted; they neither delete nor overwrite a record they found. *)
Theorem history_is_never_rewritten env user internal external incoming w id t :
  transactions w !! id = Some t →
  transactions (Internal.post env user internal w).1 !! id = Some t
  ∧ transactions (External.post env user external w).1 !! id = Some t
  ∧ transactions (Incoming.post env incoming w).1 !! id = Some t.
Proof.
  intros Ht. split; [|split].
  - destruct (internal_outcomes env user internal w)
      as [(st & c & Hrun)|(s & r & a & _ & _ & _ & _ & _ & _ & _ & _ & Hout)].
    { by rewrite Hrun. }
    destruct Hout
      as [(_ & -> & _)
         |[(_ & -> & _)|(b & _ & _ & _ & [(-> & _)|(Hfresh & -> & _)])]]; try done.
    rewrite lookup_insert_ne; [done|]. intros <-. by rewrite Ht in Hfresh.
  - destruct (external_outcomes env user external w)
      as [(st & c & Hrun)|(s & _ & _ & _ & _ & _ & _ & [_ _ Ho Hr] & _)].
    { by rewrite Hrun. }
    destruct (decide (id = uuidv4 env)) as [->|Hid].
    + destruct Hr as [->|[Hnone _]]; [done|]. by rewrite Ht in Hnone.
    + by rewrite Ho.
  - destruct (incoming_outcomes env incoming w)
      as [(_ & -> & _)
         |(r & b & _ & Hfresh & _ & _ & _ & _ & _ & _ & _ & [[_ ->]|[_ ->]])]; try done.
    rewrite lookup_insert_ne; [done|]. intros <-. by rewrite Ht in Hfresh.
Qed.

Lemma history_is_never_rewritten_witness :
  transactions
    (Internal.post (sample_env RelayUnreachable) "alice" sample_internal
       sample_world_dispatched).1 !! "3f2b9c1e"
  = Some (External_record (sample_env (RelayAccepted (Some "accepted"))) "alice"
            sample_external "OVE" IN_PROGRESS None None)
  ∧ transactions
      (External.post (sample_env RelayUnreachable) "alice" sample_external
         sample_world_dispatched).1 !! "3f2b9c1e"
    = Some (External_record (sample_env (RelayAccepted (Some "accepted"))) "alice"
              sample_external "OVE" IN_PROGRESS None None)
  ∧ transactions
      (Incoming.post (sample_env RelayUnreachable) (sample_incoming (Qc_of_Z 25))
         sample_world_dispatched).1 !! "3f2b9c1e"
    = Some (External_record (sample_env (RelayAccepted (Some "accepted"))) "alice"
              sample_external "OVE" IN_PROGRESS None None).
Proof.
  apply history_is_never_rewritten. by_compute.
Defined.

(** X13. The status of the records that each handler adds.  A record that
    is stored after a request and was not stored as such before it is, for
    [POST /internal], an internal COMPLETED record; for [POST /incoming],
    a COMPLETED record that is not internal; for [POST /external], a
    record of the requester that is not COMPLETED: the handler of
    outgoing transfers never marks one completed, also when the central
    bank accepted it. *)
Theorem status_of_new_records env user internal external incoming w id t :
  transactions w !! id ≠ Some t →
  (transactions (Internal.post env user internal w).1 !! id = Some t →
   Transaction.status t = COMPLETED ∧ Transaction.isInternal t = true)
  ∧ (transactions (External.post env user external w).1 !! id = Some t →
     Transaction.status t ≠ COMPLETED ∧ Transaction.isInternal t = false
     ∧ Transaction.initiatedBy t = user)
  ∧ (transactions (Incoming.post env incoming w).1 !! id = Some t →
     Transaction.status t = COMPLETED ∧ Transaction.isInternal t = false).
Proof.
  intros Hnew. split; [|split].
  - destruct (internal_outcomes env user internal w)
      as [(st & c & Hrun)|(s & r & a & _ & _ & _ & _ & _ & _ & _ & _ & Hout)].
    { by rewrite Hrun. }
    destruct Hout
      as [(_ & -> & _)|[(_ & -> & _)|(b & _ & _ & _ & [(-> & _)|(_ & -> & _)])]];
      try done.
    destruct (decide (id = uuidv4 env)) as [->|Hid].
    + rewrite lookup_insert_eq. by intros [= <-].
    + by rewrite lookup_insert_ne.
  - destruct (external_outcomes env user external w)
      as [(st & c & Hrun)|(s & _ & _ & _ & _ & _ & _ & [_ _ Ho Hr] & _)].
    { by rewrite Hrun. }
    destruct (decide (id = uuidv4 env)) as [->|Hid].
    + destruct Hr as [->|[_ (t' & -> & [_ ? ? ?])]]; [done|]. by intros [= <-].
    + by rewrite Ho.
  - destruct (incoming_outcomes env incoming w)
      as [(_ & -> & _)|(r & b & _ & _ & _ & _ & _ & _ & _ & _ & _ & [[_ ->]|[_ ->]])];
      try done.
    destruct (decide (id = Incoming.transactionId incoming)) as [->|Hid].
    + rewrite lookup_insert_eq. by intros [= <-].
    + by rewrite lookup_insert_ne.
Qed.

Lemma status_of_new_records_witness :
  Transaction.status
    (External_record (sample_env (RelayAccepted (Some "accepted"))) "alice"
       sample_external "OVE" IN_PROGRESS None None) ≠ COMPLETED
  ∧ Transaction.isInternal
      (External_record (sample_env (RelayAccepted (Some "accepted"))) "alice"
         sample_external "OVE" IN_PROGRESS None None) = false
  ∧ Transaction.initiatedBy
      (External_record (sample_env (RelayAccepted (Some "accepted"))) "alice"
         sample_external "OVE" IN_PROGRESS None None) = "alice".
Proof.
  destruct (status_of_new_records (sample_env (RelayAccepted (Some "accepted"))) "alice"
              sample_internal sample_external (sample_incoming (Qc_of_Z 25))
              (sample_world []) "3f2b9c1e"
              (External_record (sample_env (RelayAccepted (Some "accepted"))) "alice"
                 sample_external "OVE" IN_PROGRESS None None)) as (_ & H & _).
  - by vm_compute.
  - apply H. by_compute.
Defined.

(** ** External transfers that cannot be sent *)

(** Symbolic evaluation of [POST /external] on a request that passes the
    checks, up to the insertion of the PENDING record; [a] is the Number
    that the amount reads as. *)
Ltac external_checked_prefix Hfaults a Hnum :=
  lazymatch goal with
  | H : External_checked ?env ?user ?body ?w ?s |- _ =>
      let Hv := fresh "Hv" in let Hd := fresh "Hd" in let Hs := fresh "Hs" in
      let Hu := fresh "Hu" in let Hc := fresh "Hc" in let Hf := fresh "Hf" in
      let Hfresh := fresh "Hfresh" in let Huuid := fresh "Huuid" in
      let Hbank := fresh "Hbank" in
      destruct H as [Hv Hd Hs Hu Hc Hf Hfresh Huuid Hbank];
      destruct (External_valid_fields _ _ Hv) as (? & ? & ? & ? & a & Hnum & _ & ? & ?);
      assert (0 < a) by (eapply Qclt_le_trans; [apply min_amount_pos | done]);
      pose proof (External_validate env user body Hv Huuid Hbank) as Hval;
      unfold hasSufficientFunds_value, hasSufficientFunds in Hf;
      rewrite Hnum in Hf; cbn [Account.load Account.balance] in Hf;
      apply bool_decide_eq_true_1 in Hf;
      pose proof (Qc_sub_nonneg _ _ Hf);
      destruct w as [? ? ? ?]; cbn [accounts transactions faults log] in *;
      match type of Hfaults with ?x = _ => subst x end;
      unfold External.post, respond, External.handler;
      unfold try_catch at 1; unfold mbind, M_bind, bind;
      rewrite Hv; simpl negb; cbv iota; pass_checks;
      unfold Account_findOne; munfold; msimpl; rewrite Hs; msimpl;
      pass_checks; msimpl;
      unfold hasSufficientFunds_value, hasSufficientFunds; rewrite ?Hnum;
      msimpl; pass_checks; msimpl;
      rewrite Transaction_save_eq;
      match type of Hval with ?lhs = None => change (Transaction_validate _) with lhs end;
      rewrite Hval; unfold db_write; msimpl;
      rewrite ?Hfresh; msimpl
  end.

(** X14. An external transfer that cannot be signed leaves an orphan.
    The record is inserted as PENDING before the key is read; when the
    key file is missing, or holds no private key, [signTransaction]
    throws, the error goes to the error middleware, nothing is debited,
    nothing is sent, and the PENDING record stays, unsigned. *)
Theorem external_without_key_leaves_pending env user body w s :
  External_checked env user body w s →
  faults w = [] →
  (∀ kid, private_key_file env ≠ Some (RsaPrivate kid)) →
  (∃ e, (External.post env user body w).2 = RNext e)
  ∧ accounts (External.post env user body w).1 = accounts w
  ∧ transactions (External.post env user body w).1
    = <[uuidv4 env := External_pending env user body]> (transactions w)
  ∧ status_of (uuidv4 env) (External.post env user body w).1 = Some PENDING
  ∧ ∃ read,
      log (External.post env user body w).1
      = (log w ++ EvSaveTransaction (uuidv4 env) PENDING :: read)%list
      ∧ (read = [] ∨ read = [EvReadPrivateKey]).
Proof.
  intros Hchecked Hfaults Hkey. external_checked_prefix Hfaults a Hnum.
  rewrite signTransaction_eq.
  destruct (private_key_file env) as [[kid| |]|] eqn:Hfile;
    [by destruct (Hkey kid)| | |]; msimpl; unfold status_of; msimpl;
    rewrite lookup_insert_eq;
    (split; [by eexists|]); (split; [done|]); (split; [done|]); (split; [done|]).
  - exists [EvReadPrivateKey]. split; [by rewrite <- app_assoc | by right].
  - exists [EvReadPrivateKey]. split; [by rewrite <- app_assoc | by right].
  - exists []. split; [done | by left].
Qed.

Lemma external_without_key_leaves_pending_witness :
  (∃ e, (External.post sample_env_without_key "alice" sample_external
           (sample_world [])).2 = RNext e)
  ∧ accounts (External.post sample_env_without_key "alice" sample_external
                (sample_world [])).1 = accounts (sample_world [])
  ∧ transactions (External.post sample_env_without_key "alice" sample_external
                    (sample_world [])).1
    = <[uuidv4 sample_env_without_key :=
          External_pending sample_env_without_key "alice" sample_external]>
        (transactions (sample_world []))
  ∧ status_of (uuidv4 sample_env_without_key)
      (External.post sample_env_without_key "alice" sample_external
         (sample_world [])).1 = Some PENDING
  ∧ ∃ read,
      log (External.post sample_env_without_key "alice" sample_external
             (sample_world [])).1
      = (log (sample_world [])
         ++ EvSaveTransaction (uuidv4 sample_env_without_key) PENDING :: read)%list
      ∧ (read = [] ∨ read = [EvReadPrivateKey]).
Proof.
  apply (external_without_key_leaves_pending sample_env_without_key "alice"
           sample_external (sample_world [])
           (Account.mkRow "alice" EUR (Qc_of_Z 100) true)).
  - split; by vm_compute.
  - reflexivity.
  - by intros kid.
Defined.

(** X15. An external transfer without a central bank to send it to.  When
    the URL of the central bank is not configured, a request whose amount
    is a JSON number is signed, moved to IN_PROGRESS and debited as
    usual; the dispatch then throws before anything is sent, the sender is
    credited back once, by the amount, from the debited balance, the
    record is marked FAILED with CENTRAL_BANK_ERROR and the error goes to
    the error middleware. *)
Theorem external_without_url_compensates env user body w s kid a :
  External_checked env user body w s →
  External.amount body = JNumber a →
  faults w = [] →
  private_key_file env = Some (RsaPrivate kid) →
  CENTRAL_BANK_URL env = None →
  (External.post env user body w).2 = RNext TypeError
  ∧ balance_of (External.fromAccount body) (External.post env user body w).1
    = Some (Account.row_balance s - a + a)
  ∧ (∀ k, k ≠ External.fromAccount body →
       accounts (External.post env user body w).1 !! k = accounts w !! k)
  ∧ transactions (External.post env user body w).1
    = <[uuidv4 env :=
          External_record env user body kid FAILED (Some "CENTRAL_BANK_ERROR")
            (Some "Failed to communicate with central bank")]> (transactions w)
  ∧ log (External.post env user body w).1
    = (log w ++
       [EvSaveTransaction (uuidv4 env) PENDING; EvReadPrivateKey;
        EvSaveTransaction (uuidv4 env) IN_PROGRESS;
        EvSaveAccount (External.fromAccount body) (Account.row_balance s - a);
        EvSaveAccount (External.fromAccount body) (Account.row_balance s - a + a);
        EvSaveTransaction (uuidv4 env) FAILED])%list.
Proof.
  intros Hchecked Hamount Hfaults Hkey Hurl. external_checked_prefix Hfaults a' Hnum.
  assert (a' = a) as -> by (rewrite Hamount in Hnum; by injection Hnum).
  rewrite signTransaction_eq, Hkey. msimpl.
  unfold markInProgress, updateStatus. munfold. msimpl.
  rewrite Transaction_save_eq.
  match type of Hval with ?lhs = None => change (Transaction_validate _) with lhs end.
  rewrite Hval.
  unfold db_write. msimpl. rewrite lookup_insert_eq. msimpl.
  unfold debit_value. rewrite Hnum.
  rewrite debit_eq. msimpl. pass_checks.
  rewrite Account_save_eq. msimpl. pass_checks. unfold db_write. msimpl.
  rewrite Hs. msimpl.
  assert (0 ≤ Account.row_balance s - a + a) by by apply Qc_add_nonneg.
  unfold External.dispatch. munfold. msimpl. rewrite Hurl. msimpl.
  replace (credit_value env (External.amount body)) with (credit a)
    by (by rewrite Hamount).
  external_credit Hs. external_markFailed Hval.
  unfold balance_of. msimpl.
  rewrite lookup_alter_eq, lookup_alter_eq, Hs, !insert_insert_eq, <- !app_assoc.
  repeat split. intros k Hk. by rewrite !lookup_alter_ne.
Qed.

Lemma external_without_url_compensates_witness :
  (External.post sample_env_without_url "alice" sample_external (sample_world [])).2
  = RNext TypeError
  ∧ balance_of (External.fromAccount sample_external)
      (External.post sample_env_without_url "alice" sample_external
         (sample_world [])).1
    = Some (Account.row_balance (Account.mkRow "alice" EUR (Qc_of_Z 100) true)
            - Qc_of_Z 50 + Qc_of_Z 50)
  ∧ (∀ k, k ≠ External.fromAccount sample_external →
       accounts (External.post sample_env_without_url "alice" sample_external
                   (sample_world [])).1 !! k
       = accounts (sample_world []) !! k)
  ∧ transactions (External.post sample_env_without_url "alice" sample_external
                    (sample_world [])).1
    = <[uuidv4 sample_env_without_url :=
          External_record sample_env_without_url "alice" sample_external "OVE" FAILED
            (Some "CENTRAL_BANK_ERROR")
            (Some "Failed to communicate with central bank")]>
        (transactions (sample_world []))
  ∧ log (External.post sample_env_without_url "alice" sample_external
           (sample_world [])).1
    = (log (sample_world []) ++
       [EvSaveTransaction (uuidv4 sample_env_without_url) PENDING; EvReadPrivateKey;
        EvSaveTransaction (uuidv4 sample_env_without_url) IN_PROGRESS;
        EvSaveAccount (External.fromAccount sample_external)
          (Account.row_balance (Account.mkRow "alice" EUR (Qc_of_Z 100) true)
           - Qc_of_Z 50);
        EvSaveAccount (External.fromAccount sample_external)
          (Account.row_balance (Account.mkRow "alice" EUR (Qc_of_Z 100) true)
           - Qc_of_Z 50 + Qc_of_Z 50);
        EvSaveTransaction (uuidv4 sample_env_without_url) FAILED])%list.
Proof.
  apply (external_without_url_compensates sample_env_without_url "alice"
           sample_external (sample_world [])
           (Account.mkRow "alice" EUR (Qc_of_Z 100) true) "OVE" (Qc_of_Z 50)).
  - split; by vm_compute.
  - reflexivity.
  - reflexivity.
  - reflexivity.
  - reflexivity.
Defined.

(** ** Incoming transfers, beyond the three outcomes *)

Lemma Incoming_validate env body user a :
  Incoming.transactionId body ≠ "" → Incoming.fromAccount body ≠ "" →
  Incoming.toAccount body ≠ "" → Incoming.fromBank body ≠ "" →
  Incoming.toBank body ≠ "" →
  Incoming.amount body = JNumber a → min_amount ≤ a → a ≤ max_amount →
  Incoming.currency body ∈ currency_enum →
  Transaction_validate
    (Transaction.set_status COMPLETED None None
       (new_Transaction env (Incoming.transactionId body) (Incoming.fromAccount body)
          (Incoming.toAccount body) (Incoming.fromBank body) (Incoming.toBank body)
          (Incoming.amount body) (Incoming.currency body)
          (Incoming.description body) false (Some (Incoming.signature body)) user))
  = None.
Proof.
  intros ????? Hamount ???. unfold Transaction_validate. cbn. rewrite Hamount. cbn.
  pass_checks. done.
Qed.

(** X16. An incoming transfer that fits the schema is one unit.  A request
    for this bank with a fresh identifier, a token that verifies under
    the key of the sending bank, a stored destination account in the
    currency of the request and an amount sent as a JSON number between
    0.01 and 1,000,000 is answered COMPLETED when no write fails: the
    destination is credited by the amount, the COMPLETED record is stored
    under the identifier of the request, in the name of the owner of the
    destination, and no other account changes.  (The route has no
    validator; an amount sent as a string is appended to the balance, see
    [internal_transfer_string_amount] for the same step of
    [POST /internal].) *)
Theorem incoming_accepts_valid_request env body w r a :
  Incoming_accepted env body w r a →
  faults w = [] →
  (Incoming.post env body w).2 = RProcessed (Incoming.transactionId body)
  ∧ balance_of (Incoming.toAccount body) (Incoming.post env body w).1
    = Some (Account.row_balance r + a)
  ∧ (∀ k, k ≠ Incoming.toAccount body →
       accounts (Incoming.post env body w).1 !! k = accounts w !! k)
  ∧ transactions (Incoming.post env body w).1
    = <[Incoming.transactionId body :=
          Incoming_completed env body (Account.row_user r)]>
        (transactions w).
Proof.
  intros [Hbank Hfresh (pk & claims & Hkey & Hverify) Hr Hcur Hnonneg Hamount Hmin Hmax
          Hid Hfrom Hto HfromBank HtoBank] Hfaults.
  assert (Hpos : 0 < a)
    by (eapply Qclt_le_trans; [apply min_amount_pos | done]).
  pose proof (Qc_add_nonneg _ _ Hnonneg Hpos) as Hsum.
  assert (Hval := Incoming_validate env body (Account.row_user r) a Hid Hfrom Hto
                    HfromBank HtoBank Hamount Hmin Hmax).
  rewrite <- Hcur in Hval. specialize (Hval (currency_code_in_enum _)). rewrite Hcur in Hval.
  unfold Incoming_completed.
  remember (Incoming.post env body w) as out eqn:Hout. revert Hout.
  unfold Incoming.post, respond, Incoming.handler.
  unfold try_catch at 1. unfold mbind, M_bind, bind.
  rewrite bool_decide_eq_false_2 by (by intros ?).
  unfold Transaction_findOne at 1. munfold. cbn [fst snd]. rewrite Hfresh.
  destruct (verifySignature_eq env (Incoming.payloadToVerify body)
              (Incoming.signature body) (Incoming.fromBank body) () w)
    as (w1 & Ha1 & Ht1 & Hf1 & Hrun).
  rewrite Hrun, Hkey, Hverify.
  rewrite bool_decide_eq_true_2 by by eexists.
  cbn [negb fst snd]. unfold Account_findOne. munfold. cbn [fst snd]. rewrite Ha1, Hr.
  cbn [fmap option_fmap option_map].
  rewrite bool_decide_eq_false_2 by (by intros ?).
  cbn [Incoming.recipientAccount Incoming.transaction Incoming.set_recipientAccount
       Incoming.set_transaction fst snd].
  replace (credit_value env (Incoming.amount body)) with (credit a)
    by (by rewrite Hamount).
  rewrite credit_eq. rewrite bool_decide_eq_false_2 by by apply Qclt_not_le.
  rewrite Account_save_eq.
  cbn [Account.balance Account.set_balance Account.accountNumber Account.load].
  rewrite bool_decide_eq_false_2 by by apply Qcle_not_lt.
  unfold db_write. rewrite Hf1, Hfaults, Ha1, Hr.
  cbn [Incoming.recipientAccount Incoming.transaction Incoming.set_recipientAccount
       Incoming.set_transaction fst snd].
  unfold markCompleted, updateStatus. munfold. cbn [fst snd Incoming.transaction].
  rewrite Transaction_save_eq.
  match type of Hval with ?lhs = None => change (Transaction_validate _) with lhs end.
  rewrite Hval. unfold db_write, emit, set_accounts.
  cbn [faults accounts transactions log]. rewrite Hf1, Hfaults.
  cbn [Transaction.isNew Transaction.set_status new_Transaction
       Transaction.transactionId].
  rewrite Ht1, Hfresh. cbn [fst snd]. intros ->. unfold balance_of, set_transactions.
  cbn [fst snd accounts transactions]. rewrite lookup_alter_eq, ?Ha1, Hr, ?Ht1.
  repeat split. intros k Hk. by rewrite lookup_alter_ne.
Qed.

Lemma incoming_accepts_valid_request_witness :
  (Incoming.post (sample_env RelayUnreachable) (sample_incoming (Qc_of_Z 25))
     (sample_world [])).2
  = RProcessed (Incoming.transactionId (sample_incoming (Qc_of_Z 25)))
  ∧ balance_of (Incoming.toAccount (sample_incoming (Qc_of_Z 25)))
      (Incoming.post (sample_env RelayUnreachable) (sample_incoming (Qc_of_Z 25))
         (sample_world [])).1
    = Some (Account.row_balance (Account.mkRow "alice" EUR (Qc_of_Z 100) true)
            + Qc_of_Z 25)
  ∧ (∀ k, k ≠ Incoming.toAccount (sample_incoming (Qc_of_Z 25)) →
       accounts (Incoming.post (sample_env RelayUnreachable)
                   (sample_incoming (Qc_of_Z 25)) (sample_world [])).1 !! k
       = accounts (sample_world []) !! k)
  ∧ transactions (Incoming.post (sample_env RelayUnreachable)
                    (sample_incoming (Qc_of_Z 25)) (sample_world [])).1
    = <[Incoming.transactionId (sample_incoming (Qc_of_Z 25)) :=
          Incoming_completed (sample_env RelayUnreachable)
            (sample_incoming (Qc_of_Z 25))
            (Account.row_user (Account.mkRow "alice" EUR (Qc_of_Z 100) true))]>
        (transactions (sample_world [])).
Proof.
  apply (incoming_accepts_valid_request (sample_env RelayUnreachable)
           (sample_incoming (Qc_of_Z 25)) (sample_world [])
           (Account.mkRow "alice" EUR (Qc_of_Z 100) true) (Qc_of_Z 25)).
  - split; try by vm_compute.
    exists (RsaPublic "ABC"), (sample_incoming_payload (Qc_of_Z 25)).
    split; by vm_compute.
  - reflexivity.
Defined.

(** X17. An amount that is not positive never reaches the store through
    [POST /incoming]: the handler has no validator for it, and it is
    [credit] that throws; both collections stay as they were and the
    request is not answered COMPLETED.  The amount is the number the
    value of the request converts to, so this covers a JSON number and a
    string that reads as one alike. *)
Theorem incoming_nonpositive_amount_persists_nothing env body w a :
  ToNumber env (Incoming.amount body) = Some a →
  a ≤ 0 →
  accounts (Incoming.post env body w).1 = accounts w
  ∧ transactions (Incoming.post env body w).1 = transactions w
  ∧ (Incoming.post env body w).2 ≠ RProcessed (Incoming.transactionId body).
Proof.
  intros Hnum Hle. destruct (incoming_outcomes env body w)
    as [?|(r & b & _ & _ & _ & _ & _ & _ & Hpos & _)]; [done|].
  by destruct (Qcle_not_lt _ _ Hle (Hpos a Hnum)).
Qed.

Lemma incoming_nonpositive_amount_persists_nothing_witness :
  accounts (Incoming.post (sample_env RelayUnreachable) (sample_incoming (Qc_of_Z (-25)))
              (sample_world [])).1 = accounts (sample_world [])
  ∧ transactions (Incoming.post (sample_env RelayUnreachable)
                    (sample_incoming (Qc_of_Z (-25))) (sample_world [])).1
    = transactions (sample_world [])
  ∧ (Incoming.post (sample_env RelayUnreachable) (sample_incoming (Qc_of_Z (-25)))
       (sample_world [])).2
    ≠ RProcessed (Incoming.transactionId (sample_incoming (Qc_of_Z (-25)))).
Proof.
  apply (incoming_nonpositive_amount_persists_nothing (sample_env RelayUnreachable)
           (sample_incoming (Qc_of_Z (-25))) (sample_world []) (Qc_of_Z (-25))).
  - reflexivity.
  - by vm_compute.
Defined.

(** X18. A token that does not verify moves no money.  When the request
    is for this bank and its identifier is fresh, and no key is found for
    the bank it names, or the token fails [jwt.verify] under the key
    found, [POST /incoming] answers 400 INVALID_SIGNATURE and both
    collections stay as they were, whatever the account, the currency and
    the amount of the request. *)
Theorem incoming_invalid_signature_rejected env body w :
  Incoming.toBank body = BANK_PREFIX env →
  transactions w !! Incoming.transactionId body = None →
  match resolved_key env (Incoming.fromBank body) with
  | Some publicKey => jwt_verify (Incoming.signature body) publicKey = None
  | None => True
  end →
  (Incoming.post env body w).2
  = RError 400 "INVALID_SIGNATURE" (Some (Incoming.transactionId body))
  ∧ accounts (Incoming.post env body w).1 = accounts w
  ∧ transactions (Incoming.post env body w).1 = transactions w.
Proof.
  intros Hbank Hfresh Hkey.
  remember (Incoming.post env body w) as out eqn:Hout. revert Hout.
  unfold Incoming.post, respond, Incoming.handler.
  unfold try_catch at 1. unfold mbind, M_bind, bind.
  rewrite bool_decide_eq_false_2 by (by intros ?).
  unfold Transaction_findOne at 1. munfold. cbn [fst snd]. rewrite Hfresh.
  destruct (verifySignature_eq env (Incoming.payloadToVerify body)
              (Incoming.signature body) (Incoming.fromBank body) () w)
    as (w1 & Ha1 & Ht1 & Hf1 & Hrun).
  rewrite Hrun.
  destruct (resolved_key env (Incoming.fromBank body)) as [pk|].
  - rewrite Hkey. rewrite bool_decide_eq_false_2 by (by intros [??]).
    cbn [negb fst snd mret M_ret ret]. intros ->. by rewrite <- Ha1, <- Ht1.
  - cbn [negb fst snd mret M_ret ret]. intros ->. by rewrite <- Ha1, <- Ht1.
Qed.

Lemma incoming_invalid_signature_rejected_witness :
  (Incoming.post (sample_env RelayUnreachable)
     (Incoming.mkRequest "a81d44c0" "ABC" "ABC-20000001" "OVE" "OVE-10000001"
        (JNumber (Qc_of_Z 25)) "EUR" "invoice" "2025-01-02T00:00:00.000Z"
        (Malformed "not a token"))
     (sample_world [])).2
  = RError 400 "INVALID_SIGNATURE" (Some "a81d44c0")
  ∧ accounts (Incoming.post (sample_env RelayUnreachable)
                (Incoming.mkRequest "a81d44c0" "ABC" "ABC-20000001" "OVE" "OVE-10000001"
                   (JNumber (Qc_of_Z 25)) "EUR" "invoice" "2025-01-02T00:00:00.000Z"
                   (Malformed "not a token"))
                (sample_world [])).1 = accounts (sample_world [])
  ∧ transactions (Incoming.post (sample_env RelayUnreachable)
                    (Incoming.mkRequest "a81d44c0" "ABC" "ABC-20000001" "OVE"
                       "OVE-10000001" (JNumber (Qc_of_Z 25)) "EUR" "invoice"
                       "2025-01-02T00:00:00.000Z" (Malformed "not a token"))
                    (sample_world [])).1 = transactions (sample_world []).
Proof.
  apply (incoming_invalid_signature_rejected (sample_env RelayUnreachable)
           (Incoming.mkRequest "a81d44c0" "ABC" "ABC-20000001" "OVE" "OVE-10000001"
              (JNumber (Qc_of_Z 25)) "EUR" "invoice" "2025-01-02T00:00:00.000Z"
              (Malformed "not a token"))
           (sample_world [])).
  - reflexivity.
  - reflexivity.
  - by vm_compute.
Defined.

(** ** Who reads what *)

Lemma Account_find_eq {L} user (l : L) w :
  Account_find user (l, w)
  = ((l, w),
     Ok ((λ kr, Account.load kr.1 kr.2) <$>
         map_to_list (filter (λ kr, Account.row_user kr.2 = user) (accounts w)))).
Proof. reflexivity. Qed.

Lemma elem_of_Account_find w user (a : Account) :
  a ∈ (λ kr : string * Account.row, Account.load kr.1 kr.2) <$>
      map_to_list (filter (λ kr, Account.row_user kr.2 = user) (accounts w))
  ↔ ∃ r, accounts w !! Account.accountNumber a = Some r
         ∧ Account.row_user r = user
         ∧ a = Account.load (Account.accountNumber a) r.
Proof.
  rewrite list_elem_of_fmap. split.
  - intros ([k r] & -> & Hkr). apply elem_of_map_to_list in Hkr.
    apply map_lookup_filter_Some in Hkr as [Hr Hu]. by exists r.
  - intros (r & Hr & Hu & Ha). exists (Account.accountNumber a, r). split; [done|].
    apply elem_of_map_to_list, map_lookup_filter_Some. by split.
Qed.

Lemma elem_of_userAccountNumbers w user k :
  k ∈ Account.accountNumber <$>
      ((λ kr : string * Account.row, Account.load kr.1 kr.2) <$>
       map_to_list (filter (λ kr, Account.row_user kr.2 = user) (accounts w)))
  ↔ owns w user k.
Proof.
  rewrite list_elem_of_fmap. split.
  - intros (a & -> & Ha). apply elem_of_Account_find in Ha as (r & Hr & Hu & _).
    by exists r.
  - intros (r & Hr & Hu). exists (Account.load k r). split; [done|].
    apply elem_of_Account_find. by exists r.
Qed.

(** X19. Who may read a transaction.  [GET /:transactionId] changes
    nothing.  It answers 404 exactly when no record is stored under the
    identifier; it returns the stored record exactly when the requester
    owns its source account or its destination account, or initiated it,
    or has the role admin; to everybody else it answers 403. *)
Theorem transaction_shown_to_parties_only (user : User) (id : string) (w : World) :
  (ById.get user id w).1 = w
  ∧ ((ById.get user id w).2 = VError 404 "TRANSACTION_NOT_FOUND"
     ↔ transactions w !! id = None)
  ∧ (∀ t, (ById.get user id w).2 = VTransaction t
          ↔ transactions w !! id = Some t
            ∧ (owns w (User._id user) (Transaction.fromAccount t)
               ∨ owns w (User._id user) (Transaction.toAccount t)
               ∨ Transaction.initiatedBy t = User._id user
               ∨ User.role user = "admin"))
  ∧ ((ById.get user id w).2 = VError 403 "FORBIDDEN"
     ↔ ∃ t, transactions w !! id = Some t
            ∧ ¬ owns w (User._id user) (Transaction.fromAccount t)
            ∧ ¬ owns w (User._id user) (Transaction.toAccount t)
            ∧ Transaction.initiatedBy t ≠ User._id user
            ∧ User.role user ≠ "admin").
Proof.
  unfold ById.get, view, ById.handler, try_catch, Transaction_findOne.
  unfold mbind, M_bind, bind, world. cbn [fst snd mret M_ret ret].
  destruct (transactions w !! id) as [t|] eqn:Ht.
  2:{ cbn. split; [done|]. split; [done|]. split; [by intros t; split; [|intros [? _]]|].
      split; [done|]. by intros (t & ? & _). }
  rewrite Account_find_eq. cbn [fst snd].
  do 4 case_bool_decide; cbn [negb orb andb fst snd];
    repeat match goal with
           | H : context [_ ∈ _] |- _ => rewrite elem_of_userAccountNumbers in H
           end;
    (split; [done|]); (split; [done|]); split.
  all: try (split; [intros [= <-]; tauto | by intros ([= <-] & _)]).
  all: try (split; [done|]; intros (t' & [= <-] & ? & ? & ? & ?); tauto).
  all: try (split; [done | intros ([= <-] & ?); tauto]).
  all: split; [intros _; by exists t | done].
Qed.

Lemma transaction_shown_to_parties_only_witness :
  (ById.get (User.mk "bob" "user" true) "3f2b9c1e" sample_world_dispatched).2
  = VError 403 "FORBIDDEN".
Proof.
  destruct (transaction_shown_to_parties_only (User.mk "bob" "user" true) "3f2b9c1e"
              sample_world_dispatched) as (_ & _ & _ & H).
  apply H.
  exists (External_record (sample_env (RelayAccepted (Some "accepted"))) "alice"
            sample_external "OVE" IN_PROGRESS None None).
  split; [by_compute|]. unfold owns. split; [|split; [|split]].
  - intros (r & Hr & Hu). revert Hr Hu. vm_compute. by intros [= <-].
  - intros (r & Hr & Hu). revert Hr. by vm_compute.
  - by vm_compute.
  - by vm_compute.
Defined.

Lemma Transaction_find_eq {L} newest_first query (l : L) w :
  Transaction_find newest_first query (l, w)
  = ((l, w),
     Ok (newest_first
           (filter (λ t, query t = true) (map_to_list (transactions w)).*2))).
Proof. reflexivity. Qed.

Lemma elem_of_Transaction_find newest_first query w t :
  (∀ l : list Transaction, newest_first l ≡ₚ l) →
  t ∈ newest_first (filter (λ t, query t = true) (map_to_list (transactions w)).*2)
  ↔ (∃ id, transactions w !! id = Some t) ∧ query t = true.
Proof.
  intros Hperm. rewrite Hperm, list_elem_of_filter, list_elem_of_fmap. split.
  - intros [Hq ([id t'] & -> & Ht)]. apply elem_of_map_to_list in Ht. eauto.
  - intros [[id Ht] Hq]. split; [done|]. exists (id, t). split; [done|].
    by apply elem_of_map_to_list.
Qed.

(** X20. What a user's list shows.  [GET /] changes nothing and returns,
    in the order of the sort, exactly the stored records whose source
    account or destination account the requester owns.  A record that the
    requester only initiated is not listed, and the role admin adds
    nothing to the list. *)
Theorem listing_shows_own_account_traffic
    (newest_first : list Transaction → list Transaction) (user : User) (w : World) :
  (∀ l, newest_first l ≡ₚ l) →
  (Index.get newest_first user w).1 = w
  ∧ ∃ ts,
      (Index.get newest_first user w).2 = VTransactions ts
      ∧ ∀ t, t ∈ ts
             ↔ (∃ id, transactions w !! id = Some t)
               ∧ (owns w (User._id user) (Transaction.fromAccount t)
                  ∨ owns w (User._id user) (Transaction.toAccount t)).
Proof.
  intros Hperm. unfold Index.get, view, Index.handler, try_catch.
  unfold mbind, M_bind, bind. rewrite Account_find_eq. cbn [fst snd].
  rewrite Transaction_find_eq. cbn [fst snd mret M_ret ret].
  split; [done|]. eexists. split; [done|]. intros t.
  rewrite elem_of_Transaction_find by done.
  rewrite orb_true_iff, !bool_decide_eq_true, !elem_of_userAccountNumbers. tauto.
Qed.

Lemma listing_shows_own_account_traffic_witness :
  (Index.get id (User.mk "alice" "user" true) sample_world_dispatched).1
  = sample_world_dispatched
  ∧ ∃ ts,
      (Index.get id (User.mk "alice" "user" true) sample_world_dispatched).2
      = VTransactions ts
      ∧ ∀ t, t ∈ ts
             ↔ (∃ id, transactions sample_world_dispatched !! id = Some t)
               ∧ (owns sample_world_dispatched "alice" (Transaction.fromAccount t)
                  ∨ owns sample_world_dispatched "alice" (Transaction.toAccount t)).
Proof.
  apply (listing_shows_own_account_traffic id (User.mk "alice" "user" true)
           sample_world_dispatched).
  intros l. reflexivity.
Defined.

Lemma ById_get_involved (user : User) id w t :
  transactions w !! id = Some t →
  owns w (User._id user) (Transaction.fromAccount t)
  ∨ owns w (User._id user) (Transaction.toAccount t) →
  (ById.get user id w).2 = VTransaction t.
Proof.
  intros Ht Hown. unfold ById.get, view, ById.handler, try_catch, Transaction_findOne.
  unfold mbind, M_bind, bind, world. cbn [fst snd mret M_ret ret]. rewrite Ht.
  rewrite Account_find_eq. cbn [fst snd].
  destruct Hown as [Hown|Hown]; apply elem_of_userAccountNumbers in Hown.
  - by rewrite (bool_decide_eq_true_2 _ Hown).
  - rewrite (bool_decide_eq_true_2 (Transaction.toAccount t ∈ _) Hown).
    by rewrite orb_true_r.
Qed.

(** X21. Every record that [GET /] lists for a user is returned to the
    same user by [GET /:transactionId], in a store whose records sit
    under their own identifiers. *)
Theorem listed_transactions_can_be_shown
    (newest_first : list Transaction → list Transaction) (user : User) (w : World)
    (ts : list Transaction) (t : Transaction) :
  (∀ l, newest_first l ≡ₚ l) →
  valid_records w →
  (Index.get newest_first user w).2 = VTransactions ts →
  t ∈ ts →
  (ById.get user (Transaction.transactionId t) w).2 = VTransaction t.
Proof.
  intros Hperm Hvalid Hlist Ht. revert Hlist.
  unfold Index.get, view, Index.handler, try_catch.
  unfold mbind, M_bind, bind. rewrite Account_find_eq. cbn [fst snd].
  rewrite Transaction_find_eq. cbn [fst snd mret M_ret ret]. intros [= <-].
  apply elem_of_Transaction_find in Ht as [[id Hid] Hq]; [|done].
  destruct (Hvalid id t Hid) as (<- & _).
  apply ById_get_involved; [done|].
  by rewrite orb_true_iff, !bool_decide_eq_true, !elem_of_userAccountNumbers in Hq.
Qed.

Lemma listed_transactions_can_be_shown_witness :
  (ById.get (User.mk "alice" "user" true)
     (Transaction.transactionId
        (External_record (sample_env (RelayAccepted (Some "accepted"))) "alice"
           sample_external "OVE" IN_PROGRESS None None))
     sample_world_dispatched).2
  = VTransaction
      (External_record (sample_env (RelayAccepted (Some "accepted"))) "alice"
         sample_external "OVE" IN_PROGRESS None None).
Proof.
  apply (listed_transactions_can_be_shown id (User.mk "alice" "user" true)
           sample_world_dispatched
           [External_record (sample_env (RelayAccepted (Some "accepted"))) "alice"
              sample_external "OVE" IN_PROGRESS None None]).
  - intros l. reflexivity.
  - change (map_Forall
              (λ id t, Transaction.transactionId t = id
                       ∧ Transaction_validate t = None
                       ∧ Transaction.isNew t = false)
              (transactions sample_world_dispatched)).
    by_compute.
  - by_compute.
  - apply list_elem_of_singleton. reflexivity.
Defined.

(** X22. The list of a user is the union of the histories of the user's
    accounts: a record is listed by [GET /] exactly when
    [findByAccount] returns it for an account that the requester owns. *)
Theorem listing_is_union_of_account_histories
    (newest_first : list Transaction → list Transaction) (user : User) (w : World)
    (ts : list Transaction) (t : Transaction) :
  (∀ l, newest_first l ≡ₚ l) →
  (Index.get newest_first user w).2 = VTransactions ts →
  t ∈ ts
  ↔ ∃ accountNumber history,
      owns w (User._id user) accountNumber
      ∧ (findByAccount newest_first accountNumber ((), w)).2 = Ok history
      ∧ t ∈ history.
Proof.
  intros Hperm. unfold Index.get, view, Index.handler, try_catch.
  unfold mbind, M_bind, bind. rewrite Account_find_eq. cbn [fst snd].
  rewrite Transaction_find_eq. cbn [fst snd mret M_ret ret]. intros [= <-].
  rewrite elem_of_Transaction_find by done.
  rewrite orb_true_iff, !bool_decide_eq_true, !elem_of_userAccountNumbers.
  unfold findByAccount. split.
  - intros [Hstored [Hown|Hown]]; eexists _, _; (split; [exact Hown|]);
      rewrite Transaction_find_eq; (split; [done|]);
      apply elem_of_Transaction_find; [done| |done|]; (split; [done|]);
      rewrite orb_true_iff, !bool_decide_eq_true; auto.
  - intros (k & history & Hown & Hrun & Ht). rewrite Transaction_find_eq in Hrun.
    injection Hrun as <-. apply elem_of_Transaction_find in Ht as [Hstored Hq]; [|done].
    split; [done|].
    rewrite orb_true_iff, !bool_decide_eq_true in Hq. destruct Hq as [-> | ->]; auto.
Qed.

Lemma listing_is_union_of_account_histories_witness :
  External_record (sample_env (RelayAccepted (Some "accepted"))) "alice"
    sample_external "OVE" IN_PROGRESS None None
  ∈ [External_record (sample_env (RelayAccepted (Some "accepted"))) "alice"
       sample_external "OVE" IN_PROGRESS None None]
  ↔ ∃ accountNumber history,
      owns sample_world_dispatched "alice" accountNumber
      ∧ (findByAccount id accountNumber ((), sample_world_dispatched)).2 = Ok history
      ∧ External_record (sample_env (RelayAccepted (Some "accepted"))) "alice"
          sample_external "OVE" IN_PROGRESS None None ∈ history.
Proof.
  apply (listing_is_union_of_account_histories id (User.mk "alice" "user" true)
           sample_world_dispatched).
  - intros l. reflexivity.
  - by_compute.
Defined.

(** X23. Who may read an account.  [GET /number/:accountNumber] changes
    nothing; it answers 404 exactly when no account is stored under the
    number, returns the stored account exactly when the requester owns
    it, and answers 403 otherwise.  The accounts that [GET /] lists for a
    user are exactly those that [GET /number/:accountNumber] returns to
    that user. *)
Theorem account_shown_to_owner_only (user : User) (accountNumber : string) (w : World)
    (a : Account) :
  (ByNumber.get user accountNumber w).1 = w
  ∧ ((ByNumber.get user accountNumber w).2 = VError 404 "ACCOUNT_NOT_FOUND"
     ↔ accounts w !! accountNumber = None)
  ∧ ((ByNumber.get user accountNumber w).2 = VAccount a
     ↔ ∃ r, accounts w !! accountNumber = Some r
            ∧ Account.row_user r = User._id user
            ∧ a = Account.load accountNumber r)
  ∧ ((ByNumber.get user accountNumber w).2 = VError 403 "FORBIDDEN"
     ↔ ∃ r, accounts w !! accountNumber = Some r
            ∧ Account.row_user r ≠ User._id user)
  ∧ (Mine.get user w).1 = w
  ∧ ∃ mine,
      (Mine.get user w).2 = VAccounts mine
      ∧ (a ∈ mine ↔ (ByNumber.get user (Account.accountNumber a) w).2 = VAccount a).
Proof.
  assert (Hget : ∀ k,
    ByNumber.get user k w
    = (w, match accounts w !! k with
          | None => VError 404 "ACCOUNT_NOT_FOUND"
          | Some r => if bool_decide (Account.row_user r ≠ User._id user)
                      then VError 403 "FORBIDDEN"
                      else VAccount (Account.load k r)
          end)).
  { intros k. unfold ByNumber.get, view, ByNumber.handler, try_catch.
    rewrite Account_findOne_bind.
    destruct (accounts w !! k) as [r|]; cbn [fmap option_fmap option_map]; [|done].
    cbn [Account.user Account.load]. by case_bool_decide. }
  rewrite !Hget. cbn [fst snd].
  split; [done|]. split; [|split; [|split; [|split; [done|]]]].
  - destruct (accounts w !! accountNumber) as [r|]; [|done].
    by case_bool_decide.
  - destruct (accounts w !! accountNumber) as [r|].
    + case_bool_decide as Hu.
      * split; [done|]. by intros (r' & [= <-] & ? & _).
      * split.
        -- intros [= <-]. by exists r.
        -- by intros (r' & [= <-] & _ & ->).
    + split; [done|]. by intros (r' & ? & _).
  - destruct (accounts w !! accountNumber) as [r|].
    + case_bool_decide as Hu.
      * split; [|done]. intros _. by exists r.
      * split; [done|]. intros (r' & [= <-] & ?). done.
    + split; [done|]. by intros (r' & ? & _).
  - unfold Mine.get, view, Mine.handler, try_catch, mbind, M_bind, bind.
    rewrite Account_find_eq. cbn [fst snd mret M_ret ret].
    eexists. split; [done|]. rewrite elem_of_Account_find. split.
    + intros (r & Hr & Hu & Ha). rewrite Hr, bool_decide_eq_false_2 by (by intros ?).
      by rewrite <- Ha.
    + destruct (accounts w !! Account.accountNumber a) as [r|]; [|done].
      case_bool_decide as Hu; [done|].
      intros [= Ha]. by exists r.
Qed.

Lemma account_shown_to_owner_only_witness :
  (ByNumber.get (User.mk "bob" "user" true) "OVE-10000001" (sample_world [])).2
  = VError 403 "FORBIDDEN".
Proof.
  destruct (account_shown_to_owner_only (User.mk "bob" "user" true) "OVE-10000001"
              (sample_world []) (Account.mk "OVE-10000001" "alice" EUR (Qc_of_Z 100) true))
    as (_ & _ & _ & H & _).
  apply H. exists (Account.mkRow "alice" EUR (Qc_of_Z 100) true).
  split; by vm_compute.
Defined.

(** ** Authentication *)

Lemma String_append_nil (s : string) : "" +:+ s = s.
Proof. reflexivity. Qed.

Lemma String_append_cons (c : ascii) (s1 s2 : string) :
  String c s1 +:+ s2 = String c (s1 +:+ s2).
Proof. reflexivity. Qed.

Lemma String_split_word (separator : ascii) (word rest : string) :
  separator ∉ String.list_ascii_of_string word →
  String_split separator word = [word]
  ∧ String_split separator (word +:+ String separator rest)
    = word :: String_split separator rest.
Proof.
  induction word as [|c word IH]; intros Hword.
  - split; [done|]. rewrite String_append_nil. cbn [String_split].
    by rewrite bool_decide_eq_true_2.
  - cbn [String.list_ascii_of_string] in Hword.
    apply not_elem_of_cons in Hword as [Hc Hword].
    destruct (IH Hword) as [IH1 IH2]. rewrite String_append_cons. cbn [String_split].
    rewrite bool_decide_eq_false_2 by done. by rewrite IH1, IH2.
Qed.

Lemma bearer_token_unfold (rest : string) :
  Auth.bearer_token ("Bearer " +:+ rest) = head (String_split " " rest).
Proof.
  unfold Auth.bearer_token. rewrite !String_append_cons, String_append_nil.
  cbn [String_split]. rewrite !bool_decide_eq_false_2 by done.
  rewrite bool_decide_eq_true_2 by done.
  by destruct (String_split " " rest).
Qed.

(** X24. The token of a request is the first word after 'Bearer ': for a
    header made of 'Bearer ', a word without a space and, possibly, a
    space and more text, [authenticate] and [logout] take the word as the
    token and ignore the text after it.  'Bearer ' alone carries the empty
    token. *)
Theorem bearer_token_is_first_word (token rest : string) :
  " "%char ∉ String.list_ascii_of_string token →
  Auth.bearer_token ("Bearer " +:+ token) = Some token
  ∧ Auth.bearer_token ("Bearer " +:+ token +:+ " " +:+ rest) = Some token
  ∧ Auth.bearer_token "Bearer " = Some "".
Proof.
  intros Hword. destruct (String_split_word " " token rest Hword) as [H1 H2].
  split; [|split].
  - by rewrite bearer_token_unfold, H1.
  - rewrite bearer_token_unfold.
    change (" " +:+ rest) with (String " " rest). by rewrite H2.
  - reflexivity.
Qed.

Lemma bearer_token_is_first_word_witness :
  Auth.bearer_token ("Bearer " +:+ "abc.def.ghi") = Some "abc.def.ghi"
  ∧ Auth.bearer_token ("Bearer " +:+ "abc.def.ghi" +:+ " " +:+ "and more")
    = Some "abc.def.ghi"
  ∧ Auth.bearer_token "Bearer " = Some "".
Proof.
  apply (bearer_token_is_first_word "abc.def.ghi" "and more").
  by_compute.
Defined.

Lemma authenticate_Next lib st authorization user :
  Auth.authenticate lib st authorization = Auth.Next user →
  ∃ authHeader userId r,
    authorization = Some authHeader
    ∧ String.prefix "Bearer " authHeader = true
    ∧ (Auth.bearer_token authHeader ∉ Auth.tokenBlacklist st)
    ∧ Auth.verify lib (Auth.bearer_token authHeader) = Auth.Decoded (Some userId)
    ∧ Auth.isObjectId lib userId = true
    ∧ Auth.users st !! userId = Some r
    ∧ User.row_isActive r = true
    ∧ user = User.load userId r.
Proof.
  unfold Auth.authenticate, Auth.User_findById.
  destruct authorization as [authHeader|]; [|done].
  case_bool_decide as Hempty; cbn [orb]; [done|].
  destruct (String.prefix "Bearer " authHeader) eqn:Hprefix; cbn [negb]; [|done].
  case_bool_decide as Hblack; [done|].
  destruct (Auth.verify lib _) as [[userId|]|name] eqn:Hverify;
    [| done | by destruct (_ || _)].
  destruct (Auth.isObjectId lib userId) eqn:Hcast; [|done].
  destruct (Auth.users st !! userId) as [r|] eqn:Hr;
    cbn [fmap option_fmap option_map User.isActive User.load]; [|done].
  destruct (User.row_isActive r) eqn:Hactive; cbn [negb]; [|done].
  intros [= <-]. by exists authHeader, userId, r.
Qed.

(** X25. Who gets past [authenticate].  The middleware hands the request
    to the handler exactly when the header starts with 'Bearer ', its
    token is not on the blacklist, [jwt.verify] returns claims with a
    [userId] that casts to an [ObjectId], a user is stored under that
    identifier, and the user is active; the user attached to the request
    is that stored user.  A blacklisted token is refused as INVALID_TOKEN
    before it is verified, and a deactivated user is refused whatever the
    token.  A [userId] that does not cast to an [ObjectId] makes
    [findById] throw: the error is passed on with [next(error)], no 401 is
    sent. *)
Theorem authenticate_lets_in_active_users_only lib st authorization user :
  (Auth.authenticate lib st authorization = Auth.Next user
   ↔ ∃ authHeader userId r,
       authorization = Some authHeader
       ∧ String.prefix "Bearer " authHeader = true
       ∧ (Auth.bearer_token authHeader ∉ Auth.tokenBlacklist st)
       ∧ Auth.verify lib (Auth.bearer_token authHeader) = Auth.Decoded (Some userId)
       ∧ Auth.isObjectId lib userId = true
       ∧ Auth.users st !! userId = Some r
       ∧ User.row_isActive r = true
       ∧ user = User.load userId r)
  ∧ (∀ authHeader,
       authorization = Some authHeader →
       String.prefix "Bearer " authHeader = true →
       Auth.bearer_token authHeader ∈ Auth.tokenBlacklist st →
       Auth.authenticate lib st authorization = Auth.Denied 401 "INVALID_TOKEN")
  ∧ (∀ authHeader userId r,
       authorization = Some authHeader →
       Auth.verify lib (Auth.bearer_token authHeader) = Auth.Decoded (Some userId) →
       Auth.isObjectId lib userId = true →
       Auth.users st !! userId = Some r →
       User.row_isActive r = false →
       ∃ code, Auth.authenticate lib st authorization = Auth.Denied 401 code)
  ∧ (∀ authHeader userId,
       authorization = Some authHeader →
       String.prefix "Bearer " authHeader = true →
       Auth.bearer_token authHeader ∉ Auth.tokenBlacklist st →
       Auth.verify lib (Auth.bearer_token authHeader) = Auth.Decoded (Some userId) →
       Auth.isObjectId lib userId = false →
       Auth.authenticate lib st authorization = Auth.NextError "CastError").
Proof.
  split; [split; [apply authenticate_Next|]|split; [|split]].
  - intros (authHeader & userId & r & -> & Hprefix & Hblack & Hverify & Hcast & Hr
            & Hactive & ->).
    unfold Auth.authenticate, Auth.User_findById. rewrite Hprefix.
    rewrite bool_decide_eq_false_2 by (by intros ->).
    cbn [orb negb]. rewrite bool_decide_eq_false_2 by done.
    rewrite Hverify, Hcast, Hr.
    cbn [fmap option_fmap option_map User.isActive User.load]. by rewrite Hactive.
  - intros authHeader -> Hprefix Hblack. unfold Auth.authenticate. rewrite Hprefix.
    rewrite bool_decide_eq_false_2 by (by intros ->).
    cbn [orb negb]. by rewrite bool_decide_eq_true_2.
  - intros authHeader userId r -> Hverify Hcast Hr Hactive.
    unfold Auth.authenticate, Auth.User_findById.
    destruct (_ || _); [by eexists|].
    case_bool_decide; [by eexists|]. rewrite Hverify, Hcast, Hr.
    cbn [fmap option_fmap option_map User.isActive User.load].
    rewrite Hactive. by eexists.
  - intros authHeader userId -> Hprefix Hblack Hverify Hcast.
    unfold Auth.authenticate, Auth.User_findById. rewrite Hprefix.
    rewrite bool_decide_eq_false_2 by (by intros ->).
    cbn [orb negb]. rewrite bool_decide_eq_false_2 by done.
    by rewrite Hverify, Hcast.
Qed.

Lemma authenticate_lets_in_active_users_only_witness :
  ∃ code,
    Auth.authenticate sample_library sample_session (Some "Bearer carol.token")
    = Auth.Denied 401 code.
Proof.
  destruct (authenticate_lets_in_active_users_only sample_library sample_session
              (Some "Bearer carol.token") (User.mk "carol" "user" false))
    as (_ & _ & H & _).
  apply (H "Bearer carol.token" "carol" (User.mkRow "user" false)).
  - reflexivity.
  - by vm_compute.
  - by vm_compute.
  - by vm_compute.
  - reflexivity.
Defined.

(** A claim whose [userId] is no [ObjectId]: the request is neither let
    through nor answered 401. *)
Example authenticate_cast_error :
  Auth.authenticate sample_library sample_session (Some "Bearer guest.token")
  = Auth.NextError "CastError".
Proof. by vm_compute. Qed.

Lemma authenticate_blacklisted lib st authHeader :
  String.prefix "Bearer " authHeader = true →
  Auth.bearer_token authHeader ∈ Auth.tokenBlacklist st →
  Auth.authenticate lib st (Some authHeader) = Auth.Denied 401 "INVALID_TOKEN".
Proof.
  intros Hprefix Hblack. unfold Auth.authenticate. rewrite Hprefix.
  rewrite bool_decide_eq_false_2 by (by intros ->).
  cbn [orb negb]. by rewrite bool_decide_eq_true_2.
Qed.

(** X26. Logout revokes the token.  After a logout that succeeded, every
    request whose header carries the token of the logout is refused as
    INVALID_TOKEN, whatever [jwt.verify] says of the token and whoever
    its user is; a request with another token is judged as it was before
    the logout; the users are untouched and no token leaves the
    blacklist. *)
Theorem logout_revokes_the_token lib st st' authorization :
  Auth.logout lib authorization st = (st', Auth.Passed ()) →
  ∃ authHeader,
    authorization = Some authHeader
    ∧ Auth.users st' = Auth.users st
    ∧ Auth.tokenBlacklist st ⊆ Auth.tokenBlacklist st'
    ∧ (∀ authHeader',
         String.prefix "Bearer " authHeader' = true →
         Auth.bearer_token authHeader' = Auth.bearer_token authHeader →
         Auth.authenticate lib st' (Some authHeader')
         = Auth.Denied 401 "INVALID_TOKEN")
    ∧ (∀ authHeader',
         Auth.bearer_token authHeader' ≠ Auth.bearer_token authHeader →
         Auth.authenticate lib st' (Some authHeader')
         = Auth.authenticate lib st (Some authHeader')).
Proof.
  unfold Auth.logout.
  destruct (Auth.authenticate lib st authorization) as [user| |] eqn:Hauth; [|done..].
  destruct (authenticate_Next _ _ _ _ Hauth) as (authHeader & _ & _ & -> & _).
  intros [= <-]. exists authHeader. split; [done|]. split; [done|].
  split; [apply union_subseteq_r|]. split.
  - intros authHeader' Hprefix Htoken. apply authenticate_blacklisted; [done|].
    cbn. rewrite Htoken. apply elem_of_union_l. by apply elem_of_singleton.
  - intros authHeader' Htoken. unfold Auth.authenticate. cbn [Auth.users
      Auth.tokenBlacklist Auth.set_tokenBlacklist].
    destruct (_ || _); [done|].
    assert (Auth.bearer_token authHeader'
              ∈ ({[Auth.bearer_token authHeader]} ∪ Auth.tokenBlacklist st : gset _)
            ↔ Auth.bearer_token authHeader' ∈ Auth.tokenBlacklist st) as Hiff.
    { rewrite elem_of_union, elem_of_singleton.
      split; [intros [Heq|?]; [by destruct Htoken | done] | by right]. }
    by rewrite (bool_decide_ext _ _ Hiff).
Qed.

Lemma logout_revokes_the_token_witness :
  ∃ authHeader,
    Some "Bearer alice.token" = Some authHeader
    ∧ Auth.users (Auth.logout sample_library (Some "Bearer alice.token") sample_session).1
      = Auth.users sample_session
    ∧ Auth.tokenBlacklist sample_session
      ⊆ Auth.tokenBlacklist
          (Auth.logout sample_library (Some "Bearer alice.token") sample_session).1
    ∧ (∀ authHeader',
         String.prefix "Bearer " authHeader' = true →
         Auth.bearer_token authHeader' = Auth.bearer_token authHeader →
         Auth.authenticate sample_library
           (Auth.logout sample_library (Some "Bearer alice.token") sample_session).1
           (Some authHeader')
         = Auth.Denied 401 "INVALID_TOKEN")
    ∧ (∀ authHeader',
         Auth.bearer_token authHeader' ≠ Auth.bearer_token authHeader →
         Auth.authenticate sample_library
           (Auth.logout sample_library (Some "Bearer alice.token") sample_session).1
           (Some authHeader')
         = Auth.authenticate sample_library sample_session (Some authHeader')).
Proof.
  apply (logout_revokes_the_token sample_library sample_session).
  by vm_compute.
Defined.

(** X27. Money leaves an account only on a request of its owner's
    session.  Behind [authenticate], when a balance is lower after
    [POST /internal] or [POST /external] than before, the middleware let
    the request through for an active user, the account is the source
    account of the request, and that user owns it.  A request that the
    middleware refuses leaves the world exactly as it was.  For
    [POST /internal] the amount is one sent as a JSON number: an amount
    sent as a string is appended to the balance of the destination, which
    can lower it (100 and '1e-2' give 10.01). *)
Theorem debit_requires_owner_session env lib st authorization
    internal external w k b b' :
  balance_of k w = Some b →
  ((∃ n, Internal.amount internal = JNumber n) →
   balance_of k (POST_internal env lib st authorization internal w).1 = Some b' →
   b' < b →
   ∃ user,
     Auth.authenticate lib st authorization = Auth.Next user
     ∧ User.isActive user = true
     ∧ k = Internal.fromAccount internal
     ∧ Account.row_user <$> accounts w !! k = Some (User._id user))
  ∧ (balance_of k (POST_external env lib st authorization external w).1 = Some b' →
     b' < b →
     ∃ user,
       Auth.authenticate lib st authorization = Auth.Next user
       ∧ User.isActive user = true
       ∧ k = External.fromAccount external
       ∧ Account.row_user <$> accounts w !! k = Some (User._id user))
  ∧ (∀ status code,
       Auth.authenticate lib st authorization = Auth.Denied status code →
       POST_internal env lib st authorization internal w
       = (w, Auth.Stopped status code)
       ∧ POST_external env lib st authorization external w
         = (w, Auth.Stopped status code)).
Proof.
  intros Hb. unfold POST_internal, POST_external, Auth.guard.
  destruct (Auth.authenticate lib st authorization) as [user|status code|name]
    eqn:Hauth; cbn [fst snd].
  - destruct (authenticate_Next _ _ _ _ Hauth)
      as (authHeader & userId & r & _ & _ & _ & _ & _ & _ & Hactive & ->).
    destruct (lower_balance_is_senders env userId internal external w k b b' Hb)
      as [Hinternal Hexternal].
    split; [|split; [|done]].
    + intros Hnum Hb' Hlt. destruct (Hinternal Hnum Hb' Hlt). eauto.
    + intros Hb' Hlt. destruct (Hexternal Hb' Hlt). eauto.
  - split; [|split].
    + intros _ Hb' Hlt. rewrite Hb in Hb'. injection Hb' as ->.
      by destruct (Qcle_not_lt _ _ (Qcle_refl b')).
    + intros Hb' Hlt. rewrite Hb in Hb'. injection Hb' as ->.
      by destruct (Qcle_not_lt _ _ (Qcle_refl b')).
    + by intros ? ? [= <- <-].
  - split; [|split; [|done]].
    + intros _ Hb' Hlt. rewrite Hb in Hb'. injection Hb' as ->.
      by destruct (Qcle_not_lt _ _ (Qcle_refl b')).
    + intros Hb' Hlt. rewrite Hb in Hb'. injection Hb' as ->.
      by destruct (Qcle_not_lt _ _ (Qcle_refl b')).
Qed.

Lemma debit_requires_owner_session_witness :
  ∃ user,
    Auth.authenticate sample_library sample_session (Some "Bearer alice.token")
    = Auth.Next user
    ∧ User.isActive user = true
    ∧ "OVE-10000001" = Internal.fromAccount sample_internal
    ∧ Account.row_user <$> accounts (sample_world []) !! "OVE-10000001"
      = Some (User._id user).
Proof.
  destruct (debit_requires_owner_session (sample_env RelayUnreachable) sample_library
              sample_session (Some "Bearer alice.token") sample_internal
              sample_external (sample_world []) "OVE-10000001" (Qc_of_Z 100)
              (Qc_of_Z 50)) as [H _].
  - by_compute.
  - apply H.
    + by eexists.
    + by_compute.
    + by vm_compute.
Defined.

(** ** Opening an account *)

Lemma accountNumber_nonempty (prefix uniqueId : string) :
  prefix +:+ "-" +:+ uniqueId ≠ "".
Proof. by destruct prefix. Qed.

Lemma bankPrefix_nonempty env : bankPrefix env ≠ "".
Proof. unfold bankPrefix. by case_bool_decide. Qed.

Lemma currency_of_code_Some code c :
  currency_of_code code = Some c → currency_code c = code ∧ (code = "EUR" ↔ c = EUR).
Proof.
  unfold currency_of_code. repeat case_bool_decide; intros [= <-]; subst; by split.
Qed.

Lemma currency_of_code_valid code :
  code ∈ currency_enum → is_Some (currency_of_code code).
Proof.
  unfold currency_enum, currency_of_code. rewrite !elem_of_cons, elem_of_nil.
  intros [->|[->|[->|[]]]]; by eexists.
Qed.

(** The outcome of the insertion of an account with a number and a
    balance that is not negative. *)
Lemma Account_insert_outcome env hookId this w :
  Account.accountNumber this ≠ "" → 0 ≤ Account.balance this →
  ∃ w', transactions w' = transactions w
    ∧ ((∃ e, Account_insert env hookId (this, w) = ((this, w'), Throw e)
             ∧ accounts w' = accounts w)
       ∨ (Account_insert env hookId (this, w) = ((this, w'), Ok ())
          ∧ accounts w !! Account.accountNumber this = None
          ∧ accounts w'
            = <[Account.accountNumber this := store this]> (accounts w))).
Proof.
  intros Hnumber Hbalance. unfold Account_insert, pre_validate.
  unfold try_catch, mbind, M_bind, bind, locals. cbn [fst snd].
  rewrite bool_decide_eq_false_2 by done. cbn [mret M_ret ret fst snd].
  rewrite bool_decide_eq_false_2 by done.
  rewrite bool_decide_eq_false_2 by by apply Qcle_not_lt.
  match goal with |- context [db_write ?f _] =>
    destruct (db_write_cases f this w) as (w0 & Ha & Ht & _ & [[e He]|(w' & Hw & He)])
  end; rewrite He.
  - exists w0. split; [done|]. left. by exists e.
  - rewrite Ha in Hw. exists w'.
    destruct (accounts w !! Account.accountNumber this) eqn:Hfree; [done|].
    injection Hw as <-. cbn [emit set_accounts accounts transactions].
    rewrite ?Ha, ?Ht. split; [done|]. by right.
Qed.

(** Every run of [POST /] of the accounts ends in one of five ways: the
    request is turned away; the insertion of the account fails; the
    account is inserted and, for a currency other than EUR, returned; the
    EUR account is inserted and the welcome record is not; both are
    inserted. *)
Lemma opening_outcomes env uniqueId hookId user body w :
  Create.post env uniqueId hookId user body w = (w, VError 400 "VALIDATION_ERROR")
  ∨ ∃ c,
      currency_of_code (Create.currency body) = Some c
      ∧ ((accounts (Create.post env uniqueId hookId user body w).1 = accounts w
          ∧ transactions (Create.post env uniqueId hookId user body w).1 = transactions w
          ∧ ∃ e, (Create.post env uniqueId hookId user body w).2 = VNext e)
         ∨ (accounts w !! (bankPrefix env +:+ "-" +:+ uniqueId) = None
            ∧ accounts (Create.post env uniqueId hookId user body w).1
              = <[bankPrefix env +:+ "-" +:+ uniqueId :=
                    Account.mkRow user c (if bool_decide (c = EUR) then Qc_of_Z 100 else 0)
                      true]> (accounts w)
            ∧ ((c ≠ EUR
                ∧ transactions (Create.post env uniqueId hookId user body w).1
                  = transactions w
                ∧ (Create.post env uniqueId hookId user body w).2
                  = VAccount (Account.mk (bankPrefix env +:+ "-" +:+ uniqueId) user c 0
                                true))
               ∨ (c = EUR
                  ∧ transactions (Create.post env uniqueId hookId user body w).1
                    = transactions w
                  ∧ ∃ e, (Create.post env uniqueId hookId user body w).2 = VNext e)
               ∨ (c = EUR
                  ∧ transactions w !! uuidv4 env = None
                  ∧ transactions (Create.post env uniqueId hookId user body w).1
                    = <[uuidv4 env :=
                          Transaction.set_isNew false
                            (Create.welcome env user (bankPrefix env +:+ "-" +:+ uniqueId))]>
                        (transactions w)
                  ∧ (Create.post env uniqueId hookId user body w).2
                    = VAccount (Account.mk (bankPrefix env +:+ "-" +:+ uniqueId) user
                                  EUR (Qc_of_Z 100) true))))).
Proof.
  remember (Create.post env uniqueId hookId user body w) as out eqn:Hout. revert Hout.
  unfold Create.post, view, Create.handler. unfold try_catch at 1.
  destruct (Create.valid body) eqn:Hvalid; cbn [negb]; [|intros ->; by left].
  apply andb_true_iff in Hvalid as [_ Hvalid]. apply bool_decide_eq_true in Hvalid.
  destruct (currency_of_code_valid _ Hvalid) as [c Hc]. rewrite Hc.
  destruct (currency_of_code_Some _ _ Hc) as [_ Heur].
  rewrite (bool_decide_ext _ _ Heur).
  unfold scope at 1. unfold mbind at 1 2, M_bind at 1 2, bind at 1 2. cbn [fst snd].
  match goal with |- context [Account_insert env hookId (?a, w)] =>
    assert (Hbalance : 0 ≤ Account.balance a)
      by (cbn [Account.balance]; case_bool_decide; by vm_compute);
    destruct (Account_insert_outcome env hookId a w
                (accountNumber_nonempty _ _) Hbalance)
      as (w1 & Ht1 & [(e & Hrun & Ha1)|(Hrun & Hfree & Ha1)]);
      rewrite Hrun; cbn [fst snd mret M_ret ret]
  end.
  { intros ->. right. exists c. split; [done|]. left. eauto. }
  unfold store in Ha1.
  cbn [Account.accountNumber Account.user Account.currency
       Account.balance Account.isActive] in Ha1, Hfree.
  case_bool_decide as Hceur.
  - subst c. unfold scope, mbind, M_bind, bind. cbn [fst snd].
    destruct (Transaction_save_outcome
                (Create.welcome env user (bankPrefix env +:+ "-" +:+ uniqueId)) w1)
      as (w2 & Ha2 & [(e & Hrun2 & Ht2 & _)|(Hrun2 & _ & Hnew & Ht2 & _)]);
      rewrite Hrun2; cbn [fst snd locals mret M_ret ret]; intros ->;
      right; exists EUR; (split; [done|]); right; cbn [fst snd];
      rewrite Ha2, Ha1, Ht2, Ht1, ?bool_decide_eq_true_2 by done;
      (split; [done|]); (split; [done|]).
    + right; left. eauto.
    + right; right. cbn in Hnew. rewrite Ht1 in Hnew. by repeat split.
  - unfold mbind, M_bind, bind, locals. cbn [fst snd mret M_ret ret]. intros ->.
    right. exists c. split; [done|]. right. cbn [fst snd].
    rewrite Ha1, Ht1, ?bool_decide_eq_false_2 by done.
    split; [done|]. split; [done|]. left. by repeat split.
Qed.

Lemma welcome_validate env user uniqueId :
  uuidv4 env ≠ "" →
  Transaction_validate (Create.welcome env user (bankPrefix env +:+ "-" +:+ uniqueId))
  = None.
Proof.
  intros Huuid. unfold Transaction_validate, Create.welcome.
  cbn [Transaction.transactionId Transaction.fromAccount Transaction.toAccount
       Transaction.fromBank Transaction.toBank Transaction.amount Transaction.currency].
  rewrite (bool_decide_eq_false_2 (uuidv4 env = "")) by done.
  rewrite (bool_decide_eq_false_2 ("SYSTEM" = "")) by done.
  rewrite (bool_decide_eq_false_2 (_ +:+ _ = "")) by apply accountNumber_nonempty.
  rewrite (bool_decide_eq_false_2 (bankPrefix env = "")) by apply bankPrefix_nonempty.
  rewrite amount_in_range_Some by by vm_compute. cbn [negb].
  by rewrite bool_decide_eq_true_2 by by_compute.
Qed.

(** X28. Opening an account, when every write lands.  For a request that
    passes the validators (an account type that is absent or one of
    checking, savings and business, and a currency of the enum), an
    account number that is free and a fresh identifier of the welcome
    record, [POST /] of the accounts stores the account under the number
    made of the bank prefix and the draw, owned by the requester and
    active, and returns it.  An EUR account starts with a balance of 100
    and a COMPLETED record of 100 EUR from SYSTEM is stored; an account in
    another currency starts with 0 and no record is written.  A request
    with another account type is answered 400 VALIDATION_ERROR and
    nothing is written. *)
Theorem opening_grants_the_welcome_bonus env uniqueId hookId user body w c :
  Create.valid body = true →
  currency_of_code (Create.currency body) = Some c →
  accounts w !! (bankPrefix env +:+ "-" +:+ uniqueId) = None →
  transactions w !! uuidv4 env = None →
  uuidv4 env ≠ "" →
  faults w = [] →
  (Create.post env uniqueId hookId user body w).2
  = VAccount (Account.mk (bankPrefix env +:+ "-" +:+ uniqueId) user c
                (if bool_decide (c = EUR) then Qc_of_Z 100 else 0) true)
  ∧ accounts (Create.post env uniqueId hookId user body w).1
    = <[bankPrefix env +:+ "-" +:+ uniqueId :=
          Account.mkRow user c (if bool_decide (c = EUR) then Qc_of_Z 100 else 0) true]>
        (accounts w)
  ∧ transactions (Create.post env uniqueId hookId user body w).1
    = (if bool_decide (c = EUR)
       then <[uuidv4 env :=
                Transaction.set_isNew false
                  (Create.welcome env user (bankPrefix env +:+ "-" +:+ uniqueId))]>
              (transactions w)
       else transactions w).
Proof.
  intros Hvalid Hc Hfree Hfresh Huuid Hfaults.
  destruct (currency_of_code_Some _ _ Hc) as [Hcode Heur].
  pose proof (welcome_validate env user uniqueId Huuid) as Hval.
  remember (Create.post env uniqueId hookId user body w) as out eqn:Hout. revert Hout.
  unfold Create.post, view, Create.handler. unfold try_catch at 1.
  rewrite Hvalid, Hc, (bool_decide_ext _ _ Heur). cbn [negb].
  unfold scope at 1. unfold mbind at 1 2, M_bind at 1 2, bind at 1 2. cbn [fst snd].
  unfold Account_insert, pre_validate.
  unfold try_catch, mbind, M_bind, bind, locals. cbn [fst snd Account.accountNumber].
  rewrite (bool_decide_eq_false_2 (_ +:+ _ = "")) by apply accountNumber_nonempty.
  cbn [mret M_ret ret fst snd Account.accountNumber Account.balance].
  rewrite (bool_decide_eq_false_2 (_ +:+ _ = "")) by apply accountNumber_nonempty.
  rewrite (bool_decide_eq_false_2 (_ < 0))
    by (case_bool_decide; by vm_compute).
  unfold db_write. rewrite Hfaults, Hfree. cbn [fst snd].
  case_bool_decide as Hceur.
  - unfold scope. cbn [fst snd]. rewrite Transaction_save_eq, Hval.
    unfold db_write, emit, set_accounts. cbn [faults accounts transactions log].
    rewrite Hfaults. cbn [Transaction.isNew Create.welcome Transaction.transactionId].
    rewrite Hfresh. cbn [fst snd]. by intros ->.
  - cbn [fst snd mret M_ret ret]. by intros ->.
Qed.

Lemma opening_grants_the_welcome_bonus_witness :
  (Create.post (sample_env RelayUnreachable) "30000003" "40000004" "carol"
     (Create.mkRequest (Some "savings") "EUR") (sample_world [])).2
  = VAccount (Account.mk (bankPrefix (sample_env RelayUnreachable) +:+ "-" +:+ "30000003")
                "carol" EUR (if bool_decide (EUR = EUR) then Qc_of_Z 100 else 0) true)
  ∧ accounts (Create.post (sample_env RelayUnreachable) "30000003" "40000004" "carol"
                (Create.mkRequest (Some "savings") "EUR") (sample_world [])).1
    = <[bankPrefix (sample_env RelayUnreachable) +:+ "-" +:+ "30000003" :=
          Account.mkRow "carol" EUR (if bool_decide (EUR = EUR) then Qc_of_Z 100 else 0)
            true]>
        (accounts (sample_world []))
  ∧ transactions (Create.post (sample_env RelayUnreachable) "30000003" "40000004" "carol"
                    (Create.mkRequest (Some "savings") "EUR") (sample_world [])).1
    = (if bool_decide (EUR = EUR)
       then <[uuidv4 (sample_env RelayUnreachable) :=
                Transaction.set_isNew false
                  (Create.welcome (sample_env RelayUnreachable) "carol"
                     (bankPrefix (sample_env RelayUnreachable) +:+ "-" +:+ "30000003"))]>
              (transactions (sample_world []))
       else transactions (sample_world [])).
Proof.
  apply (opening_grants_the_welcome_bonus (sample_env RelayUnreachable) "30000003"
           "40000004" "carol" (Create.mkRequest (Some "savings") "EUR")
           (sample_world []) EUR).
  - reflexivity.
  - reflexivity.
  - by vm_compute.
  - reflexivity.
  - by vm_compute.
  - reflexivity.
Defined.

(** X29. Opening an account leaves the rest of the bank alone.  Whatever
    the request, the draws and the schedule of failing writes, every
    account and every record that was stored before [POST /] of the
    accounts is stored unchanged after it; an account that is new is
    stored under the number made of the bank prefix and the draw, belongs
    to the requester, is active and holds 100 when its currency is EUR
    and 0 otherwise; a number that is taken is never overwritten. *)
Theorem opening_never_touches_existing env uniqueId hookId user body w :
  (∀ k r, accounts w !! k = Some r →
     accounts (Create.post env uniqueId hookId user body w).1 !! k = Some r)
  ∧ (∀ id t, transactions w !! id = Some t →
       transactions (Create.post env uniqueId hookId user body w).1 !! id = Some t)
  ∧ (∀ k r, accounts (Create.post env uniqueId hookId user body w).1 !! k = Some r →
       accounts w !! k = Some r
       ∨ k = bankPrefix env +:+ "-" +:+ uniqueId
         ∧ accounts w !! k = None
         ∧ Account.row_user r = user
         ∧ Account.row_isActive r = true
         ∧ Account.row_balance r
           = if bool_decide (Account.row_currency r = EUR) then Qc_of_Z 100 else 0).
Proof.
  destruct (opening_outcomes env uniqueId hookId user body w)
    as [->|(c & _ & [(Ha & Ht & _)|(Hfree & Ha & Hout)])].
  { cbn. auto. }
  { rewrite Ha, Ht. auto. }
  assert (Ht : ∀ id t, transactions w !! id = Some t →
    transactions (Create.post env uniqueId hookId user body w).1 !! id = Some t).
  { destruct Hout as [(_ & -> & _)|[(_ & -> & _)|(_ & Hfresh & -> & _)]]; try done.
    intros id t Hid. rewrite lookup_insert_ne; [done|]. intros <-.
    by rewrite Hid in Hfresh. }
  rewrite Ha. split; [|split; [done|]].
  - intros k r Hk. rewrite lookup_insert_ne; [done|]. intros <-. by rewrite Hk in Hfree.
  - intros k r. destruct (decide (k = bankPrefix env +:+ "-" +:+ uniqueId)) as [->|Hk].
    + rewrite lookup_insert_eq. intros [= <-]. right. by repeat split.
    + rewrite lookup_insert_ne by done. auto.
Qed.

(** X30. The welcome bonus and its record are two writes.  When the
    account of an EUR request that passes the validators is inserted and
    the write of the welcome record fails, the account stays, with its
    balance of 100, no record of the 100 is stored, and the error goes to
    the error middleware. *)
Theorem welcome_bonus_without_record env uniqueId hookId user body w fs :
  Create.valid body = true →
  currency_of_code (Create.currency body) = Some EUR →
  accounts w !! (bankPrefix env +:+ "-" +:+ uniqueId) = None →
  uuidv4 env ≠ "" →
  faults w = false :: true :: fs →
  (Create.post env uniqueId hookId user body w).2 = VNext MongoNetworkError
  ∧ balance_of (bankPrefix env +:+ "-" +:+ uniqueId)
      (Create.post env uniqueId hookId user body w).1 = Some (Qc_of_Z 100)
  ∧ transactions (Create.post env uniqueId hookId user body w).1 = transactions w.
Proof.
  intros Hvalid Hc Hfree Huuid Hfaults.
  destruct (currency_of_code_Some _ _ Hc) as [Hcode Heur].
  pose proof (welcome_validate env user uniqueId Huuid) as Hval.
  remember (Create.post env uniqueId hookId user body w) as out eqn:Hout. revert Hout.
  unfold Create.post, view, Create.handler. unfold try_catch at 1.
  rewrite Hvalid, Hc, (bool_decide_ext _ _ Heur). cbn [negb].
  rewrite !(bool_decide_eq_true_2 (EUR = EUR)) by done.
  unfold scope at 1. unfold mbind at 1 2, M_bind at 1 2, bind at 1 2. cbn [fst snd].
  unfold Account_insert, pre_validate.
  unfold try_catch, mbind, M_bind, bind, locals. cbn [fst snd Account.accountNumber].
  rewrite (bool_decide_eq_false_2 (_ +:+ _ = "")) by apply accountNumber_nonempty.
  cbn [mret M_ret ret fst snd Account.accountNumber Account.balance].
  rewrite (bool_decide_eq_false_2 (_ +:+ _ = "")) by apply accountNumber_nonempty.
  rewrite (bool_decide_eq_false_2 (_ < 0)) by by vm_compute.
  unfold db_write. rewrite Hfaults. cbn [accounts set_faults]. rewrite Hfree.
  cbn [fst snd]. unfold scope. cbn [fst snd]. rewrite Transaction_save_eq, Hval.
  unfold db_write, emit, set_accounts, set_faults.
  cbn [faults accounts transactions log fst snd mret M_ret ret]. intros ->.
  unfold balance_of. cbn [fst snd accounts transactions store Account.balance].
  by rewrite lookup_insert_eq.
Qed.

Lemma welcome_bonus_without_record_witness :
  (Create.post (sample_env RelayUnreachable) "30000003" "40000004" "carol"
     (Create.mkRequest None "EUR") (sample_world [false; true])).2 = VNext MongoNetworkError
  ∧ balance_of (bankPrefix (sample_env RelayUnreachable) +:+ "-" +:+ "30000003")
      (Create.post (sample_env RelayUnreachable) "30000003" "40000004" "carol"
         (Create.mkRequest None "EUR") (sample_world [false; true])).1 = Some (Qc_of_Z 100)
  ∧ transactions (Create.post (sample_env RelayUnreachable) "30000003" "40000004" "carol"
                    (Create.mkRequest None "EUR") (sample_world [false; true])).1
    = transactions (sample_world [false; true]).
Proof.
  apply (welcome_bonus_without_record (sample_env RelayUnreachable) "30000003"
           "40000004" "carol" (Create.mkRequest None "EUR")
           (sample_world [false; true]) []).
  - reflexivity.
  - reflexivity.
  - by vm_compute.
  - by vm_compute.
  - reflexivity.
Defined.

(** An account type outside the three is turned away before anything is
    written. *)
Example opening_rejects_other_account_type :
  Create.post (sample_env RelayUnreachable) "30000003" "40000004" "carol"
    (Create.mkRequest (Some "premium") "EUR") (sample_world [])
  = (sample_world [], VError 400 "VALIDATION_ERROR").
Proof. by vm_compute. Qed.

Lemma opening_never_touches_existing_witness :
  accounts
    (Create.post (sample_env RelayUnreachable) "10000001" "40000004" "carol"
       (Create.mkRequest None "EUR") (sample_world [])).1 !! "OVE-10000001"
  = Some (Account.mkRow "alice" EUR (Qc_of_Z 100) true).
Proof.
  destruct (opening_never_touches_existing (sample_env RelayUnreachable) "10000001"
              "40000004" "carol" (Create.mkRequest None "EUR") (sample_world []))
    as [H _].
  apply H. by vm_compute.
Defined.
